(** * tinygrad/runtime/ops_gpu.py: the OpenCL runtime, embedded and verified

    The Python module drives a native compute API (pyopencl).  Its three
    classes are embedded below as state-passing functions over an explicit
    [World]: the objects living in the OpenCL context, the in-order command
    queue, the text written to standard output and the log of native calls.
    Python exceptions are the [Raise] results of a small state-and-error
    monad; a raise keeps the effects that happened before it.

    What the native library answers (which devices exist, whether a call
    fails, profiling timestamps, ...) is not decided by this module: it is
    collected in the record [Native], and every definition takes it as an
    argument.  Durations are binary64 numbers, as in Python: Rocq's
    primitive floats, with the Standard Library's axioms relating them to
    their specification.

    Layout: the embedding of the module; the vocabulary of the statements
    and some concrete hosts on which the definitions are run; the
    properties, in the order of the source (_CL, CLBuffer, CLProgram). *)

From Stdlib Require Import ZArith Bool PrimFloat SpecFloat FloatOps FloatAxioms.
From stdpp Require Import gmap strings list.

Open Scope Z_scope.

(** ** Python values used by the module *)

(** [bytes] objects (program binaries, packed scalars) are carried as strings. *)
Definition bytes := string.

(** [s.startswith(p)] *)
Definition startswith (s p : string) : bool := String.prefix p s.

(** [needle in hay], on strings *)
Definition str_contains (needle hay : string) : bool :=
  match String.index 0 needle hay with
  | Some _ => true
  | None => false
  end.

(** [l[i]] on a Python list or tuple: a negative index counts from the end,
    an index out of range has no value (the caller raises IndexError). *)
Definition py_index {A} (l : list A) (i : Z) : option A :=
  let n := Z.of_nat (length l) in
  if 0 <=? i then l !! Z.to_nat i
  else if - n <=? i then l !! Z.to_nat (n + i)
  else None.

(** Modelled from the spec: [prod] of tinygrad.helpers is not under src/; the
    spec reads [prod(dtype.shape)] as the product of the declared dimensions
    (rows * cols for a 2D shape). *)
Definition prod (x : list Z) : Z := foldr Z.mul 1 x.

(** [float(z)] as Python converts an int operand of a float operation:
    round to nearest even, OverflowError ([None]) when the int is beyond
    the range of a double. *)
Definition float_of_int (z : Z) : option float :=
  let f := SF2Prim (binary_normalize prec emax z 0 false) in
  if PrimFloat.is_infinity f then None else Some f.

(** Modelled from the spec: [DType] and [ImageDType] of tinygrad.helpers
    are not under src/.  An element type has a byte width and a name; an
    image element type (the subclass [ImageDType]) declares a shape as well.
    The numpy type of the tuple plays no role in this module and is left out. *)
Module DType.
Inductive t :=
| DType (itemsize : Z) (name : string)
| ImageDType (itemsize : Z) (name : string) (shape : list Z).

Definition itemsize (d : t) : Z :=
  match d with DType i _ | ImageDType i _ _ => i end.

Definition name (d : t) : string :=
  match d with DType _ n | ImageDType _ n _ => n end.

(** [isinstance(d, ImageDType)] *)
Definition is_ImageDType (d : t) : bool :=
  match d with ImageDType _ _ _ => true | DType _ _ => false end.
End DType.

(** Host scalars handed to a kernel, and the numpy scalar types a program
    may declare for them. *)
Inductive scalar := PyInt (z : Z) | PyFloat (f : float).
Inductive np_dtype := np_int16 | np_int32 | np_int64 | np_uint32 | np_float32 | np_float64.

(** ** Native objects *)

Definition handle := nat.

Inductive device_type := GPU | CPU.

Record Device := {
  dev_type : device_type;
  dev_name : string;
  dev_max_work_group_size : Z;
}.

Record Platform := { platform_devices : list Device }.

#[global] Instance device_type_eq_dec : EqDecision device_type.
Proof. solve_decision. Defined.

Record Context := { devices : list Device }.
Record CommandQueue := { queue_ctx : Context; profiling_enable : bool }.

Inductive channel_order := RGBA.
Inductive channel_type := HALF_FLOAT | FLOAT.
Record ImageFormat := { fmt_order : channel_order; fmt_type : channel_type }.
Inductive mem_flags := READ_WRITE.

(** An [np.ndarray] on the host: its elements. *)
Definition ndarray := list Z.

(** The two ends of [cl.enqueue_copy]. *)
Inductive copy_end := HostArray (x : ndarray) | DeviceMem (h : handle).

(** What a native kernel call receives for one argument, and what reaches
    the device once the declared scalar types have been applied. *)
Inductive karg := KMem (h : handle) | KScalar (v : scalar).
Inductive bound_arg := BMem (h : handle) | BPacked (ty : np_dtype) (b : bytes) | BRaw (v : scalar).

Definition arg_signature := list (option np_dtype).

Inductive cl_object :=
| Image (flags : mem_flags) (fmt : ImageFormat) (shape : Z * Z)
| Buffer (flags : mem_flags) (nbytes : Z)
| Program (prg : string) (binary : bool) (built : bool)
| Kernel (program : handle) (kname : string) (scalar_arg_dtypes : option arg_signature).

Definition is_Image (o : cl_object) : bool :=
  match o with Image _ _ _ => true | _ => false end.

(** Commands of the queue. *)
Inductive command :=
| Copy (dest src : copy_end) (is_blocking : bool)
| NDRange (kernel : handle) (global_size : list Z) (local_size : option (list Z))
          (args : list bound_arg).

(** The calls into pyopencl, and the call of the Adreno disassembler. *)
Inductive native_call :=
| cl_get_platforms
| cl_get_devices (p : Platform) (ty : device_type)
| cl_Context (ds : list Device)
| cl_CommandQueue (ctx : Context) (profiling : bool)
| cl_Image (ctx : Context) (flags : mem_flags) (fmt : ImageFormat) (shape : Z * Z)
| cl_Buffer (ctx : Context) (flags : mem_flags) (nbytes : Z)
| cl_enqueue_copy (q : CommandQueue) (dest src : copy_end) (is_blocking : bool)
| cl_Program (ctx : Context) (prg : string) (binary : bool)
| cl_Program_build (p : handle)
| cl_Program_getattr (p : handle) (name : string)
| cl_Program_get_info_BINARIES (p : handle)
| cl_Kernel_set_scalar_arg_dtypes (k : handle) (tys : arg_signature)
| cl_Kernel_call (k : handle) (q : CommandQueue) (global_size : list Z)
                 (local_size : option (list Z)) (args : list karg)
| cl_CommandQueue_finish (q : CommandQueue)
| disasm (binary : bytes).

(** ** Exceptions *)

(** pyopencl's error classes (all derive from [cl.Error]) and the record an
    error carries. *)
Inductive cl_error_class := cl_MemoryError | cl_LogicError | cl_RuntimeError.
Record cl_error := { routine : string; code : Z; msg : string }.

(** The messages of the module's three assertions, with the values their
    f-strings interpolate. *)
Inductive assert_msg :=
| image_size_mismatch (size : Z) (shape : list Z)
| cant_copyin_images (d : DType.t)
| cant_copyout_images (d : DType.t).

Inductive exn :=
| AssertionError (m : assert_msg)
| KeyError (k : Z)
| IndexError
| AttributeError (attr : string)
| OverflowError
| TypeError
| UnicodeDecodeError
| StructError
| CLError (cls : cl_error_class) (e : cl_error).

(** ** The world *)

Record World := {
  heap : gmap handle cl_object;   (* objects created in the context *)
  next : handle;                  (* next free handle *)
  pending : list command;         (* enqueued, completion not yet observed *)
  completed : list command;       (* observed complete, in queue order *)
  stdout : list string;           (* one entry per print *)
  trace : list native_call;       (* native calls made, oldest first *)
}.

Definition empty_world : World :=
  {| heap := ∅; next := 0%nat; pending := []; completed := []; stdout := []; trace := [] |}.

(** What the native library and the host decide. *)
Record Native := {
  OSX : bool;                                    (* platform.system() == "Darwin" *)
  DEBUG : Z;
  environ : gmap string Z;                       (* integer settings of the environment *)
  platforms : list Platform;                     (* cl.get_platforms() *)
  native_raises : native_call -> World -> option exn;  (* None: the call succeeds *)
  Device_str : Device -> string;                 (* str(device) *)
  program_binaries : string -> list bytes;       (* get_info(BINARIES) of a built program *)
  decode_utf8 : bytes -> option string;
  pack : np_dtype -> scalar -> option bytes;     (* a host scalar as a declared native type *)
  profiling : nat -> Z * Z;                      (* (start, end) of the n-th command, in ns *)
}.

(** Modelled from the spec: [getenv] of tinygrad.helpers is not under src/;
    an integer setting with a default used when the variable is not set. *)
Definition getenv (N : Native) (key : string) (default : Z) : Z :=
  match environ N !! key with
  | Some v => v
  | None => default
  end.

Definition OSX_TIMING_RATIO (N : Native) : float :=
  if OSX N then (125 / 3)%float else 1.0%float.

Definition FLOAT16 (N : Native) : Z := getenv N "FLOAT16" 0.

(** ** The monad of effects and exceptions *)

Inductive result (A : Type) :=
| Ok (a : A)
| Raise (e : exn).
Arguments Ok {A} a.
Arguments Raise {A} e.

Definition M (A : Type) : Type := World -> result A * World.

Definition ret {A} (a : A) : M A := fun w => (Ok a, w).

Definition raise {A} (e : exn) : M A := fun w => (Raise e, w).

Definition bind {A B} (m : M A) (k : A -> M B) : M B :=
  fun w =>
    match m w with
    | (Ok a, w') => k a w'
    | (Raise e, w') => (Raise e, w')
    end.

Declare Scope py_scope.
Delimit Scope py_scope with py.
Notation "x <- m ;; k" := (bind m (fun x => k))
  (at level 100, m at next level, right associativity) : py_scope.
Notation "m ;; k" := (bind m (fun _ => k))
  (at level 100, right associativity) : py_scope.
Open Scope py_scope.

(** [try: m  except: h] *)
Definition try_except {A} (m : M A) (h : exn -> M A) : M A :=
  fun w =>
    match m w with
    | (Ok a, w') => (Ok a, w')
    | (Raise e, w') => h e w'
    end.

(** [assert c, m] *)
Definition py_assert (c : bool) (m : assert_msg) : M unit :=
  if c then ret tt else raise (AssertionError m).

Definition of_option {A} (o : option A) (e : exn) : M A :=
  match o with
  | Some a => ret a
  | None => raise e
  end.

Definition of_result {A} (r : result A) : M A := fun w => (r, w).

Definition print (s : string) : M unit :=
  fun w => (Ok tt, {| heap := heap w; next := next w; pending := pending w;
                      completed := completed w; stdout := stdout w ++ [s];
                      trace := trace w |}).

Fixpoint mapM {A B} (f : A -> M B) (l : list A) : M (list B) :=
  match l with
  | [] => ret []
  | a :: l' => b <- f a ;; bs <- mapM f l' ;; ret (b :: bs)
  end.

(** ** Native calls: logged, possibly failing, then their effect *)

Definition log (c : native_call) (w : World) : World :=
  {| heap := heap w; next := next w; pending := pending w;
     completed := completed w; stdout := stdout w; trace := trace w ++ [c] |}.

Definition native {A} (N : Native) (c : native_call) (effect : M A) : M A :=
  fun w =>
    match native_raises N c w with
    | Some e => (Raise e, log c w)
    | None => effect (log c w)
    end.

(** A new object in the context. *)
Definition alloc (o : cl_object) : M handle :=
  fun w => (Ok (next w),
            {| heap := <[next w := o]> (heap w); next := S (next w);
               pending := pending w; completed := completed w;
               stdout := stdout w; trace := trace w |}).

Definition set_object (h : handle) (o : cl_object) : M unit :=
  fun w => (Ok tt,
            {| heap := <[h := o]> (heap w); next := next w;
               pending := pending w; completed := completed w;
               stdout := stdout w; trace := trace w |}).

(** The queue is in order: once the host has waited for one command, that
    command and all those enqueued before it are complete. *)
Definition enqueue (c : command) (blocking : bool) : M nat :=
  fun w =>
    let n := length (completed w ++ pending w) in
    if blocking then
      (Ok n, {| heap := heap w; next := next w; pending := [];
                completed := completed w ++ pending w ++ [c];
                stdout := stdout w; trace := trace w |})
    else
      (Ok n, {| heap := heap w; next := next w; pending := pending w ++ [c];
                completed := completed w; stdout := stdout w; trace := trace w |}).

Definition drain : M unit :=
  fun w => (Ok tt, {| heap := heap w; next := next w; pending := [];
                      completed := completed w ++ pending w;
                      stdout := stdout w; trace := trace w |}).

(** ** class _CL: the device context *)

Module _CL.
Record t := { cl_ctx : Context; cl_queue : CommandQueue }.

Definition get_platforms (N : Native) : M (list Platform) :=
  native N cl_get_platforms (ret (platforms N)).

Definition get_devices (N : Native) (x : Platform) (ty : device_type) : M (list Device) :=
  native N (cl_get_devices x ty)
    (ret (List.filter (fun d => bool_decide (dev_type d = ty)) (platform_devices x))).

(** [sum([x.get_devices(device_type=ty) for x in cl.get_platforms()], [])] *)
Definition all_devices (N : Native) (ty : device_type) : M (list Device) :=
  ps <- get_platforms N ;;
  ds <- mapM (fun x => get_devices N x ty) ps ;;
  ret (concat ds).

Definition __init__ (N : Native) : M t :=
  devices <- all_devices N GPU ;;
  devices <- (if (length devices =? 0)%nat then all_devices N CPU else ret devices) ;;
  (if (1 <? Z.of_nat (length devices)) || (1 <=? DEBUG N)
   then d <- of_option (py_index devices (getenv N "CL_DEVICE" 0)) IndexError ;;
        print ("using " +:+ Device_str N d)
   else ret tt) ;;
  d <- of_option (py_index devices (getenv N "CL_DEVICE" 0)) IndexError ;;
  cl_ctx <- native N (cl_Context [d]) (ret {| devices := [d] |}) ;;
  cl_queue <- native N (cl_CommandQueue cl_ctx true)
                (ret {| queue_ctx := cl_ctx; profiling_enable := true |}) ;;
  ret {| cl_ctx := cl_ctx; cl_queue := cl_queue |}.
End _CL.

(** ** class CLBuffer *)

Module CLBuffer.
Record t := { size : Z; dtype : DType.t; _buf : handle }.

(** Modelled from the spec: [RawBufferCopyInOut.__init__] of
    tinygrad.runtime.lib is not under src/; a buffer represents [size]
    elements of an element type and owns its backing store. *)
Definition RawBuffer_init (size : Z) (dtype : DType.t) (buf : handle) : M t :=
  ret {| size := size; dtype := dtype; _buf := buf |}.

(** [{2: cl.channel_type.HALF_FLOAT, 4: cl.channel_type.FLOAT}] *)
Definition channel_types : gmap Z channel_type :=
  <[2 := HALF_FLOAT]> (<[4 := FLOAT]> ∅).

Definition __init__ (N : Native) (CL : _CL.t) (size : Z) (dtype : DType.t) : M t :=
  buf <- match dtype with
         | DType.ImageDType itemsize _ shape =>
             ct <- of_option (channel_types !! itemsize) (KeyError itemsize) ;;
             let fmt := {| fmt_order := RGBA; fmt_type := ct |} in
             s1 <- of_option (py_index shape 1) IndexError ;;
             s0 <- of_option (py_index shape 0) IndexError ;;
             buf <- native N (cl_Image (_CL.cl_ctx CL) READ_WRITE fmt (s1, s0))
                      (alloc (Image READ_WRITE fmt (s1, s0))) ;;
             py_assert (size =? prod shape) (image_size_mismatch size shape) ;;
             ret buf
         | DType.DType itemsize _ =>
             native N (cl_Buffer (_CL.cl_ctx CL) READ_WRITE (size * itemsize))
               (alloc (Buffer READ_WRITE (size * itemsize)))
         end ;;
  RawBuffer_init size dtype buf.

Definition _copyin (N : Native) (CL : _CL.t) (self : t) (x : ndarray) : M unit :=
  py_assert (negb (startswith (DType.name (dtype self)) "image"))
            (cant_copyin_images (dtype self)) ;;
  native N (cl_enqueue_copy (_CL.cl_queue CL) (DeviceMem (_buf self)) (HostArray x) false)
    (enqueue (Copy (DeviceMem (_buf self)) (HostArray x) false) false ;; ret tt).

Definition _copyout (N : Native) (CL : _CL.t) (self : t) (x : ndarray) : M unit :=
  py_assert (negb (startswith (DType.name (dtype self)) "image"))
            (cant_copyout_images (dtype self)) ;;
  native N (cl_enqueue_copy (_CL.cl_queue CL) (HostArray x) (DeviceMem (_buf self)) true)
    (enqueue (Copy (HostArray x) (DeviceMem (_buf self)) true) true ;; ret tt).
End CLBuffer.

(** ** class CLProgram *)

(** An element of [*bufs]. *)
Inductive pyarg :=
| ArgCLBuffer (b : CLBuffer.t)
| ArgOther (v : scalar).

(** Modelled from the spec: [disasm] of disassemblers.adreno is not under
    src/; the spec says only that the binary is handed to a vendor-specific
    disassembler.  The import and the call are one external step: it is
    logged, it may raise, and it changes nothing this module keeps; whatever
    the disassembler writes is not a [print] of this module. *)
Definition adreno_disasm (N : Native) (binary : bytes) : M unit :=
  native N (disasm binary) (ret tt).

(** [1e-9] is not a binary64 value; Python and Rocq both read it as the
    nearest one, written here exactly. *)
Definition ns_to_s : float := 0x1.12e0be826d695p-30%float.

Module CLProgram.
Record t := {
  name : string;
  argdtypes : option arg_signature;
  clprogram : handle;
  _clprg : handle;
  clprg : handle;
}.

(** pyopencl applies the declared scalar types when the kernel is called:
    a position declared [None] takes the argument as it is, a position
    with a type packs the host scalar as that native type. *)
Definition bind_arg (N : Native) (ty : option np_dtype) (a : karg) : result bound_arg :=
  match ty, a with
  | None, KMem h => Ok (BMem h)
  | None, KScalar v => Ok (BRaw v)
  | Some ty, KScalar v =>
      match pack N ty v with
      | Some b => Ok (BPacked ty b)
      | None => Raise StructError
      end
  | Some _, KMem _ => Raise StructError
  end.

Fixpoint bind_args (N : Native) (tys : arg_signature) (args : list karg)
    : result (list bound_arg) :=
  match tys, args with
  | [], [] => Ok []
  | ty :: tys', a :: args' =>
      match bind_arg N ty a with
      | Ok b =>
          match bind_args N tys' args' with
          | Ok bs => Ok (b :: bs)
          | Raise e => Raise e
          end
      | Raise e => Raise e
      end
  | _, _ => Raise TypeError
  end.

(** Without a declared signature every position is undeclared. *)
Definition bind_call (N : Native) (sig : option arg_signature) (args : list karg)
    : result (list bound_arg) :=
  match sig with
  | Some tys => bind_args N tys args
  | None => bind_args N (map (fun _ => None) args) args
  end.

Definition kernel_signature (k : handle) : M (option arg_signature) :=
  fun w =>
    match heap w !! k with
    | Some (Kernel _ _ sig) => (Ok sig, w)
    | _ => (Raise TypeError, w)
    end.

(** [kernel(queue, global_size, local_size, *args)]: bind the arguments,
    enqueue the dispatch, return the event (the position of the command). *)
Definition Kernel_call (N : Native) (k : handle) (q : CommandQueue)
    (global_size : list Z) (local_size : option (list Z)) (args : list karg) : M nat :=
  native N (cl_Kernel_call k q global_size local_size args)
    (sig <- kernel_signature k ;;
     bound <- of_result (bind_call N sig args) ;;
     enqueue (NDRange k global_size local_size bound) false).

Definition __init__ (N : Native) (CL : _CL.t) (name prg : string)
    (binary : bool) (argdtypes : option arg_signature) : M t :=
  clprogram <- native N (cl_Program (_CL.cl_ctx CL) prg binary)
                 (alloc (Program prg binary false)) ;;
  _clprg <- try_except
              (native N (cl_Program_build clprogram)
                 (set_object clprogram (Program prg binary true) ;; ret clprogram))
              (fun e =>
                 match e with
                 | CLError cl_RuntimeError _ =>
                     (if 3 <=? DEBUG N then print ("FAILED TO BUILD " +:+ prg) else ret tt) ;;
                     raise e
                 | _ => raise e
                 end) ;;
  clprg <- native N (cl_Program_getattr _clprg name) (alloc (Kernel _clprg name None)) ;;
  (if (5 <=? DEBUG N) && negb (OSX N) then
     bins <- native N (cl_Program_get_info_BINARIES clprogram)
               (ret (program_binaries N prg)) ;;
     binary <- of_option (py_index bins 0) IndexError ;;
     d0 <- of_option (py_index (devices (_CL.cl_ctx CL)) 0) IndexError ;;
     if str_contains "Adreno" (dev_name d0)
     then adreno_disasm N binary
     else s <- of_option (decode_utf8 N binary) UnicodeDecodeError ;; print s
   else ret tt) ;;
  match argdtypes with
  | Some tys =>
      native N (cl_Kernel_set_scalar_arg_dtypes clprg tys)
        (set_object clprg (Kernel _clprg name (Some tys)))
  | None => ret tt
  end ;;
  ret {| name := name; argdtypes := argdtypes; clprogram := clprogram;
         _clprg := _clprg; clprg := clprg |}.

Definition max_work_group_size (CL : _CL.t) : M Z :=
  d0 <- of_option (py_index (devices (_CL.cl_ctx CL)) 0) IndexError ;;
  ret (dev_max_work_group_size d0).

(** [x._buf if isinstance(x, CLBuffer) else x] *)
Definition resolve (x : pyarg) : karg :=
  match x with
  | ArgCLBuffer b => KMem (CLBuffer._buf b)
  | ArgOther v => KScalar v
  end.

Definition __call__ (N : Native) (CL : _CL.t) (self : t) (global_size : list Z)
    (local_size : option (list Z)) (bufs : list pyarg) (wait : bool) : M (option float) :=
  e <- Kernel_call N (clprg self) (_CL.cl_queue CL) global_size local_size
         (map resolve bufs) ;;
  if wait then
    native N (cl_CommandQueue_finish (_CL.cl_queue CL)) drain ;;
    d <- of_option (float_of_int (snd (profiling N e) - fst (profiling N e)))
           OverflowError ;;
    ret (Some ((d * OSX_TIMING_RATIO N) * ns_to_s)%float)
  else ret None.
End CLProgram.

(** * Vocabulary of the statements *)

(** ** Device context *)

(** The devices of one type over all platforms, in enumeration order. *)
Definition devices_of (N : Native) (ty : device_type) : list Device :=
  concat (map (fun x => List.filter (fun d => bool_decide (dev_type d = ty))
                          (platform_devices x))
              (platforms N)).

(** The devices the context chooses from. *)
Definition candidates (N : Native) : list Device :=
  match devices_of N GPU with
  | [] => devices_of N CPU
  | ds => ds
  end.

(** The native calls of one enumeration. *)
Definition enumeration (N : Native) (ty : device_type) : list native_call :=
  cl_get_platforms :: map (fun x => cl_get_devices x ty) (platforms N).



(** A world after further native calls without effect of their own. *)
Definition logged (cs : list native_call) (w : World) : World :=
  {| heap := heap w; next := next w; pending := pending w;
     completed := completed w; stdout := stdout w; trace := trace w ++ cs |}.

(** The part of [_CL.__init__] that follows the enumeration: the notice, the
    choice of the device, the context and the queue. *)
Definition select_device (N : Native) (devices : list Device) : M _CL.t :=
  (if (1 <? Z.of_nat (length devices)) || (1 <=? DEBUG N)
   then d <- of_option (py_index devices (getenv N "CL_DEVICE" 0)) IndexError ;;
        print ("using " +:+ Device_str N d)
   else ret tt) ;;
  d <- of_option (py_index devices (getenv N "CL_DEVICE" 0)) IndexError ;;
  cl_ctx <- native N (cl_Context [d]) (ret {| devices := [d] |}) ;;
  cl_queue <- native N (cl_CommandQueue cl_ctx true)
                (ret {| queue_ctx := cl_ctx; profiling_enable := true |}) ;;
  ret {| _CL.cl_ctx := cl_ctx; _CL.cl_queue := cl_queue |}.

(** ** Buffers and transfers *)

(** The guard of both transfers, as the code computes it. *)
Definition name_is_image (b : CLBuffer.t) : bool :=
  startswith (DType.name (CLBuffer.dtype b)) "image".

(** A buffer is image-backed when its backing store is an image object. *)
Definition image_backed (b : CLBuffer.t) (w : World) : bool :=
  match heap w !! CLBuffer._buf b with
  | Some o => is_Image o
  | None => false
  end.

Definition copyin_call (CL : _CL.t) (b : CLBuffer.t) (x : ndarray) : native_call :=
  cl_enqueue_copy (_CL.cl_queue CL) (DeviceMem (CLBuffer._buf b)) (HostArray x) false.

Definition copyout_call (CL : _CL.t) (b : CLBuffer.t) (x : ndarray) : native_call :=
  cl_enqueue_copy (_CL.cl_queue CL) (HostArray x) (DeviceMem (CLBuffer._buf b)) true.

(** ** Programs and launches *)

(** The strings an exception object holds. *)
Definition exn_text (e : exn) : list string :=
  match e with
  | AttributeError attr => [attr]
  | CLError _ r => [routine r; msg r]
  | _ => []
  end.

(** An exception carries a text when one of its strings contains it. *)
Definition carries (e : exn) (s : string) : bool :=
  existsb (str_contains s) (exn_text e).

Definition is_cl_RuntimeError (e : exn) : bool :=
  match e with
  | CLError cl_RuntimeError _ => true
  | _ => false
  end.

(** The world in which [build] runs: the program object has been created. *)
Definition program_created (CL : _CL.t) (prg : string) (binary : bool) (w : World) : World :=
  snd (alloc (Program prg binary false) (log (cl_Program (_CL.cl_ctx CL) prg binary) w)).

(** The native calls of one launch. *)
Definition launch_call (CL : _CL.t) (p : CLProgram.t) (global_size : list Z)
    (local_size : option (list Z)) (bufs : list pyarg) : native_call :=
  cl_Kernel_call (CLProgram.clprg p) (_CL.cl_queue CL) global_size local_size
    (map CLProgram.resolve bufs).

Definition finish_call (CL : _CL.t) : native_call :=
  cl_CommandQueue_finish (_CL.cl_queue CL).

(** All commands given to the queue so far, in order. *)
Definition submitted (w : World) : list command := completed w ++ pending w.

(** The event of the next command to be enqueued. *)
Definition next_event (w : World) : nat := length (submitted w).

(** Elapsed device time of an event, in nanoseconds. *)
Definition elapsed_ns (N : Native) (e : nat) : Z :=
  snd (profiling N e) - fst (profiling N e).

(** ** Double precision values *)

(** The finite double of sign [s], mantissa [m] and exponent [e] has the
    value [(-1)^s * m * 2^e].  [is_integer f z]: the value of [f] is exactly
    the integer [z]. *)
Definition is_integer (f : float) (z : Z) : Prop :=
  match Prim2SF f with
  | S754_zero _ => z = 0
  | S754_finite s m e =>
      if 0 <=? e then z = cond_Zopp s (Z.pos m * 2 ^ e)
      else z * 2 ^ (- e) = cond_Zopp s (Z.pos m)
  | _ => False
  end.

(** [within_half_ulp f z]: [f] is a normal double with a non-negative
    exponent [e], and the integer [z] is at most [2^e / 2], half a unit in
    the last place of [f], away from its value. *)
Definition within_half_ulp (f : float) (z : Z) : Prop :=
  match Prim2SF f with
  | S754_finite s m e =>
      0 <= e /\ 2 ^ 52 <= Z.pos m < 2 ^ 53
      /\ 2 * Z.abs (z - cond_Zopp s (Z.pos m * 2 ^ e)) <= 2 ^ e
  | _ => False
  end.

(** [f] is the integer [z] converted to double precision as IEEE 754 has
    it (round to nearest, ties to even): the exact value where a double can
    hold every integer, at most half a unit in the last place away beyond. *)
Definition double_of_int (z : Z) (f : float) : Prop :=
  Prim2SF f = binary_normalize prec emax z 0 false
  /\ (Z.abs z < 2 ^ 53 -> is_integer f z)
  /\ (2 ^ 53 <= Z.abs z -> within_half_ulp f z).

(** [f] is the double nearest to the positive rational [num / den]: a
    positive double [m * 2^e], [e < 0], with [m] strictly inside its binade
    (so that both neighbours are [2^e] away), less than [2^e / 2] from
    [num / den]. *)
Definition nearest_double_to_ratio (f : float) (num den : Z) : Prop :=
  match Prim2SF f with
  | S754_finite false m e =>
      e < 0 /\ 2 ^ 52 < Z.pos m < 2 ^ 53 /\ 0 < den
      /\ 2 * Z.abs (Z.pos m * den - num * 2 ^ (- e)) < den
  | _ => False
  end.

(** * Concrete hosts, used to run the definitions *)

Module Host.
Definition gpu0 : Device :=
  {| dev_type := GPU; dev_name := "Apple M1"; dev_max_work_group_size := 256 |}.
Definition gpu1 : Device :=
  {| dev_type := GPU; dev_name := "Adreno 640"; dev_max_work_group_size := 1024 |}.
Definition cpu0 : Device :=
  {| dev_type := CPU; dev_name := "pthread-cpu"; dev_max_work_group_size := 4096 |}.

(** A native library in which every call succeeds unless [raises] says
    otherwise; the timestamps of the n-th command are
    [(1000 n, 1000 n + 300)]; integer types pack integers and float types
    pack floats. *)
Definition make (osx : bool) (debug : Z) (env : gmap string Z) (ps : list Platform)
    (raises : native_call -> World -> option exn) : Native :=
  {| OSX := osx; DEBUG := debug; environ := env; platforms := ps;
     native_raises := raises;
     Device_str := fun d => "<pyopencl.Device " +:+ dev_name d +:+ ">";
     program_binaries := fun prg => [prg];
     decode_utf8 := fun b => Some b;
     pack := fun ty v => match ty, v with
                         | (np_float32 | np_float64), PyFloat _ => Some "f"
                         | (np_float32 | np_float64), PyInt _ => None
                         | _, PyInt _ => Some "i"
                         | _, PyFloat _ => None
                         end;
     profiling := fun n => (1000 * Z.of_nat n, 1000 * Z.of_nat n + 300) |}.

Definition never : native_call -> World -> option exn := fun _ _ => None.

Definition linux : Native :=
  make false 0 ∅ [ {| platform_devices := [cpu0; gpu0; gpu1] |} ] never.
Definition mac : Native :=
  make true 0 ∅ [ {| platform_devices := [cpu0; gpu0] |} ] never.

Definition ctx0 : Context := {| devices := [gpu0] |}.
Definition CL : _CL.t :=
  {| _CL.cl_ctx := ctx0; _CL.cl_queue := {| queue_ctx := ctx0; profiling_enable := true |} |}.
End Host.

Module NoDevice.
(** A host whose only platform exposes no device. *)
Definition host : Native := Host.make false 0 ∅ [ {| platform_devices := [] |} ] Host.never.
End NoDevice.

Module CpuOnly.
Definition host : Native :=
  Host.make false 0 ∅ [ {| platform_devices := [Host.cpu0] |} ] Host.never.
End CpuOnly.

Module Transfers.
Definition imagef : CLBuffer.t :=
  {| CLBuffer.size := 6; CLBuffer.dtype := DType.ImageDType 4 "imagef" [2; 3];
     CLBuffer._buf := 0%nat |}.
Definition floats : CLBuffer.t :=
  {| CLBuffer.size := 4; CLBuffer.dtype := DType.DType 4 "float";
     CLBuffer._buf := 0%nat |}.
End Transfers.

Module BrokenBuild.
Definition source : string := "__kernel void f( {".

Definition diagnostics : cl_error :=
  {| routine := "clBuildProgram"; code := -11;
     msg := "clBuildProgram failed: BUILD_PROGRAM_FAILURE" |}.

Definition raises (c : native_call) (w : World) : option exn :=
  match c with
  | cl_Program_build _ => Some (CLError cl_RuntimeError diagnostics)
  | _ => None
  end.

(** The same host at a given diagnostics level. *)
Definition host (debug : Z) : Native :=
  Host.make false debug ∅ [ {| platform_devices := [Host.gpu0] |} ] raises.
End BrokenBuild.

Module Launch.
Definition source : string := "__kernel void k(__global float *a, int n) { }".
Definition signature : arg_signature := [None; Some np_int32].
Definition a : CLBuffer.t :=
  {| CLBuffer.size := 4; CLBuffer.dtype := DType.DType 4 "float"; CLBuffer._buf := 7%nat |}.
Definition args : list pyarg := [ArgCLBuffer a; ArgOther (PyInt 300)].
Definition program : CLProgram.t :=
  {| CLProgram.name := "k"; CLProgram.argdtypes := Some signature;
     CLProgram.clprogram := 0%nat; CLProgram._clprg := 0%nat; CLProgram.clprg := 1%nat |}.
(** The world [CLProgram.__init__] leaves on the hosts of [Host]. *)
Definition world : World :=
  snd (CLProgram.__init__ Host.linux Host.CL "k" source false (Some signature) empty_world).
End Launch.

(** * Further vocabulary and hosts *)

(** Python accepts the index [i] on a sequence of length [n] when
    [-n <= i < n]. *)
Definition index_in_range (n i : Z) : Prop := - n <= i < n.

Module Indexed.
(** The host of [Host.linux] with CL_DEVICE set. *)
Definition host (i : Z) : Native :=
  Host.make false 0 (<["CL_DEVICE" := i]> ∅)
    [ {| platform_devices := [Host.cpu0; Host.gpu0; Host.gpu1] |} ] Host.never.
End Indexed.

(** The native creation call of a buffer construction, when the
    construction gets as far as making one. *)
Definition creation_call (CL : _CL.t) (size : Z) (dtype : DType.t) : option native_call :=
  match dtype with
  | DType.DType itemsize _ =>
      Some (cl_Buffer (_CL.cl_ctx CL) READ_WRITE (size * itemsize))
  | DType.ImageDType itemsize _ shape =>
      match CLBuffer.channel_types !! itemsize, py_index shape 1, py_index shape 0 with
      | Some ct, Some s1, Some s0 =>
          Some (cl_Image (_CL.cl_ctx CL) READ_WRITE
                  {| fmt_order := RGBA; fmt_type := ct |} (s1, s0))
      | _, _, _ => None
      end
  end.

Module OutOfMemory.
Definition error : cl_error :=
  {| routine := "create_buffer"; code := -4; msg := "MEM_OBJECT_ALLOCATION_FAILURE" |}.

(** A host on which no memory object can be created. *)
Definition raises (c : native_call) (w : World) : option exn :=
  match c with
  | cl_Buffer _ _ _ | cl_Image _ _ _ _ => Some (CLError cl_MemoryError error)
  | _ => None
  end.

Definition host : Native :=
  Host.make false 0 ∅ [ {| platform_devices := [Host.gpu0] |} ] raises.
End OutOfMemory.

Module DeviceLost.
Definition error : cl_error :=
  {| routine := "clFinish"; code := -36; msg := "INVALID_COMMAND_QUEUE" |}.

(** A host on which transfers and waits fail, dispatches do not. *)
Definition raises (c : native_call) (w : World) : option exn :=
  match c with
  | cl_enqueue_copy _ _ _ _ | cl_CommandQueue_finish _ => Some (CLError cl_RuntimeError error)
  | _ => None
  end.

Definition host : Native :=
  Host.make false 0 ∅ [ {| platform_devices := [Host.gpu0] |} ] raises.

(** A host on which dispatches fail. *)
Definition raises_dispatch (c : native_call) (w : World) : option exn :=
  match c with
  | cl_Kernel_call _ _ _ _ _ => Some (CLError cl_LogicError error)
  | _ => None
  end.

Definition host_dispatch : Native :=
  Host.make false 0 ∅ [ {| platform_devices := [Host.gpu0] |} ] raises_dispatch.
End DeviceLost.

(** The world in which the entry point is looked up: the program is built. *)
Definition program_built (CL : _CL.t) (prg : string) (binary : bool) (w : World) : World :=
  snd (set_object (next w) (Program prg binary true)
         (log (cl_Program_build (next w)) (program_created CL prg binary w))).

(** The native calls every successful construction of a program starts with. *)
Definition construction_calls (CL : _CL.t) (name prg : string) (binary : bool) (w : World)
    : list native_call :=
  [cl_Program (_CL.cl_ctx CL) prg binary; cl_Program_build (next w);
   cl_Program_getattr (next w) name].

(** The native call that declares the scalar types, when there are any. *)
Definition signature_calls (argdtypes : option arg_signature) (w : World) : list native_call :=
  match argdtypes with
  | Some tys => [cl_Kernel_set_scalar_arg_dtypes (S (next w)) tys]
  | None => []
  end.

(** The diagnostic dump is on at level 5 and above, except on macOS. *)
Definition dump_enabled (N : Native) : bool := (5 <=? DEBUG N) && negb (OSX N).

Module Dump.
Definition adreno_ctx : Context := {| devices := [Host.gpu1] |}.
Definition adreno : _CL.t :=
  {| _CL.cl_ctx := adreno_ctx;
     _CL.cl_queue := {| queue_ctx := adreno_ctx; profiling_enable := true |} |}.

(** The hosts of [Host] at diagnostics level 5; the second one produces
    binaries that are not valid UTF-8. *)
Definition linux : Native :=
  Host.make false 5 ∅ [ {| platform_devices := [Host.gpu0; Host.gpu1] |} ] Host.never.
Definition mac : Native :=
  Host.make true 5 ∅ [ {| platform_devices := [Host.gpu0] |} ] Host.never.
Definition undecodable : Native :=
  {| OSX := false; DEBUG := 5; environ := ∅;
     platforms := [ {| platform_devices := [Host.gpu0] |} ];
     native_raises := Host.never;
     Device_str := Device_str Host.linux;
     program_binaries := fun prg => ["ELF"];
     decode_utf8 := fun b => None;
     pack := pack Host.linux;
     profiling := profiling Host.linux |}.
End Dump.

Module MissingKernel.
(** A host on which the program defines no kernel of the requested name. *)
Definition raises (c : native_call) (w : World) : option exn :=
  match c with
  | cl_Program_getattr _ name => Some (AttributeError name)
  | _ => None
  end.

Definition host : Native :=
  Host.make false 0 ∅ [ {| platform_devices := [Host.gpu0] |} ] raises.
End MissingKernel.

(** A computation is inert when, whatever its outcome, it leaves the objects
    of the context and the next free handle as they were. *)
Definition inert {A} (m : M A) : Prop :=
  forall w r w', m w = (r, w') -> heap w' = heap w /\ next w' = next w.

(** A computation is framed above [n] when, started with every handle below
    [n] already given out, it leaves the objects at those handles as they
    were and gives out no handle twice, whatever its outcome; [Q] holds of
    the value it returns. *)
Definition framed {A} (n : handle) (m : M A) (Q : A -> Prop) : Prop :=
  forall w r w',
    (n <= next w)%nat -> m w = (r, w') ->
    (next w <= next w')%nat
    /\ (forall h, (h < n)%nat -> heap w' !! h = heap w !! h)
    /\ (forall a, r = Ok a -> Q a).

Module NoPlatform.
Definition error : cl_error :=
  {| routine := "clGetPlatformIDs"; code := -1001; msg := "PLATFORM_NOT_FOUND_KHR" |}.

(** A host without any OpenCL platform installed. *)
Definition raises (c : native_call) (w : World) : option exn :=
  match c with
  | cl_get_platforms => Some (CLError cl_LogicError error)
  | _ => None
  end.

Definition host : Native := Host.make false 1 ∅ [] raises.
End NoPlatform.

(** * Properties *)

(** ** Running the monad *)

Section Run.
Context {A B : Type}.

Lemma bind_Ok (m : M A) (k : A -> M B) w a w' :
    m w = (Ok a, w') -> bind m k w = k a w'.
  Proof. intros Hm. unfold bind. now rewrite Hm. Qed.

Lemma bind_Raise (m : M A) (k : A -> M B) w e w' :
    m w = (Raise e, w') -> bind m k w = (Raise e, w').
  Proof. intros Hm. unfold bind. now rewrite Hm. Qed.

  (** A sequence that returns went through its first part returning. *)
Lemma bind_Ok_inv (m : M A) (k : A -> M B) w b w'' :
    bind m k w = (Ok b, w'') ->
    exists a w', m w = (Ok a, w') /\ k a w' = (Ok b, w'').
  Proof.
    unfold bind. destruct (m w) as [[a|e] w'] eqn:Hm; intros H.
    - now exists a, w'.
    - discriminate.
  Qed.

Lemma native_succeeds N c (effect : M A) w :
    native_raises N c w = None -> native N c effect w = effect (log c w).
  Proof. intros H. unfold native. now rewrite H. Qed.

Lemma native_fails N c (effect : M A) w e :
    native_raises N c w = Some e -> native N c effect w = (Raise e, log c w).
  Proof. intros H. unfold native. now rewrite H. Qed.

Lemma native_Ok_inv N c (effect : M A) w a w' :
    native N c effect w = (Ok a, w') ->
    native_raises N c w = None /\ effect (log c w) = (Ok a, w').
  Proof.
    unfold native. destruct (native_raises N c w); [discriminate | auto].
  Qed.

Lemma of_option_Ok_inv (o : option A) e w a w' :
    of_option o e w = (Ok a, w') -> o = Some a /\ w' = w.
  Proof.
    destruct o; cbn; intros H; inversion H; auto.
  Qed.
End Run.

Lemma bind_of_option_Some {A B} (o : option A) e (k : A -> M B) w a :
  o = Some a -> bind (of_option o e) k w = k a w.
Proof. intros ->. reflexivity. Qed.

Lemma bind_of_option_None {A B} (o : option A) e (k : A -> M B) w :
  o = None -> bind (of_option o e) k w = (Raise e, w).
Proof. intros ->. reflexivity. Qed.

Lemma bind_native_succeeds {A B} N c (effect : M A) (k : A -> M B) w :
  native_raises N c w = None ->
  bind (native N c effect) k w = bind effect k (log c w).
Proof. intros H. unfold bind. now rewrite native_succeeds. Qed.

Lemma bind_native_fails {A B} N c (effect : M A) (k : A -> M B) w e :
  native_raises N c w = Some e ->
  bind (native N c effect) k w = (Raise e, log c w).
Proof. intros H. apply bind_Raise. now apply native_fails. Qed.

Lemma py_index_2d_0 (rows cols : Z) : py_index [rows; cols] 0 = Some rows.
Proof. reflexivity. Qed.

Lemma py_index_2d_1 (rows cols : Z) : py_index [rows; cols] 1 = Some cols.
Proof. reflexivity. Qed.

Lemma py_assert_Ok_inv c m w u w' :
  py_assert c m w = (Ok u, w') -> c = true /\ w' = w.
Proof.
  destruct c; cbn; intros H; inversion H; auto.
Qed.

(** ** The Python helpers on small inputs *)

Example startswith_imagef : startswith "imagef" "image" = true.
Proof. reflexivity. Qed.

Example startswith_float : startswith "float" "image" = false.
Proof. reflexivity. Qed.

Example startswith_short : startswith "ima" "image" = false.
Proof. reflexivity. Qed.

Example str_contains_adreno : str_contains "Adreno" "QUALCOMM Adreno(TM)" = true.
Proof. reflexivity. Qed.

Example py_index_last : py_index [10; 20; 30] (-1) = Some 30.
Proof. reflexivity. Qed.

Example py_index_out_of_range : py_index [10; 20; 30] 3 = None /\ py_index [10; 20; 30] (-4) = None.
Proof. split; reflexivity. Qed.

Example prod_image_shape : prod [2; 3; 4] = 24.
Proof. reflexivity. Qed.

Example float_of_int_exact : float_of_int 300 = Some 300%float.
Proof. reflexivity. Qed.

Example float_of_int_rounds : float_of_int (2 ^ 64 - 1) = Some 18446744073709551616%float.
Proof. vm_compute. reflexivity. Qed.

Example float_of_int_overflows : float_of_int (2 ^ 1024) = None.
Proof. vm_compute. reflexivity. Qed.

Example timing_ratio_mac : OSX_TIMING_RATIO Host.mac = 0x1.4d55555555555p+5%float.
Proof. reflexivity. Qed.

(** ** The device context *)

Lemma logged_nil w : logged [] w = w.
Proof. destruct w. unfold logged. cbn. now rewrite app_nil_r. Qed.

Lemma logged_log c cs w : logged cs (log c w) = logged (c :: cs) w.
Proof. unfold logged, log. cbn. now rewrite <- app_assoc. Qed.


Section Enumeration.
Context (N : Native) (ty : device_type).



(** When every platform answers, the result is what the platforms hold. *)
Lemma visit_platforms_Ok ps : forall w ds w',
  mapM (fun x => _CL.get_devices N x ty) ps w = (Ok ds, w') ->
  ds = map (fun x => List.filter (fun d => bool_decide (dev_type d = ty))
                       (platform_devices x)) ps /\ w' = logged (map (fun x => cl_get_devices x ty) ps) w.
Proof.
  induction ps as [|x ps IH]; intros w ds w' Hrun; cbn in Hrun.
  - inversion Hrun; subst. split; [reflexivity | now rewrite logged_nil].
  - apply bind_Ok_inv in Hrun as (d & w1 & Hd & Hrun).
    apply native_Ok_inv in Hd as [_ Hd]. inversion Hd; subst d w1; clear Hd.
    apply bind_Ok_inv in Hrun as (ds' & w1 & Hrest & Hret).
    inversion Hret; subst ds w'; clear Hret.
    destruct (IH _ _ _ Hrest) as [-> ->].
    split; [reflexivity | apply logged_log].
Qed.


Lemma all_devices_Ok w ds w' :
  _CL.all_devices N ty w = (Ok ds, w') ->
  ds = devices_of N ty /\ w' = logged (enumeration N ty) w.
Proof.
  unfold _CL.all_devices, _CL.get_platforms. intros Hrun.
  apply bind_Ok_inv in Hrun as (ps & w1 & Hps & Hrun).
  apply native_Ok_inv in Hps as [_ Hps]. inversion Hps; subst ps w1; clear Hps.
  apply bind_Ok_inv in Hrun as (dss & w1 & Hvisit & Hret).
  inversion Hret; subst ds w'; clear Hret.
  destruct (visit_platforms_Ok _ _ _ _ Hvisit) as [-> ->].
  split; [reflexivity | apply logged_log].
Qed.
End Enumeration.

Lemma CL_init_unfold N :
  _CL.__init__ N =
    (devices <- _CL.all_devices N GPU ;;
     devices <- (if (length devices =? 0)%nat then _CL.all_devices N CPU else ret devices) ;;
     select_device N devices).
Proof. reflexivity. Qed.




Section Reliable.
Context (N : Native) (Hreliable : forall c w, native_raises N c w = None).

(** With a native library that never fails, an enumeration returns the
    devices of the platforms. *)
Lemma visit_platforms_returns ty ps : forall w,
  mapM (fun x => _CL.get_devices N x ty) ps w
    = (Ok (map (fun x => List.filter (fun d => bool_decide (dev_type d = ty))
                           (platform_devices x)) ps),
       logged (map (fun x => cl_get_devices x ty) ps) w).
Proof.
  induction ps as [|x ps IH]; intros w; cbn [mapM map].
  - now rewrite logged_nil.
  - unfold _CL.get_devices at 1.
    rewrite bind_native_succeeds by apply Hreliable.
    erewrite bind_Ok by reflexivity.
    erewrite bind_Ok by apply IH.
    unfold ret. now rewrite logged_log.
Qed.

Lemma all_devices_returns ty w :
  _CL.all_devices N ty w = (Ok (devices_of N ty), logged (enumeration N ty) w).
Proof.
  unfold _CL.all_devices, _CL.get_platforms.
  rewrite bind_native_succeeds by apply Hreliable.
  erewrite bind_Ok by reflexivity.
  erewrite bind_Ok by apply visit_platforms_returns.
  unfold ret, devices_of, enumeration. now rewrite logged_log.
Qed.

Lemma select_device_returns ds w :
  match py_index ds (getenv N "CL_DEVICE" 0) with
  | Some d =>
      exists w',
        select_device N ds w
          = (Ok {| _CL.cl_ctx := {| devices := [d] |};
                   _CL.cl_queue := {| queue_ctx := {| devices := [d] |};
                                      profiling_enable := true |} |}, w')
  | None => select_device N ds w = (Raise IndexError, w)
  end.
Proof.
  unfold select_device.
  destruct (py_index ds (getenv N "CL_DEVICE" 0)) as [d|] eqn:Hd.
  - destruct ((1 <? Z.of_nat (length ds)) || (1 <=? DEBUG N)); eexists;
      (erewrite bind_Ok by reflexivity);
      cbn [of_option]; (erewrite bind_Ok by reflexivity);
      (rewrite bind_native_succeeds by apply Hreliable);
      (erewrite bind_Ok by reflexivity);
      (rewrite bind_native_succeeds by apply Hreliable);
      (erewrite bind_Ok by reflexivity); reflexivity.
  - destruct ((1 <? Z.of_nat (length ds)) || (1 <=? DEBUG N)).
    + apply bind_Raise. reflexivity.
    + erewrite bind_Ok by reflexivity. reflexivity.
Qed.

Lemma CL_init_returns w :
  match py_index (candidates N) (getenv N "CL_DEVICE" 0) with
  | Some d =>
      exists w',
        _CL.__init__ N w
          = (Ok {| _CL.cl_ctx := {| devices := [d] |};
                   _CL.cl_queue := {| queue_ctx := {| devices := [d] |};
                                      profiling_enable := true |} |}, w')
  | None => exists w', _CL.__init__ N w = (Raise IndexError, w')
  end.
Proof.
  assert (Hcand : exists w1,
            (devices <- _CL.all_devices N GPU ;;
             (if (length devices =? 0)%nat then _CL.all_devices N CPU else ret devices)) w
            = (Ok (candidates N), w1)).
  { erewrite bind_Ok by apply all_devices_returns.
    unfold candidates. destruct (devices_of N GPU) as [|g gs]; cbn [length Nat.eqb].
    - eexists. apply all_devices_returns.
    - eexists. reflexivity. }
  destruct Hcand as [w1 Hcand].
  pose proof (select_device_returns (candidates N) w1) as Hsel.
  assert (Hrun : _CL.__init__ N w = select_device N (candidates N) w1).
  { rewrite CL_init_unfold. unfold bind in Hcand |- *.
    destruct (_CL.all_devices N GPU w) as [[gpus|e] w0]; [| discriminate].
    destruct ((if (length gpus =? 0)%nat then _CL.all_devices N CPU else ret gpus) w0)
      as [[ds|e] w2]; inversion Hcand; subst. reflexivity. }
  rewrite Hrun.
  destruct (py_index (candidates N) (getenv N "CL_DEVICE" 0)) as [d|].
  - exact Hsel.
  - eexists. exact Hsel.
Qed.
End Reliable.





(** ** The channel-type table *)

Lemma channel_types_lookup k :
  CLBuffer.channel_types !! k =
    if decide (k = 2) then Some HALF_FLOAT
    else if decide (k = 4) then Some FLOAT
    else None.
Proof.
  unfold CLBuffer.channel_types.
  destruct (decide (k = 2)) as [->|H2].
  - apply lookup_insert_eq.
  - rewrite lookup_insert_ne by congruence.
    destruct (decide (k = 4)) as [->|H4].
    + apply lookup_insert_eq.
    + rewrite lookup_insert_ne by congruence. apply lookup_empty.
Qed.

Lemma channel_types_Some k ct :
  CLBuffer.channel_types !! k = Some ct ->
  k = 2 /\ ct = HALF_FLOAT \/ k = 4 /\ ct = FLOAT.
Proof.
  rewrite channel_types_lookup.
  repeat case_decide; intros Heq; inversion Heq; auto.
Qed.

(** C9: an image element type whose channel byte width is neither 2 nor 4
    makes the construction raise the failed lookup (KeyError) of the
    channel type; the world is left as it was, so no native call was made
    and no image object exists; the table is defined exactly on 2 and 4. *)
Theorem image_width_lookup_fails N CL size itemsize name shape w :
  itemsize <> 2 -> itemsize <> 4 ->
  CLBuffer.__init__ N CL size (DType.ImageDType itemsize name shape) w
    = (Raise (KeyError itemsize), w)
  /\ (forall k, is_Some (CLBuffer.channel_types !! k) <-> k = 2 \/ k = 4).
Proof.
  intros H2 H4. split.
  - unfold CLBuffer.__init__.
    apply bind_Raise. apply bind_Raise.
    rewrite channel_types_lookup.
    rewrite decide_False by assumption. rewrite decide_False by assumption.
    reflexivity.
  - intros k. rewrite channel_types_lookup. split.
    + intros [ct Hct]. repeat case_decide; auto. discriminate.
    + intros [-> | ->]; cbn; eauto.
Qed.

Lemma image_width_lookup_fails_witness :
  CLBuffer.__init__ Host.linux Host.CL 6 (DType.ImageDType 3 "imagef" [2; 3]) empty_world
    = (Raise (KeyError 3), empty_world)
  /\ (forall k, is_Some (CLBuffer.channel_types !! k) <-> k = 2 \/ k = 4).
Proof.
  apply (image_width_lookup_fails Host.linux Host.CL 6 3 "imagef" [2; 3] empty_world); lia.
Defined.

(** ** Allocation *)

Lemma prod_2d rows cols : prod [rows; cols] = rows * cols.
Proof. unfold prod. cbn. lia. Qed.

(** C1, as the code has it: with an image element type of 2D shape and
    channel byte width 2 or 4 and [size <> rows * cols], construction always
    raises and returns no buffer, but the image of shape (cols, rows) is
    requested from the device first: if that native call fails its error is
    raised, otherwise the image object is in the context when the size check
    raises the assertion error. *)
Theorem image_size_checked_after_creation N CL size itemsize name rows cols ct w :
  (itemsize = 2 /\ ct = HALF_FLOAT \/ itemsize = 4 /\ ct = FLOAT) ->
  size <> rows * cols ->
  let fmt := {| fmt_order := RGBA; fmt_type := ct |} in
  let call := cl_Image (_CL.cl_ctx CL) READ_WRITE fmt (cols, rows) in
  exists e w',
    CLBuffer.__init__ N CL size (DType.ImageDType itemsize name [rows; cols]) w = (Raise e, w')
    /\ trace w' = trace w ++ [call]
    /\ (native_raises N call w = None ->
          e = AssertionError (image_size_mismatch size [rows; cols])
          /\ heap w' = <[next w := Image READ_WRITE fmt (cols, rows)]> (heap w))
    /\ (forall err, native_raises N call w = Some err -> e = err /\ heap w' = heap w).
Proof.
  intros Hct Hsize fmt call.
  assert (Hlook : CLBuffer.channel_types !! itemsize = Some ct).
  { rewrite channel_types_lookup. destruct Hct as [[-> ->] | [-> ->]]; reflexivity. }
  assert (Hneq : (size =? prod [rows; cols]) = false).
  { rewrite prod_2d. now apply Z.eqb_neq. }
  unfold CLBuffer.__init__.
  destruct (native_raises N call w) as [err|] eqn:Hnat.
  - exists err, (log call w). split; [| split; [reflexivity | split]].
    + apply bind_Raise.
      rewrite (bind_of_option_Some _ _ _ _ _ Hlook).
      rewrite (bind_of_option_Some _ _ _ _ _ (py_index_2d_1 rows cols)).
      rewrite (bind_of_option_Some _ _ _ _ _ (py_index_2d_0 rows cols)).
      now apply bind_native_fails.
    + discriminate.
    + intros err' Herr. inversion Herr. now subst.
  - exists (AssertionError (image_size_mismatch size [rows; cols])),
      (snd (alloc (Image READ_WRITE fmt (cols, rows)) (log call w))).
    split; [| split; [reflexivity | split]].
    + apply bind_Raise.
      rewrite (bind_of_option_Some _ _ _ _ _ Hlook).
      rewrite (bind_of_option_Some _ _ _ _ _ (py_index_2d_1 rows cols)).
      rewrite (bind_of_option_Some _ _ _ _ _ (py_index_2d_0 rows cols)).
      rewrite bind_native_succeeds by exact Hnat.
      erewrite bind_Ok by reflexivity.
      apply bind_Raise. now rewrite Hneq.
    + intros _. split; reflexivity.
    + discriminate.
Qed.

Lemma image_size_checked_after_creation_witness :
  exists e w',
    CLBuffer.__init__ Host.linux Host.CL 5 (DType.ImageDType 4 "imagef" [2; 3]) empty_world
      = (Raise e, w')
    /\ e = AssertionError (image_size_mismatch 5 [2; 3])
    /\ heap w' = <[0%nat := Image READ_WRITE {| fmt_order := RGBA; fmt_type := FLOAT |} (3, 2)]> ∅.
Proof.
  destruct (image_size_checked_after_creation Host.linux Host.CL 5 4 "imagef" 2 3 FLOAT
              empty_world) as (e & w' & Hrun & _ & Hok & _).
  - right. split; reflexivity.
  - lia.
  - exists e, w'. destruct (Hok eq_refl) as [He Hheap]. auto.
Defined.

(** C1, against the claim as stated: at size 5 for a 2 x 3 image the
    assertion error is raised, yet the image object has already been created
    in the context (the heap is no longer the initial one) and the native
    image-creation call is in the trace. *)
Lemma image_created_before_size_check :
  5 <> 2 * 3 /\
  CLBuffer.__init__ Host.linux Host.CL 5 (DType.ImageDType 4 "imagef" [2; 3]) empty_world
    = (Raise (AssertionError (image_size_mismatch 5 [2; 3])),
       {| heap := <[0%nat := Image READ_WRITE {| fmt_order := RGBA; fmt_type := FLOAT |} (3, 2)]> ∅;
          next := 1%nat; pending := []; completed := []; stdout := [];
          trace := [cl_Image Host.ctx0 READ_WRITE {| fmt_order := RGBA; fmt_type := FLOAT |} (3, 2)] |})
  /\ (<[0%nat := Image READ_WRITE {| fmt_order := RGBA; fmt_type := FLOAT |} (3, 2)]> ∅
        : gmap handle cl_object) <> ∅.
Proof.
  split; [lia | split].
  - vm_compute. reflexivity.
  - intros Heq. apply (f_equal (fun m => m !! 0%nat)) in Heq.
    rewrite lookup_insert_eq, lookup_empty in Heq. discriminate.
Qed.

Lemma linear_allocation_returns N CL size itemsize name w :
  native_raises N (cl_Buffer (_CL.cl_ctx CL) READ_WRITE (size * itemsize)) w = None ->
  exists w',
    CLBuffer.__init__ N CL size (DType.DType itemsize name) w
      = (Ok {| CLBuffer.size := size; CLBuffer.dtype := DType.DType itemsize name;
               CLBuffer._buf := next w |}, w').
Proof.
  intros Hnat. unfold CLBuffer.__init__, CLBuffer.RawBuffer_init.
  rewrite bind_native_succeeds by exact Hnat.
  erewrite bind_Ok by reflexivity. eexists. reflexivity.
Qed.

Lemma image_allocation_returns N CL size itemsize name rows cols ct w :
  (itemsize = 2 /\ ct = HALF_FLOAT \/ itemsize = 4 /\ ct = FLOAT) ->
  size = rows * cols ->
  native_raises N (cl_Image (_CL.cl_ctx CL) READ_WRITE
                     {| fmt_order := RGBA; fmt_type := ct |} (cols, rows)) w = None ->
  exists w',
    CLBuffer.__init__ N CL size (DType.ImageDType itemsize name [rows; cols]) w
      = (Ok {| CLBuffer.size := size;
               CLBuffer.dtype := DType.ImageDType itemsize name [rows; cols];
               CLBuffer._buf := next w |}, w').
Proof.
  intros Hct Hsize Hnat.
  assert (Hlook : CLBuffer.channel_types !! itemsize = Some ct).
  { rewrite channel_types_lookup. destruct Hct as [[-> ->] | [-> ->]]; reflexivity. }
  assert (Heq : (size =? prod [rows; cols]) = true).
  { rewrite prod_2d. now apply Z.eqb_eq. }
  unfold CLBuffer.__init__, CLBuffer.RawBuffer_init.
  eexists. erewrite bind_Ok; [reflexivity |].
  rewrite (bind_of_option_Some _ _ _ _ _ Hlook).
  rewrite (bind_of_option_Some _ _ _ _ _ (py_index_2d_1 rows cols)).
  rewrite (bind_of_option_Some _ _ _ _ _ (py_index_2d_0 rows cols)).
  rewrite bind_native_succeeds by exact Hnat.
  erewrite bind_Ok by reflexivity.
  rewrite Heq. reflexivity.
Qed.

(** C6: whenever an allocation returns a buffer, its backing store is the
    one object the call added to the context: for an image element type an
    RGBA image of shape (cols, rows) = (shape[1], shape[0]) with half-float
    channels at width 2 and float channels at width 4; for any other element
    type a linear read/write buffer of exactly [size * itemsize] bytes.  And
    the allocation does return when the native creation succeeds (for an
    image: of width 2 or 4, with [size = rows * cols]). *)
Theorem allocation_backing_store N CL size dtype w :
  (forall b w',
     CLBuffer.__init__ N CL size dtype w = (Ok b, w') ->
     CLBuffer.size b = size /\ CLBuffer.dtype b = dtype /\
     exists o,
       heap w' = <[CLBuffer._buf b := o]> (heap w) /\
       heap w' !! CLBuffer._buf b = Some o /\
       match dtype with
       | DType.ImageDType itemsize _ shape =>
           exists rows cols ct,
             py_index shape 0 = Some rows /\ py_index shape 1 = Some cols /\
             (itemsize = 2 /\ ct = HALF_FLOAT \/ itemsize = 4 /\ ct = FLOAT) /\
             o = Image READ_WRITE {| fmt_order := RGBA; fmt_type := ct |} (cols, rows)
       | DType.DType itemsize _ =>
           o = Buffer READ_WRITE (size * itemsize)
       end)
  /\ match dtype with
     | DType.ImageDType itemsize _ shape =>
         forall rows cols ct,
           shape = [rows; cols] ->
           (itemsize = 2 /\ ct = HALF_FLOAT \/ itemsize = 4 /\ ct = FLOAT) ->
           size = rows * cols ->
           native_raises N (cl_Image (_CL.cl_ctx CL) READ_WRITE
                              {| fmt_order := RGBA; fmt_type := ct |} (cols, rows)) w = None ->
           exists b w', CLBuffer.__init__ N CL size dtype w = (Ok b, w')
     | DType.DType itemsize _ =>
         native_raises N (cl_Buffer (_CL.cl_ctx CL) READ_WRITE (size * itemsize)) w = None ->
         exists b w', CLBuffer.__init__ N CL size dtype w = (Ok b, w')
     end.
Proof.
  split.
  - unfold CLBuffer.__init__, CLBuffer.RawBuffer_init. intros b w' Hrun.
    apply bind_Ok_inv in Hrun as (buf & w1 & Hbuf & Hret).
    inversion Hret; subst b w1; clear Hret. cbn.
    split; [reflexivity | split; [reflexivity |]].
    destruct dtype as [itemsize name | itemsize name shape].
    + apply native_Ok_inv in Hbuf as [_ Halloc].
      inversion Halloc; subst. cbn.
      eexists. split; [reflexivity | split; [apply lookup_insert_eq | reflexivity]].
    + apply bind_Ok_inv in Hbuf as (ct & w1 & Hct & Hbuf).
      apply of_option_Ok_inv in Hct as [Hct ->].
      apply bind_Ok_inv in Hbuf as (s1 & w1 & Hs1 & Hbuf).
      apply of_option_Ok_inv in Hs1 as [Hs1 ->].
      apply bind_Ok_inv in Hbuf as (s0 & w1 & Hs0 & Hbuf).
      apply of_option_Ok_inv in Hs0 as [Hs0 ->].
      apply bind_Ok_inv in Hbuf as (h & w1 & Himg & Hbuf).
      apply native_Ok_inv in Himg as [_ Halloc].
      apply bind_Ok_inv in Hbuf as (u & w2 & Hassert & Hret).
      apply py_assert_Ok_inv in Hassert as [_ ->].
      inversion Hret; subst buf w1; clear Hret.
      inversion Halloc; subst. cbn.
      eexists. split; [reflexivity | split; [apply lookup_insert_eq |]].
      exists s0, s1, ct. repeat split; try assumption.
      now apply channel_types_Some.
  - destruct dtype as [itemsize name | itemsize name shape].
    + intros Hnat.
      destruct (linear_allocation_returns N CL size itemsize name w Hnat) as [w' Hrun].
      eauto.
    + intros rows cols ct -> Hct Hsize Hnat.
      destruct (image_allocation_returns N CL size itemsize name rows cols ct w
                  Hct Hsize Hnat) as [w' Hrun].
      eauto.
Qed.

Lemma allocation_backing_store_witness :
  (exists b w',
     CLBuffer.__init__ Host.linux Host.CL 6 (DType.ImageDType 2 "imageh" [2; 3]) empty_world
       = (Ok b, w')
     /\ heap w' !! CLBuffer._buf b
          = Some (Image READ_WRITE {| fmt_order := RGBA; fmt_type := HALF_FLOAT |} (3, 2)))
  /\ (exists b w',
     CLBuffer.__init__ Host.linux Host.CL 1024 (DType.DType 4 "float") empty_world
       = (Ok b, w')
     /\ heap w' !! CLBuffer._buf b = Some (Buffer READ_WRITE 4096)).
Proof.
  split.
  - destruct (allocation_backing_store Host.linux Host.CL 6
                (DType.ImageDType 2 "imageh" [2; 3]) empty_world) as [Hstore Hreturns].
    destruct (Hreturns 2 3 HALF_FLOAT eq_refl (or_introl (conj eq_refl eq_refl))
                eq_refl eq_refl) as (b & w' & Hrun).
    destruct (Hstore b w' Hrun)
      as (_ & _ & o & _ & Hlook & rows & cols & ct & Hrows & Hcols & Hct & ->).
    exists b, w'. split; [exact Hrun |].
    rewrite Hlook. vm_compute in Hrows, Hcols. inversion Hrows; inversion Hcols; subst.
    destruct Hct as [[_ ->] | [Hfour _]]; [reflexivity | discriminate Hfour].
  - destruct (allocation_backing_store Host.linux Host.CL 1024
                (DType.DType 4 "float") empty_world) as [Hstore Hreturns].
    destruct (Hreturns eq_refl) as (b & w' & Hrun).
    destruct (Hstore b w' Hrun) as (_ & _ & o & _ & Hlook & ->).
    exists b, w'. split; [exact Hrun | exact Hlook].
Defined.

(** ** Host transfers *)

Lemma copyin_rejected N CL b x w :
  name_is_image b = true ->
  CLBuffer._copyin N CL b x w
    = (Raise (AssertionError (cant_copyin_images (CLBuffer.dtype b))), w).
Proof.
  unfold name_is_image, CLBuffer._copyin. intros Hname.
  apply bind_Raise. now rewrite Hname.
Qed.

Lemma copyout_rejected N CL b x w :
  name_is_image b = true ->
  CLBuffer._copyout N CL b x w
    = (Raise (AssertionError (cant_copyout_images (CLBuffer.dtype b))), w).
Proof.
  unfold name_is_image, CLBuffer._copyout. intros Hname.
  apply bind_Raise. now rewrite Hname.
Qed.

Lemma copyin_enqueued N CL b x w :
  name_is_image b = false ->
  native_raises N (copyin_call CL b x) w = None ->
  exists w',
    CLBuffer._copyin N CL b x w = (Ok tt, w')
    /\ pending w' = pending w ++ [Copy (DeviceMem (CLBuffer._buf b)) (HostArray x) false]
    /\ completed w' = completed w
    /\ trace w' = trace w ++ [copyin_call CL b x].
Proof.
  unfold name_is_image, CLBuffer._copyin, copyin_call. intros Hname Hnat.
  eexists. split.
  - rewrite Hname. cbn [negb py_assert].
    erewrite bind_Ok by reflexivity.
    rewrite native_succeeds by exact Hnat. reflexivity.
  - repeat split.
Qed.

Lemma copyout_enqueued N CL b x w :
  name_is_image b = false ->
  native_raises N (copyout_call CL b x) w = None ->
  exists w',
    CLBuffer._copyout N CL b x w = (Ok tt, w')
    /\ pending w' = []
    /\ completed w'
         = completed w ++ pending w ++ [Copy (HostArray x) (DeviceMem (CLBuffer._buf b)) true]
    /\ trace w' = trace w ++ [copyout_call CL b x].
Proof.
  unfold name_is_image, CLBuffer._copyout, copyout_call. intros Hname Hnat.
  eexists. split.
  - rewrite Hname. cbn [negb py_assert].
    erewrite bind_Ok by reflexivity.
    rewrite native_succeeds by exact Hnat. reflexivity.
  - repeat split.
Qed.

Lemma copyin_trace N CL b x w :
  name_is_image b = false ->
  trace (snd (CLBuffer._copyin N CL b x w)) = trace w ++ [copyin_call CL b x].
Proof.
  unfold name_is_image, CLBuffer._copyin, copyin_call. intros Hname.
  rewrite Hname. cbn [negb py_assert].
  erewrite bind_Ok by reflexivity.
  unfold native. destruct (native_raises N _ w); reflexivity.
Qed.

Lemma copyout_trace N CL b x w :
  name_is_image b = false ->
  trace (snd (CLBuffer._copyout N CL b x w)) = trace w ++ [copyout_call CL b x].
Proof.
  unfold name_is_image, CLBuffer._copyout, copyout_call. intros Hname.
  rewrite Hname. cbn [negb py_assert].
  erewrite bind_Ok by reflexivity.
  unfold native. destruct (native_raises N _ w); reflexivity.
Qed.

Lemma trace_grows (w' w : World) c : trace w' = trace w ++ [c] -> w' <> w.
Proof.
  intros Htr ->. apply (f_equal length) in Htr.
  rewrite length_app in Htr. cbn in Htr. lia.
Qed.

(** C3, as the code has it: the guard of both transfers is the name of the
    element type.  When it starts with "image", copyIn and copyOut raise the
    assertion error whatever the host array holds and leave the world as it
    was (nothing requested, nothing enqueued); when it does not, the
    transfer is requested from the queue and, the native call succeeding,
    enqueued: non-blocking for copyIn, blocking for copyOut. *)
Theorem transfers_guarded_by_dtype_name N CL b w :
  (name_is_image b = true ->
     forall x,
       CLBuffer._copyin N CL b x w
         = (Raise (AssertionError (cant_copyin_images (CLBuffer.dtype b))), w)
       /\ CLBuffer._copyout N CL b x w
         = (Raise (AssertionError (cant_copyout_images (CLBuffer.dtype b))), w))
  /\ (name_is_image b = false ->
     forall x,
       (native_raises N (copyin_call CL b x) w = None ->
          exists w',
            CLBuffer._copyin N CL b x w = (Ok tt, w')
            /\ pending w'
                 = pending w ++ [Copy (DeviceMem (CLBuffer._buf b)) (HostArray x) false]
            /\ completed w' = completed w)
       /\ (native_raises N (copyout_call CL b x) w = None ->
          exists w',
            CLBuffer._copyout N CL b x w = (Ok tt, w')
            /\ pending w' = []
            /\ completed w'
                 = completed w ++ pending w
                     ++ [Copy (HostArray x) (DeviceMem (CLBuffer._buf b)) true])).
Proof.
  split.
  - intros Hname x. split; [now apply copyin_rejected | now apply copyout_rejected].
  - intros Hname x. split; intros Hnat.
    + destruct (copyin_enqueued N CL b x w Hname Hnat) as (w' & H1 & H2 & H3 & _).
      now exists w'.
    + destruct (copyout_enqueued N CL b x w Hname Hnat) as (w' & H1 & H2 & H3 & _).
      now exists w'.
Qed.

Lemma transfers_guarded_by_dtype_name_witness :
  (forall x,
     fst (CLBuffer._copyin Host.linux Host.CL Transfers.imagef x empty_world)
       = Raise (AssertionError (cant_copyin_images (DType.ImageDType 4 "imagef" [2; 3]))))
  /\ (exists w',
        CLBuffer._copyin Host.linux Host.CL Transfers.floats [1; 2; 3; 4] empty_world
          = (Ok tt, w')
        /\ pending w' = [Copy (DeviceMem 0%nat) (HostArray [1; 2; 3; 4]) false]).
Proof.
  split.
  - intros x.
    destruct (transfers_guarded_by_dtype_name Host.linux Host.CL Transfers.imagef empty_world)
      as [Himg _].
    destruct (Himg eq_refl x) as [-> _]. reflexivity.
  - destruct (transfers_guarded_by_dtype_name Host.linux Host.CL Transfers.floats empty_world)
      as [_ Hlin].
    destruct (Hlin eq_refl [1; 2; 3; 4]) as [Hin _].
    destruct (Hin eq_refl) as (w' & Hrun & Hpend & _).
    exists w'. split; [exact Hrun | exact Hpend].
Defined.

(** C3, against the claim as stated: a buffer allocated for the plain
    element type named "image_like" is a linear buffer, not an image, yet
    copyIn and copyOut on it are rejected and nothing is enqueued. *)
Lemma transfer_guard_differs_from_backing :
  exists b w1,
    CLBuffer.__init__ Host.linux Host.CL 6 (DType.DType 4 "image_like") empty_world
      = (Ok b, w1)
    /\ heap w1 !! CLBuffer._buf b = Some (Buffer READ_WRITE 24)
    /\ image_backed b w1 = false
    /\ CLBuffer._copyin Host.linux Host.CL b [1; 2] w1
         = (Raise (AssertionError (cant_copyin_images (DType.DType 4 "image_like"))), w1)
    /\ CLBuffer._copyout Host.linux Host.CL b [0; 0] w1
         = (Raise (AssertionError (cant_copyout_images (DType.DType 4 "image_like"))), w1).
Proof.
  eexists. eexists. split; [vm_compute; reflexivity |].
  repeat split; vm_compute; reflexivity.
Qed.

(** The other way round, the guard lets an image-backed buffer through when
    the name of its element type does not start with "image": the transfer
    is requested from the queue. *)
Lemma image_backed_transfer_requested :
  exists b w1,
    CLBuffer.__init__ Host.linux Host.CL 6 (DType.ImageDType 4 "rgba32f" [2; 3]) empty_world
      = (Ok b, w1)
    /\ image_backed b w1 = true
    /\ trace (snd (CLBuffer._copyin Host.linux Host.CL b [1; 2] w1))
         = trace w1 ++ [copyin_call Host.CL b [1; 2]].
Proof.
  eexists. eexists. split; [vm_compute; reflexivity |].
  split; [vm_compute; reflexivity |].
  now apply copyin_trace.
Qed.

(** C10: the transfers are rejected exactly when the name of the element
    type starts with "image", whatever the type test of the allocation says;
    so for an element type that is not an image dtype but has such a name
    the allocation is a linear buffer and every copyIn and copyOut on it is
    rejected. *)
Theorem copy_guard_is_name_prefix N CL :
  (forall b x w,
     (name_is_image b = true <->
        CLBuffer._copyin N CL b x w
          = (Raise (AssertionError (cant_copyin_images (CLBuffer.dtype b))), w))
     /\ (name_is_image b = true <->
        CLBuffer._copyout N CL b x w
          = (Raise (AssertionError (cant_copyout_images (CLBuffer.dtype b))), w)))
  /\ (forall size d w,
     DType.is_ImageDType d = false ->
     startswith (DType.name d) "image" = true ->
     native_raises N (cl_Buffer (_CL.cl_ctx CL) READ_WRITE (size * DType.itemsize d)) w
       = None ->
     exists b w1,
       CLBuffer.__init__ N CL size d w = (Ok b, w1)
       /\ heap w1 !! CLBuffer._buf b = Some (Buffer READ_WRITE (size * DType.itemsize d))
       /\ image_backed b w1 = false
       /\ forall x w2,
            CLBuffer._copyin N CL b x w2
              = (Raise (AssertionError (cant_copyin_images d)), w2)
            /\ CLBuffer._copyout N CL b x w2
              = (Raise (AssertionError (cant_copyout_images d)), w2)).
Proof.
  split.
  - intros b x w. split; (split; [intros Hname | intros Hrun]).
    + now apply copyin_rejected.
    + destruct (name_is_image b) eqn:Hname; [reflexivity | exfalso].
      pose proof (copyin_trace N CL b x w Hname) as Htr.
      rewrite Hrun in Htr. cbn [snd] in Htr.
      now apply (trace_grows w w _ Htr).
    + now apply copyout_rejected.
    + destruct (name_is_image b) eqn:Hname; [reflexivity | exfalso].
      pose proof (copyout_trace N CL b x w Hname) as Htr.
      rewrite Hrun in Htr. cbn [snd] in Htr.
      now apply (trace_grows w w _ Htr).
  - intros size [itemsize name | itemsize name shape] w Hplain Hname Hnat;
      [| discriminate Hplain].
    cbn [DType.itemsize DType.name] in *.
    set (o := Buffer READ_WRITE (size * itemsize)).
    set (c := cl_Buffer (_CL.cl_ctx CL) READ_WRITE (size * itemsize)) in *.
    exists {| CLBuffer.size := size; CLBuffer.dtype := DType.DType itemsize name;
              CLBuffer._buf := next w |}, (snd (alloc o (log c w))).
    assert (Hlook : heap (snd (alloc o (log c w))) !! next w = Some o)
      by apply lookup_insert_eq.
    split; [| split; [exact Hlook | split]].
    + unfold CLBuffer.__init__, CLBuffer.RawBuffer_init.
      rewrite bind_native_succeeds by exact Hnat.
      erewrite bind_Ok by reflexivity. reflexivity.
    + unfold image_backed. cbn [CLBuffer._buf]. now rewrite Hlook.
    + intros x w2. split; [apply copyin_rejected | apply copyout_rejected]; exact Hname.
Qed.

Lemma copy_guard_is_name_prefix_witness :
  exists b w1,
    CLBuffer.__init__ Host.linux Host.CL 6 (DType.DType 4 "image_like") empty_world = (Ok b, w1)
    /\ heap w1 !! CLBuffer._buf b = Some (Buffer READ_WRITE (6 * 4))
    /\ image_backed b w1 = false
    /\ fst (CLBuffer._copyin Host.linux Host.CL b [1; 2] w1)
         = Raise (AssertionError (cant_copyin_images (DType.DType 4 "image_like"))).
Proof.
  destruct (copy_guard_is_name_prefix Host.linux Host.CL) as [_ Hlin].
  destruct (Hlin 6 (DType.DType 4 "image_like") empty_world eq_refl eq_refl eq_refl)
    as (b & w1 & Hinit & Hheap & Hback & Hcopy).
  exists b, w1. repeat split; try assumption.
  destruct (Hcopy [1; 2] w1) as [-> _]. reflexivity.
Defined.

(** ** Program construction *)

(** C2, as the code has it: when the build step raises [e], the construction
    raises that same [e], unchanged; if [e] is pyopencl's RuntimeError and
    the diagnostics level is at least 3, one line, "FAILED TO BUILD"
    followed by the source (or binary), is printed first, and nothing is
    printed otherwise; the context holds the unbuilt program object only and
    the entry point was never looked up, so no program object results. *)
Theorem build_failure_reraised N CL name prg binary argdtypes w e :
  native_raises N (cl_Program (_CL.cl_ctx CL) prg binary) w = None ->
  native_raises N (cl_Program_build (next w)) (program_created CL prg binary w) = Some e ->
  exists w',
    CLProgram.__init__ N CL name prg binary argdtypes w = (Raise e, w')
    /\ stdout w'
         = stdout w ++ (if is_cl_RuntimeError e && (3 <=? DEBUG N)
                        then ["FAILED TO BUILD " +:+ prg] else [])
    /\ heap w' = <[next w := Program prg binary false]> (heap w)
    /\ trace w'
         = trace w ++ [cl_Program (_CL.cl_ctx CL) prg binary; cl_Program_build (next w)].
Proof.
  intros Hcreate Hbuild. unfold CLProgram.__init__.
  rewrite bind_native_succeeds by exact Hcreate.
  rewrite (bind_Ok _ _ _ (next w) (program_created CL prg binary w)) by reflexivity.
  set (w1 := program_created CL prg binary w) in *.
  set (handler := fun e0 : exn =>
         match e0 with
         | CLError cl_RuntimeError _ =>
             (if 3 <=? DEBUG N then print ("FAILED TO BUILD " +:+ prg) else ret tt) ;;
             raise e0
         | _ => raise e0
         end : M handle).
  assert (Hhandled : exists w',
             handler e (log (cl_Program_build (next w)) w1) = (Raise e, w')
             /\ stdout w'
                  = stdout w ++ (if is_cl_RuntimeError e && (3 <=? DEBUG N)
                                 then ["FAILED TO BUILD " +:+ prg] else [])
             /\ heap w' = <[next w := Program prg binary false]> (heap w)
             /\ trace w'
                  = trace w ++ [cl_Program (_CL.cl_ctx CL) prg binary;
                                cl_Program_build (next w)]).
  { unfold handler.
    destruct (is_cl_RuntimeError e && (3 <=? DEBUG N)) eqn:Hprint.
    - apply andb_true_iff in Hprint as [Hcls Hdebug].
      destruct e as [m|k| |attr| | | | |[] r]; try discriminate Hcls.
      rewrite Hdebug. eexists. split; [reflexivity |].
      cbn. rewrite <- app_assoc. repeat split; reflexivity.
    - destruct e as [m|k| |attr| | | | |[] r];
        try (eexists; split; [reflexivity |];
             cbn; rewrite app_nil_r, <- app_assoc; repeat split; reflexivity).
      cbn in Hprint. rewrite Hprint. eexists. split; [reflexivity |].
      cbn. rewrite app_nil_r, <- app_assoc. repeat split; reflexivity. }
  destruct Hhandled as (w' & Hrun & Hout & Hheap & Htrace).
  exists w'. split; [| split; [exact Hout | split; [exact Hheap | exact Htrace]]].
  apply bind_Raise. unfold try_except.
  rewrite (native_fails N _ _ w1 e Hbuild). exact Hrun.
Qed.

Lemma build_failure_reraised_witness :
  exists w',
    CLProgram.__init__ (BrokenBuild.host 3) Host.CL "f" BrokenBuild.source false None empty_world
      = (Raise (CLError cl_RuntimeError BrokenBuild.diagnostics), w')
    /\ stdout w' = ["FAILED TO BUILD __kernel void f( {"]
    /\ heap w' = <[0%nat := Program BrokenBuild.source false false]> ∅.
Proof.
  destruct (build_failure_reraised (BrokenBuild.host 3) Host.CL "f" BrokenBuild.source false
              None empty_world (CLError cl_RuntimeError BrokenBuild.diagnostics)
              eq_refl eq_refl) as (w' & Hrun & Hout & Hheap & _).
  exists w'. split; [exact Hrun | split; [exact Hout | exact Hheap]].
Defined.

(** C2, against the claim as stated: a build that fails with the compiler's
    diagnostics raises exactly the native error, which does not carry the
    source; at diagnostics level 3 the line printed holds the source and not
    the compiler's diagnostics. *)
Lemma build_error_does_not_carry_source :
  fst (CLProgram.__init__ (BrokenBuild.host 3) Host.CL "f" BrokenBuild.source false None
         empty_world)
    = Raise (CLError cl_RuntimeError BrokenBuild.diagnostics)
  /\ carries (CLError cl_RuntimeError BrokenBuild.diagnostics) BrokenBuild.source = false
  /\ stdout (snd (CLProgram.__init__ (BrokenBuild.host 3) Host.CL "f" BrokenBuild.source false
                    None empty_world))
       = ["FAILED TO BUILD " +:+ BrokenBuild.source]
  /\ str_contains (msg BrokenBuild.diagnostics) ("FAILED TO BUILD " +:+ BrokenBuild.source)
       = false.
Proof. repeat split; vm_compute; reflexivity. Qed.

(** ** Double precision: multiplying by 1.0 changes nothing *)

(** Shifting [2^52 * m] right by 52 bits is exact. *)
Lemma shr_52_exact (m : positive) :
  SpecFloat.iter_pos shr_1 52
    {| shr_m := Z.pos (4503599627370496 * m); shr_r := false; shr_s := false |}
  = {| shr_m := Z.pos m; shr_r := false; shr_s := false |}.
Proof. reflexivity. Qed.

Lemma Zdigits2_shl_52 (m : positive) :
  Zdigits2 (Z.pos (4503599627370496 * m)) = Z.pos (digits2_pos m) + 52.
Proof.
  cbv [Zdigits2 Pos.mul]. cbn [digits2_pos]. rewrite !Pos2Z.inj_succ. lia.
Qed.

Lemma SF64mul_one_r x : valid_binary x = true -> SF64mul x (Prim2SF 1) = x.
Proof.
  change (Prim2SF 1) with (S754_finite false 4503599627370496 (-52)).
  destruct x as [s|s| |s m e]; intros Hvalid; cbn [SF64mul SFmul];
    rewrite ?xorb_false_r; try reflexivity.
  cbn [SpecFloat.valid_binary] in Hvalid. unfold bounded, canonical_mantissa in Hvalid.
  apply andb_true_iff in Hvalid as [Hcanon Hbound].
  apply Z.eqb_eq in Hcanon.
  rewrite (Pos.mul_comm m).
  unfold binary_round_aux, shr_fexp.
  rewrite Zdigits2_shl_52.
  replace (Z.pos (digits2_pos m) + 52 + (e + -52)) with (Z.pos (digits2_pos m) + e) by lia.
  rewrite Hcanon.
  replace (e - (e + -52)) with 52 by lia.
  cbn [shr shr_record_of_loc]. rewrite shr_52_exact.
  cbn [shr_m loc_of_shr_record round_nearest_even shr_r shr_s].
  replace (e + -52 + 52) with e by lia.
  cbn [Zdigits2]. rewrite Hcanon, Z.sub_diag. cbn [shr shr_m].
  now rewrite Hbound.
Qed.

Lemma float_mul_one_r (x : float) : (x * 1)%float = x.
Proof.
  apply Prim2SF_inj. rewrite mul_spec. apply SF64mul_one_r. apply Prim2SF_valid.
Qed.

(** On every platform but macOS the calibration leaves a duration as it is. *)
Lemma timing_ratio_identity N (d : float) :
  OSX N = false -> (d * OSX_TIMING_RATIO N)%float = d.
Proof.
  unfold OSX_TIMING_RATIO. intros ->. apply float_mul_one_r.
Qed.

(** ** Double precision: converting an integer *)

(** [float_of_int] is read against the Standard Library's specification of
    binary64 rounding: an integer of at most 53 binary digits is shifted
    left to a 53-digit mantissa, a longer one is shifted right, rounded to
    nearest even and renormalised. *)

Lemma digits2_pos_bounds (m : positive) :
  2 ^ (Z.pos (digits2_pos m) - 1) <= Z.pos m < 2 ^ Z.pos (digits2_pos m).
Proof.
  induction m as [m IH | m IH |]; cbn [digits2_pos].
  - rewrite Pos2Z.inj_succ.
    replace (Z.succ (Z.pos (digits2_pos m)) - 1) with (Z.succ (Z.pos (digits2_pos m) - 1)) by lia.
    rewrite !Z.pow_succ_r by lia. lia.
  - rewrite Pos2Z.inj_succ.
    replace (Z.succ (Z.pos (digits2_pos m)) - 1) with (Z.succ (Z.pos (digits2_pos m) - 1)) by lia.
    rewrite !Z.pow_succ_r by lia. lia.
  - cbn. lia.
Qed.

(** The number of binary digits is fixed by the binade. *)
Lemma digits2_pos_unique (m : positive) (n : Z) :
  2 ^ (n - 1) <= Z.pos m < 2 ^ n -> 0 < n -> Z.pos (digits2_pos m) = n.
Proof.
  intros [Hlo Hhi] Hn.
  destruct (digits2_pos_bounds m) as [Hlo' Hhi'].
  destruct (Z.lt_trichotomy (Z.pos (digits2_pos m)) n) as [Hlt | [Heq | Hgt]];
    [exfalso | exact Heq | exfalso].
  - assert (2 ^ Z.pos (digits2_pos m) <= 2 ^ (n - 1)) by (apply Z.pow_le_mono_r; lia). lia.
  - assert (2 ^ n <= 2 ^ (Z.pos (digits2_pos m) - 1)) by (apply Z.pow_le_mono_r; lia). lia.
Qed.

Lemma iter_xO_value (m d : positive) :
  Z.pos (Pos.iter xO m d) = Z.pos m * 2 ^ Z.pos d.
Proof.
  induction d as [|d IH] using Pos.peano_ind.
  - cbn. lia.
  - rewrite Pos.iter_succ, Pos2Z.inj_succ, Z.pow_succ_r by lia.
    rewrite Pos2Z.inj_xO, IH. lia.
Qed.

Lemma iter_xO_digits (m d : positive) :
  Z.pos (digits2_pos (Pos.iter xO m d)) = Z.pos (digits2_pos m) + Z.pos d.
Proof.
  induction d as [|d IH] using Pos.peano_ind.
  - cbn [Pos.iter digits2_pos]. lia.
  - rewrite Pos.iter_succ. cbn [digits2_pos]. rewrite !Pos2Z.inj_succ, IH. lia.
Qed.

Lemma fexp_normal (n : Z) : -1021 <= n -> fexp prec emax n = n - 53.
Proof. unfold fexp, emin, prec, emax. lia. Qed.

(** A 53-digit mantissa in range is left as it is. *)
Lemma binary_round_aux_canonical (s : bool) (m : positive) (e : Z) :
  Z.pos (digits2_pos m) = 53 -> -1074 <= e <= 971 ->
  binary_round_aux prec emax s (Z.pos m) e loc_Exact = S754_finite s m e.
Proof.
  intros Hdigits He.
  unfold binary_round_aux, shr_fexp. cbn [Zdigits2]. rewrite Hdigits.
  rewrite fexp_normal by lia.
  replace (53 + e - 53 - e) with 0 by lia.
  cbn [shr shr_record_of_loc shr_m loc_of_shr_record round_nearest_even Zdigits2].
  rewrite Hdigits, fexp_normal by lia.
  replace (53 + e - 53 - e) with 0 by lia.
  cbn [shr shr_record_of_loc shr_m].
  replace (e <=? emax - prec) with true; [reflexivity |].
  symmetry. apply Z.leb_le. unfold emax, prec. lia.
Qed.

(** An integer of at most 53 binary digits is converted exactly. *)
Lemma binary_round_exact (s : bool) (m : positive) :
  Z.pos (digits2_pos m) <= 53 ->
  exists m' e,
    binary_round prec emax s m 0 = S754_finite s m' e
    /\ -52 <= e <= 0 /\ 2 ^ 52 <= Z.pos m' < 2 ^ 53 /\ Z.pos m' = Z.pos m * 2 ^ (- e).
Proof.
  intros Hdigits. unfold binary_round, shl_align.
  rewrite fexp_normal by lia.
  destruct (Z.pos (digits2_pos m) + 0 - 53 - 0) as [|d|d] eqn:Hshift; [| lia |].
  - exists m, 0. split; [apply binary_round_aux_canonical; lia |].
    split; [lia |]. split; [| cbn; lia].
    pose proof (digits2_pos_bounds m) as Hm.
    replace (Z.pos (digits2_pos m)) with 53 in Hm by lia. exact Hm.
  - assert (Hd : Z.pos (digits2_pos (Pos.iter xO m d)) = 53)
      by (rewrite iter_xO_digits; lia).
    exists (Pos.iter xO m d), (Z.pos (digits2_pos m) + 0 - 53).
    split; [apply binary_round_aux_canonical; [exact Hd | lia] |].
    split; [lia |]. split.
    + pose proof (digits2_pos_bounds (Pos.iter xO m d)) as Hm.
      rewrite Hd in Hm. exact Hm.
    + rewrite iter_xO_value. f_equal. f_equal. lia.
Qed.

(** ** Conversion of larger integers: shifting right and rounding *)

Lemma iter_pos_nat {A} (f : A -> A) (p : positive) (x : A) :
  SpecFloat.iter_pos f p x = Nat.iter (Pos.to_nat p) f x.
Proof.
  revert x. induction p as [p IH | p IH |]; intros x; cbn [SpecFloat.iter_pos].
  - rewrite !IH, Pos2Nat.inj_xI, Nat.iter_succ_r.
    replace (2 * Pos.to_nat p)%nat with (Pos.to_nat p + Pos.to_nat p)%nat by lia.
    now rewrite Nat.iter_add.
  - rewrite !IH, Pos2Nat.inj_xO.
    replace (2 * Pos.to_nat p)%nat with (Pos.to_nat p + Pos.to_nat p)%nat by lia.
    now rewrite Nat.iter_add.
  - reflexivity.
Qed.

(** One step drops the last bit into the round bit and folds the previous
    round bit into the sticky bit. *)
Lemma shr_1_nonneg (m : Z) (r s : bool) :
  0 <= m ->
  shr_1 {| shr_m := m; shr_r := r; shr_s := s |}
  = {| shr_m := m / 2; shr_r := Z.odd m; shr_s := r || s |}.
Proof.
  intros Hm. rewrite <- Z.div2_div.
  destruct m as [|[p|p|]|]; try reflexivity. lia.
Qed.

Lemma mod_pow2_succ (M k : Z) :
  0 <= k ->
  M mod 2 ^ (k + 1) = M mod 2 ^ k + 2 ^ k * (if Z.odd (M / 2 ^ k) then 1 else 0).
Proof.
  intros Hk. rewrite Z.pow_add_r, Z.pow_1_r by lia.
  rewrite Z.rem_mul_r by lia. now rewrite Zmod_odd.
Qed.

(** After [k + 1] steps: the quotient by [2^(k+1)], bit [k] as the round
    bit, and whether the [k] bits below it are not all zero. *)
Lemma shr_iter (M : Z) (k : nat) :
  0 <= M ->
  Nat.iter (S k) shr_1 {| shr_m := M; shr_r := false; shr_s := false |}
  = {| shr_m := M / 2 ^ (Z.of_nat k + 1);
       shr_r := Z.odd (M / 2 ^ Z.of_nat k);
       shr_s := negb (M mod 2 ^ Z.of_nat k =? 0) |}.
Proof.
  intros HM. induction k as [|k IH].
  - cbn [Nat.iter]. rewrite shr_1_nonneg by exact HM.
    change (Z.of_nat 0) with 0. cbn [Z.add Z.pow Z.pow_pos Pos.iter Z.mul Pos.mul].
    now rewrite Z.div_1_r, Z.mod_1_r.
  - rewrite Nat.iter_succ, IH.
    rewrite shr_1_nonneg by (apply Z.div_pos; lia).
    rewrite Nat2Z.inj_succ. unfold Z.succ. f_equal.
    + rewrite Z.div_div by lia. f_equal.
      rewrite (Z.pow_add_r 2 (Z.of_nat k + 1) 1) by lia. reflexivity.
    + rewrite (mod_pow2_succ M (Z.of_nat k)) by lia.
      pose proof (Z.mod_pos_bound M (2 ^ Z.of_nat k) ltac:(lia)) as Hmod.
      assert (0 < 2 ^ Z.of_nat k) by lia.
      destruct (Z.odd (M / 2 ^ Z.of_nat k));
        destruct (Z.eqb_spec (M mod 2 ^ Z.of_nat k) 0) as [Hz | Hnz]; cbn [orb negb].
      * symmetry. apply negb_true_iff, Z.eqb_neq. lia.
      * symmetry. apply negb_true_iff, Z.eqb_neq. lia.
      * symmetry. apply negb_false_iff, Z.eqb_eq. lia.
      * symmetry. apply negb_true_iff, Z.eqb_neq. lia.
Qed.

Lemma shr_iter_pos (M : Z) (p : positive) :
  0 <= M ->
  SpecFloat.iter_pos shr_1 p {| shr_m := M; shr_r := false; shr_s := false |}
  = {| shr_m := M / 2 ^ Z.pos p;
       shr_r := Z.odd (M / 2 ^ (Z.pos p - 1));
       shr_s := negb (M mod 2 ^ (Z.pos p - 1) =? 0) |}.
Proof.
  intros HM. rewrite iter_pos_nat.
  destruct (Pos.to_nat p) as [|k] eqn:Hp; [lia |].
  rewrite shr_iter by exact HM.
  replace (Z.of_nat k) with (Z.pos p - 1) by lia.
  now replace (Z.pos p - 1 + 1) with (Z.pos p) by lia.
Qed.

(** Rounding the shifted mantissa to nearest even moves it by at most half
    a unit of the last place kept. *)
Lemma round_shifted (M : Z) (p : positive) :
  0 <= M ->
  let q := M / 2 ^ Z.pos p in
  let q' := round_nearest_even q
              (loc_of_shr_record
                 {| shr_m := q;
                    shr_r := Z.odd (M / 2 ^ (Z.pos p - 1));
                    shr_s := negb (M mod 2 ^ (Z.pos p - 1) =? 0) |}) in
  q <= q' <= q + 1 /\ 2 * Z.abs (M - q' * 2 ^ Z.pos p) <= 2 ^ Z.pos p.
Proof.
  intros HM q q'.
  pose proof (mod_pow2_succ M (Z.pos p - 1) ltac:(lia)) as HR.
  replace (Z.pos p - 1 + 1) with (Z.pos p) in HR by lia.
  assert (Hpow : 2 ^ Z.pos p = 2 * 2 ^ (Z.pos p - 1)).
  { rewrite <- Z.pow_succ_r by lia. f_equal. lia. }
  pose proof (Z.mod_pos_bound M (2 ^ (Z.pos p - 1)) ltac:(lia)) as Hlow.
  pose proof (Z.div_mod M (2 ^ Z.pos p) ltac:(lia)) as HMq.
  fold q in HMq. rewrite HR in HMq. subst q'.
  rewrite Hpow in *.
  set (P := 2 ^ (Z.pos p - 1)) in *.
  set (R0 := M mod P) in *.
  destruct (Z.odd (M / P)); destruct (Z.eqb_spec R0 0) as [Hz | Hnz];
    cbn [negb loc_of_shr_record round_nearest_even].
  - destruct (Z.even q); split; lia.
  - split; lia.
  - split; lia.
  - split; lia.
Qed.

(** The rounded mantissa has 53 digits, or is [2^53] and is shifted once
    more; the result is infinite when the exponent is beyond the format. *)
Lemma renormalize (s : bool) (q' p : Z) :
  2 ^ 52 <= q' <= 2 ^ 53 -> 1 <= p ->
  exists m' e,
    (let '(mrs'', e'') := shr_fexp prec emax q' p loc_Exact in
     match shr_m mrs'' with
     | Z0 => S754_zero s
     | Zpos m => if e'' <=? emax - prec then S754_finite s m e'' else S754_infinity s
     | _ => S754_nan
     end) = (if e <=? 971 then S754_finite s m' e else S754_infinity s)
    /\ p <= e <= p + 1 /\ 2 ^ 52 <= Z.pos m' < 2 ^ 53 /\ Z.pos m' * 2 ^ e = q' * 2 ^ p.
Proof.
  intros Hq Hp. destruct q' as [|mq|mq]; [lia | | lia].
  destruct (Z.eq_dec (Z.pos mq) (2 ^ 53)) as [Htop | Hbelow].
  - assert (mq = 9007199254740992%positive) as -> by lia.
    exists 4503599627370496%positive, (p + 1).
    split; [| split; [lia | split; [lia |]]].
    + unfold shr_fexp.
      change (Zdigits2 (Z.pos 9007199254740992)) with 54.
      rewrite fexp_normal by lia.
      replace (54 + p - 53 - p) with 1 by lia.
      cbn [shr shr_record_of_loc SpecFloat.iter_pos shr_1 shr_m orb].
      reflexivity.
    + rewrite Z.pow_add_r, Z.pow_1_r by lia. lia.
  - exists mq, p.
    assert (Hdigits : Z.pos (digits2_pos mq) = 53) by (apply digits2_pos_unique; lia).
    split; [| split; [lia | split; [lia | reflexivity]]].
    unfold shr_fexp. cbn [Zdigits2]. rewrite Hdigits.
    rewrite fexp_normal by lia.
    replace (53 + p - 53 - p) with 0 by lia.
    cbn [shr shr_record_of_loc shr_m].
    reflexivity.
Qed.

(** An integer of more than 53 binary digits is rounded to a normal double
    at most half a unit in the last place away, unless the exponent needed
    is beyond the format. *)
Lemma binary_round_nearest (s : bool) (m : positive) :
  53 < Z.pos (digits2_pos m) ->
  exists m' e,
    binary_round prec emax s m 0
      = (if e <=? 971 then S754_finite s m' e else S754_infinity s)
    /\ Z.pos (digits2_pos m) - 53 <= e <= Z.pos (digits2_pos m) - 52
    /\ 2 ^ 52 <= Z.pos m' < 2 ^ 53
    /\ 2 * Z.abs (Z.pos m - Z.pos m' * 2 ^ e) <= 2 ^ e.
Proof.
  intros Hdigits. unfold binary_round, shl_align.
  rewrite fexp_normal by lia.
  destruct (Z.pos (digits2_pos m) + 0 - 53 - 0) as [|d|d] eqn:Hshift; [lia | | lia].
  unfold binary_round_aux.
  unfold shr_fexp at 1. cbn [Zdigits2]. rewrite fexp_normal by lia.
  replace (Z.pos (digits2_pos m) + 0 - 53 - 0) with (Z.pos d) by lia.
  cbn [shr shr_record_of_loc]. rewrite shr_iter_pos by lia.
  cbn [shr_m].
  destruct (round_shifted (Z.pos m) d ltac:(lia)) as [Hq' Hnear].
  cbv zeta in Hq', Hnear.
  destruct (digits2_pos_bounds m) as [Hlo Hhi].
  assert (Hq : 2 ^ 52 <= Z.pos m / 2 ^ Z.pos d < 2 ^ 53).
  { replace (Z.pos (digits2_pos m) - 1) with (52 + Z.pos d) in Hlo by lia.
    replace (Z.pos (digits2_pos m)) with (53 + Z.pos d) in Hhi by lia.
    rewrite Z.pow_add_r in Hlo, Hhi by lia. split.
    - apply Z.div_le_lower_bound; lia.
    - apply Z.div_lt_upper_bound; lia. }
  set (q' := round_nearest_even _ _) in *.
  destruct (renormalize s q' (0 + Z.pos d) ltac:(lia) ltac:(lia))
    as (m' & e & Hrun & He & Hm' & Hvalue).
  exists m', e. split; [exact Hrun | split; [lia | split; [exact Hm' |]]].
  rewrite Hvalue. replace (0 + Z.pos d) with (Z.pos d) by lia.
  assert (2 ^ Z.pos d <= 2 ^ e) by (apply Z.pow_le_mono_r; lia).
  lia.
Qed.

Lemma digits2_pos_le (m : positive) (n : Z) :
  0 <= n -> (Z.pos (digits2_pos m) <= n <-> Z.pos m < 2 ^ n).
Proof.
  intros Hn. destruct (digits2_pos_bounds m) as [Hlo Hhi]. split.
  - intros Hle.
    assert (2 ^ Z.pos (digits2_pos m) <= 2 ^ n) by (apply Z.pow_le_mono_r; lia). lia.
  - intros Hlt. destruct (Z.le_gt_cases (Z.pos (digits2_pos m)) n) as [Hle | Hgt];
      [exact Hle | exfalso].
    assert (2 ^ n <= 2 ^ (Z.pos (digits2_pos m) - 1)) by (apply Z.pow_le_mono_r; lia). lia.
Qed.

Lemma valid_normal (s : bool) (m : positive) (e : Z) :
  2 ^ 52 <= Z.pos m < 2 ^ 53 -> -1074 <= e <= 971 ->
  valid_binary (S754_finite s m e) = true.
Proof.
  intros Hm He. cbn [SpecFloat.valid_binary]. unfold bounded, canonical_mantissa.
  rewrite (digits2_pos_unique m 53) by lia.
  rewrite fexp_normal by lia.
  apply andb_true_iff. split; [apply Z.eqb_eq; lia | apply Z.leb_le; unfold emax, prec; lia].
Qed.

(** What the conversion of a positive integer, with either sign, gives. *)
Lemma binary_round_int (s : bool) (m : positive) :
  (Z.pos m < 2 ^ 53 /\
   exists m' e,
     binary_round prec emax s m 0 = S754_finite s m' e
     /\ -52 <= e <= 0 /\ 2 ^ 52 <= Z.pos m' < 2 ^ 53 /\ Z.pos m' = Z.pos m * 2 ^ (- e))
  \/ (2 ^ 53 <= Z.pos m /\
      exists m' e,
        binary_round prec emax s m 0 = S754_finite s m' e
        /\ 0 <= e <= 971 /\ 2 ^ 52 <= Z.pos m' < 2 ^ 53
        /\ 2 * Z.abs (Z.pos m - Z.pos m' * 2 ^ e) <= 2 ^ e)
  \/ (2 ^ 1023 <= Z.pos m /\ binary_round prec emax s m 0 = S754_infinity s).
Proof.
  destruct (Z.le_gt_cases (Z.pos (digits2_pos m)) 53) as [Hsmall | Hlarge].
  - left. split; [now apply digits2_pos_le |].
    exact (binary_round_exact s m Hsmall).
  - right.
    assert (Hbig : 2 ^ 53 <= Z.pos m).
    { destruct (Z.le_gt_cases (2 ^ 53) (Z.pos m)) as [H | H]; [exact H |].
      apply digits2_pos_le in H; lia. }
    destruct (binary_round_nearest s m ltac:(lia)) as (m' & e & Hrun & He & Hm' & Hnear).
    destruct (Z.leb_spec e 971) as [Hfin | Hinf].
    + left. split; [exact Hbig |]. exists m', e.
      split; [exact Hrun | split; [lia | split; [exact Hm' | exact Hnear]]].
    + right. split; [| exact Hrun].
      destruct (Z.le_gt_cases (2 ^ 1023) (Z.pos m)) as [H | H]; [exact H |].
      apply digits2_pos_le in H; lia.
Qed.

Lemma is_infinity_finite (f : float) s m e :
  Prim2SF f = S754_finite s m e -> is_infinity f = false.
Proof.
  intros Hf. unfold is_infinity. rewrite FloatAxioms.eqb_spec, abs_spec, Hf. reflexivity.
Qed.

Lemma float_of_int_nonzero (s : bool) (m : positive) (z : Z) :
  z = cond_Zopp s (Z.pos m) ->
  match float_of_int z with
  | Some d => double_of_int z d
  | None => 2 ^ 1023 <= Z.abs z
  end.
Proof.
  intros Hz.
  assert (Hnorm : binary_normalize prec emax z 0 false = binary_round prec emax s m 0)
    by (subst z; destruct s; reflexivity).
  assert (Habs : Z.abs z = Z.pos m) by (subst z; destruct s; reflexivity).
  unfold float_of_int, double_of_int. cbv zeta. rewrite Hnorm, Habs.
  destruct (binary_round_int s m)
    as [(Hm & m' & e & -> & He & Hm' & Hv)
       | [(Hm & m' & e & -> & He & Hm' & Hv) | (Hm & ->)]].
  - pose proof (Prim2SF_SF2Prim _ (valid_normal s m' e Hm' ltac:(lia))) as Hd.
    rewrite (is_infinity_finite _ _ _ _ Hd).
    split; [exact Hd | split; [| lia]].
    intros _. unfold is_integer. rewrite Hd.
    destruct (Z.leb_spec 0 e) as [He0 | He0].
    + replace e with 0 in * by lia. subst z. f_equal. cbn in Hv. lia.
    + subst z. rewrite Hv. destruct s; cbn [cond_Zopp]; lia.
  - pose proof (Prim2SF_SF2Prim _ (valid_normal s m' e Hm' ltac:(lia))) as Hd.
    rewrite (is_infinity_finite _ _ _ _ Hd).
    split; [exact Hd | split; [lia |]].
    intros _. unfold within_half_ulp. rewrite Hd.
    split; [lia | split; [exact Hm' |]].
    subst z. destruct s; cbn [cond_Zopp]; lia.
  - replace (is_infinity (SF2Prim (S754_infinity s))) with true
      by (destruct s; reflexivity).
    exact Hm.
Qed.

(** The conversion either gives the double that [double_of_int] describes,
    or overflows, and then the integer is [2^1023] or more in magnitude. *)
Lemma float_of_int_cases (z : Z) :
  match float_of_int z with
  | Some d => double_of_int z d
  | None => 2 ^ 1023 <= Z.abs z
  end.
Proof.
  destruct z as [|m|m].
  - change (float_of_int 0) with (Some 0%float).
    split; [reflexivity | split].
    + intros _. reflexivity.
    + intros Hbig. cbn in Hbig. lia.
  - now apply (float_of_int_nonzero false m).
  - now apply (float_of_int_nonzero true m).
Qed.

Lemma float_of_int_Some (z : Z) (d : float) :
  float_of_int z = Some d -> double_of_int z d.
Proof. intros H. pose proof (float_of_int_cases z) as Hc. now rewrite H in Hc. Qed.

Lemma is_infinity_zero (f : float) s :
  Prim2SF f = S754_zero s -> is_infinity f = false.
Proof.
  intros Hf. unfold is_infinity. rewrite FloatAxioms.eqb_spec, abs_spec, Hf. reflexivity.
Qed.

(** [double_of_int] describes the conversion and nothing else. *)
Lemma double_of_int_float_of_int (z : Z) (d : float) :
  double_of_int z d -> float_of_int z = Some d.
Proof.
  intros (Hsf & Hsmall & Hbig). unfold float_of_int. cbv zeta.
  rewrite <- Hsf, SF2Prim_Prim2SF.
  replace (is_infinity d) with false; [reflexivity |]. symmetry.
  destruct (Z.lt_ge_cases (Z.abs z) (2 ^ 53)) as [Hlt | Hge].
  - specialize (Hsmall Hlt). unfold is_integer in Hsmall.
    destruct (Prim2SF d) as [s|s| |s m e] eqn:Hd; try contradiction.
    + exact (is_infinity_zero d s Hd).
    + exact (is_infinity_finite d s m e Hd).
  - specialize (Hbig Hge). unfold within_half_ulp in Hbig.
    destruct (Prim2SF d) as [s|s| |s m e] eqn:Hd; try contradiction.
    exact (is_infinity_finite d s m e Hd).
Qed.

(** No OverflowError below [2^1023] in magnitude. *)
Lemma float_of_int_returns (z : Z) :
  Z.abs z < 2 ^ 1023 -> exists d, float_of_int z = Some d.
Proof.
  intros Hz. pose proof (float_of_int_cases z) as Hc.
  destruct (float_of_int z) as [d|]; [now exists d | lia].
Qed.

Lemma ns_to_s_nearest : nearest_double_to_ratio ns_to_s 1 (10 ^ 9).
Proof.
  unfold nearest_double_to_ratio.
  change (Prim2SF ns_to_s) with (S754_finite false 4835703278458517 (-82)).
  repeat split; lia.
Qed.

Lemma timing_ratio_nearest : nearest_double_to_ratio (125 / 3)%float 125 3.
Proof.
  unfold nearest_double_to_ratio.
  change (Prim2SF (125 / 3)%float) with (S754_finite false 5864062014805333 (-47)).
  repeat split; lia.
Qed.

(** ** Launches *)

Lemma kernel_signature_Ok_inv k w sig w' :
  CLProgram.kernel_signature k w = (Ok sig, w') ->
  w' = w /\ exists prog nm, heap w !! k = Some (Kernel prog nm sig).
Proof.
  unfold CLProgram.kernel_signature.
  destruct (heap w !! k) as [[? ? ?|? ?|? ? ?|prog nm s]|]; intros H; inversion H; subst.
  split; [reflexivity | eauto].
Qed.

(** A kernel call that returns has bound its arguments under the signature
    stored in the kernel object and appended one dispatch to the queue. *)
Lemma Kernel_call_Ok_inv N k q gs ls args w e w' :
  CLProgram.Kernel_call N k q gs ls args w = (Ok e, w') ->
  exists prog nm sig bound,
    heap w !! k = Some (Kernel prog nm sig)
    /\ CLProgram.bind_call N sig args = Ok bound
    /\ e = next_event w
    /\ heap w' = heap w
    /\ pending w' = pending w ++ [NDRange k gs ls bound]
    /\ completed w' = completed w
    /\ stdout w' = stdout w
    /\ trace w' = trace w ++ [cl_Kernel_call k q gs ls args].
Proof.
  unfold CLProgram.Kernel_call. intros Hrun.
  apply native_Ok_inv in Hrun as [_ Hrun].
  apply bind_Ok_inv in Hrun as (sig & w1 & Hsig & Hrun).
  apply kernel_signature_Ok_inv in Hsig as [-> (prog & nm & Hk)].
  apply bind_Ok_inv in Hrun as (bound & w1 & Hbound & Hrun).
  unfold of_result in Hbound. inversion Hbound as [[Hb Hw]]. subst w1.
  unfold enqueue in Hrun. inversion Hrun; subst. cbn.
  exists prog, nm, sig, bound. repeat split; assumption.
Qed.

Lemma Kernel_call_trace N k q gs ls args w :
  trace (snd (CLProgram.Kernel_call N k q gs ls args w))
    = trace w ++ [cl_Kernel_call k q gs ls args]
  /\ completed (snd (CLProgram.Kernel_call N k q gs ls args w)) = completed w.
Proof.
  unfold CLProgram.Kernel_call, native.
  destruct (native_raises N _ w); [split; reflexivity |].
  unfold bind, CLProgram.kernel_signature, of_result, enqueue. cbn [heap log].
  destruct (heap w !! k) as [[? ? ?|? ?|? ? ?|prog nm s]|]; try (split; reflexivity).
  destruct (CLProgram.bind_call N s args); split; reflexivity.
Qed.

(** Without [wait] a launch is its kernel call, returning [None]. *)
Lemma call_nowait N CL p gs ls bufs w :
  CLProgram.__call__ N CL p gs ls bufs false w =
    match CLProgram.Kernel_call N (CLProgram.clprg p) (_CL.cl_queue CL) gs ls
            (map CLProgram.resolve bufs) w with
    | (Ok _, w') => (Ok None, w')
    | (Raise e, w') => (Raise e, w')
    end.
Proof.
  unfold CLProgram.__call__, bind.
  destruct (CLProgram.Kernel_call _ _ _ _ _ _ w) as [[e|e] w']; reflexivity.
Qed.

(** With [wait] a launch that returns has waited for the queue and computed
    the duration from the timestamps of its own event. *)
Lemma call_wait_Ok_inv N CL p gs ls bufs w v w' :
  CLProgram.__call__ N CL p gs ls bufs true w = (Ok v, w') ->
  exists w1 d,
    CLProgram.Kernel_call N (CLProgram.clprg p) (_CL.cl_queue CL) gs ls
      (map CLProgram.resolve bufs) w = (Ok (next_event w), w1)
    /\ native_raises N (finish_call CL) w1 = None
    /\ float_of_int (elapsed_ns N (next_event w)) = Some d
    /\ v = Some ((d * OSX_TIMING_RATIO N) * ns_to_s)%float
    /\ heap w' = heap w1
    /\ pending w' = []
    /\ completed w' = completed w1 ++ pending w1
    /\ trace w' = trace w1 ++ [finish_call CL].
Proof.
  unfold CLProgram.__call__. intros Hrun.
  apply bind_Ok_inv in Hrun as (e & w1 & Hk & Hrun).
  pose proof (Kernel_call_Ok_inv _ _ _ _ _ _ _ _ _ Hk) as (? & ? & ? & ? & _ & _ & -> & _).
  apply bind_Ok_inv in Hrun as (u & w2 & Hfin & Hrun).
  apply native_Ok_inv in Hfin as [Hnat Hdrain].
  unfold drain in Hdrain. inversion Hdrain; subst w2; clear Hdrain.
  apply bind_Ok_inv in Hrun as (d & w3 & Hd & Hret).
  apply of_option_Ok_inv in Hd as [Hd ->].
  inversion Hret; subst v w'; clear Hret.
  exists w1, d. repeat split; assumption.
Qed.

(** With [wait], a launch whose dispatch is accepted, whose wait succeeds
    and whose elapsed time fits a double does return. *)
Lemma call_wait_returns N CL p gs ls bufs w e w1 d :
  CLProgram.Kernel_call N (CLProgram.clprg p) (_CL.cl_queue CL) gs ls
    (map CLProgram.resolve bufs) w = (Ok e, w1) ->
  native_raises N (finish_call CL) w1 = None ->
  float_of_int (elapsed_ns N e) = Some d ->
  exists w',
    CLProgram.__call__ N CL p gs ls bufs true w
      = (Ok (Some ((d * OSX_TIMING_RATIO N) * ns_to_s)%float), w')
    /\ pending w' = [].
Proof.
  intros Hk Hfin Hd. unfold CLProgram.__call__.
  erewrite bind_Ok by exact Hk.
  unfold finish_call in Hfin. rewrite bind_native_succeeds by exact Hfin.
  erewrite bind_Ok by reflexivity.
  unfold elapsed_ns in Hd.
  rewrite (bind_of_option_Some _ _ _ _ _ Hd).
  eexists. split; reflexivity.
Qed.

(** C7: without [wait] a launch only hands the dispatch to the queue: it
    returns [None] whenever the kernel call returns, no completion is
    observed (the host did not block) and the dispatch is the only native
    call; with [wait] a launch that returns gives a duration, after
    waiting for the whole queue: nothing is pending any more and all that
    was submitted, this dispatch last, is complete; it does return one when
    the dispatch is accepted, the wait succeeds and the elapsed time fits a
    double.  A duration is returned only with [wait]. *)
Theorem launch_result_by_wait N CL p gs ls bufs w :
  (forall r w',
     CLProgram.__call__ N CL p gs ls bufs false w = (r, w') ->
     (r = Ok None \/ exists e, r = Raise e)
     /\ completed w' = completed w
     /\ trace w' = trace w ++ [launch_call CL p gs ls bufs])
  /\ (forall e w1,
     CLProgram.Kernel_call N (CLProgram.clprg p) (_CL.cl_queue CL) gs ls
       (map CLProgram.resolve bufs) w = (Ok e, w1) ->
     CLProgram.__call__ N CL p gs ls bufs false w = (Ok None, w1)
     /\ exists c, pending w1 = pending w ++ [c])
  /\ (forall v w',
     CLProgram.__call__ N CL p gs ls bufs true w = (Ok v, w') ->
     (exists d, v = Some d)
     /\ pending w' = []
     /\ (exists c, completed w' = submitted w ++ [c])
     /\ trace w' = trace w ++ [launch_call CL p gs ls bufs; finish_call CL])
  /\ (forall e w1 d,
     CLProgram.Kernel_call N (CLProgram.clprg p) (_CL.cl_queue CL) gs ls
       (map CLProgram.resolve bufs) w = (Ok e, w1) ->
     native_raises N (finish_call CL) w1 = None ->
     float_of_int (elapsed_ns N e) = Some d ->
     exists v w',
       CLProgram.__call__ N CL p gs ls bufs true w = (Ok (Some v), w') /\ pending w' = [])
  /\ (forall wait d w',
     CLProgram.__call__ N CL p gs ls bufs wait w = (Ok (Some d), w') -> wait = true).
Proof.
  split; [| split; [| split; [| split]]].
  - intros r w' Hrun. rewrite call_nowait in Hrun.
    pose proof (Kernel_call_trace N (CLProgram.clprg p) (_CL.cl_queue CL) gs ls
                  (map CLProgram.resolve bufs) w) as [Htr Hdone].
    destruct (CLProgram.Kernel_call _ _ _ _ _ _ w) as [[e|e] w1];
      inversion Hrun; subst; cbn [snd] in *.
    + split; [now left | split; assumption].
    + split; [right; now exists e | split; assumption].
  - intros e w1 Hk. rewrite call_nowait, Hk. split; [reflexivity |].
    apply Kernel_call_Ok_inv in Hk as (_ & _ & _ & bound & _ & _ & _ & _ & Hp & _).
    now exists (NDRange (CLProgram.clprg p) gs ls bound).
  - intros v w' Hrun.
    apply call_wait_Ok_inv in Hrun
      as (w1 & d & Hk & _ & _ & -> & _ & Hp & Hc & Htr).
    apply Kernel_call_Ok_inv in Hk
      as (_ & _ & _ & bound & _ & _ & _ & _ & Hp1 & Hc1 & _ & Htr1).
    split; [eauto | split; [exact Hp | split]].
    + exists (NDRange (CLProgram.clprg p) gs ls bound).
      rewrite Hc, Hc1, Hp1. unfold submitted. now rewrite app_assoc.
    + rewrite Htr, Htr1, <- app_assoc. reflexivity.
  - intros e w1 d Hk Hfin Hd.
    destruct (call_wait_returns N CL p gs ls bufs w e w1 d Hk Hfin Hd) as (w' & Hrun & Hp).
    eauto.
  - intros [|] d w' Hrun; [reflexivity |].
    rewrite call_nowait in Hrun.
    destruct (CLProgram.Kernel_call _ _ _ _ _ _ w) as [[e|e] w1]; discriminate.
Qed.

Lemma launch_result_by_wait_witness :
  (exists w',
     CLProgram.__call__ Host.linux Host.CL Launch.program [4] None Launch.args false
       Launch.world = (Ok None, w')
     /\ completed w' = [])
  /\ (exists d w',
     CLProgram.__call__ Host.linux Host.CL Launch.program [4] None Launch.args true
       Launch.world = (Ok (Some d), w')
     /\ pending w' = []).
Proof.
  destruct (launch_result_by_wait Host.linux Host.CL Launch.program [4] None Launch.args
              Launch.world) as (Hnowait & Hreturns & Hwait & _ & _).
  split.
  - destruct (CLProgram.__call__ Host.linux Host.CL Launch.program [4] None Launch.args false
                Launch.world) as [r w'] eqn:Hrun.
    destruct (Hnowait r w' eq_refl) as (_ & Hc & _).
    assert (Hr : r = Ok None) by (vm_compute in Hrun; inversion Hrun; reflexivity).
    subst r. exists w'. split; [reflexivity | rewrite Hc; reflexivity].
  - destruct (CLProgram.__call__ Host.linux Host.CL Launch.program [4] None Launch.args true
                Launch.world) as [r w'] eqn:Hrun.
    assert (Hok : exists v, r = Ok v) by (vm_compute in Hrun; inversion Hrun; eauto).
    destruct Hok as [v ->].
    destruct (Hwait v w' eq_refl) as ([d ->] & Hp & _).
    exists d, w'. split; [reflexivity | exact Hp].
Defined.

(** C4: a launch with [wait] that returns gives the duration
    [((end - start) * OSX_TIMING_RATIO) * 1e-9], computed in double
    precision from the profiling timestamps of its own event (the ones the
    native library reports; reading them is taken not to fail).  Each
    factor is pinned by its value.  [end - start] is the integer difference
    converted to a double: exactly below [2^53] ns, rounded to nearest even
    and so at most half a unit in the last place away beyond.  [1e-9] is the
    double nearest to [1 / 10^9].  The ratio is the double nearest to
    [125 / 3] on macOS and 1.0 on every other platform, where multiplying by
    it is the identity.  The two products are IEEE multiplications, in this
    order.  The launch does return this duration whenever the dispatch is
    accepted and the wait succeeds, unless the conversion overflows, which
    needs a difference of [2^1023] ns or more. *)
Theorem timed_launch_duration N CL p gs ls bufs w :
  (forall v w',
     CLProgram.__call__ N CL p gs ls bufs true w = (Ok v, w') ->
     exists d,
       double_of_int
         (snd (profiling N (next_event w)) - fst (profiling N (next_event w))) d
       /\ v = Some ((d * OSX_TIMING_RATIO N) * ns_to_s)%float)
  /\ (forall e w1,
     CLProgram.Kernel_call N (CLProgram.clprg p) (_CL.cl_queue CL) gs ls
       (map CLProgram.resolve bufs) w = (Ok e, w1) ->
     native_raises N (finish_call CL) w1 = None ->
     (forall d,
        double_of_int (snd (profiling N e) - fst (profiling N e)) d ->
        exists w',
          CLProgram.__call__ N CL p gs ls bufs true w
            = (Ok (Some ((d * OSX_TIMING_RATIO N) * ns_to_s)%float), w'))
     /\ (Z.abs (snd (profiling N e) - fst (profiling N e)) < 2 ^ 1023 ->
         exists d w',
           double_of_int (snd (profiling N e) - fst (profiling N e)) d
           /\ CLProgram.__call__ N CL p gs ls bufs true w
                = (Ok (Some ((d * OSX_TIMING_RATIO N) * ns_to_s)%float), w')))
  /\ nearest_double_to_ratio ns_to_s 1 (10 ^ 9)
  /\ (OSX N = true ->
      OSX_TIMING_RATIO N = (125 / 3)%float
      /\ nearest_double_to_ratio (OSX_TIMING_RATIO N) 125 3)
  /\ (OSX N = false ->
      OSX_TIMING_RATIO N = 1%float /\ forall d : float, (d * OSX_TIMING_RATIO N)%float = d).
Proof.
  split; [| split; [| split; [| split]]].
  - intros v w' Hrun.
    apply call_wait_Ok_inv in Hrun as (w1 & d & _ & _ & Hd & -> & _).
    exists d. split; [| reflexivity].
    apply float_of_int_Some. exact Hd.
  - intros e w1 Hk Hfin.
    assert (Hreturns : forall d,
               double_of_int (snd (profiling N e) - fst (profiling N e)) d ->
               exists w',
                 CLProgram.__call__ N CL p gs ls bufs true w
                   = (Ok (Some ((d * OSX_TIMING_RATIO N) * ns_to_s)%float), w')).
    { intros d Hd. apply double_of_int_float_of_int in Hd.
      destruct (call_wait_returns N CL p gs ls bufs w e w1 d Hk Hfin Hd) as (w' & Hrun & _).
      now exists w'. }
    split; [exact Hreturns |].
    intros Hrange.
    destruct (float_of_int_returns _ Hrange) as [d Hd].
    apply float_of_int_Some in Hd.
    destruct (Hreturns d Hd) as [w' Hrun].
    exists d, w'. split; [exact Hd | exact Hrun].
  - exact ns_to_s_nearest.
  - unfold OSX_TIMING_RATIO. intros ->. split; [reflexivity | exact timing_ratio_nearest].
  - intros Hother. split.
    + unfold OSX_TIMING_RATIO. now rewrite Hother.
    + intros d. now apply timing_ratio_identity.
Qed.

Lemma timed_launch_duration_witness :
  (exists w',
     CLProgram.__call__ Host.mac Host.CL Launch.program [4] None Launch.args true Launch.world
       = (Ok (Some 0x1.a36e2eb1c432dp-17%float), w'))
  /\ (exists w',
     CLProgram.__call__ Host.linux Host.CL Launch.program [4] None Launch.args true Launch.world
       = (Ok (Some 0x1.421f5f40d8377p-22%float), w')).
Proof.
  split.
  - destruct (CLProgram.__call__ Host.mac Host.CL Launch.program [4] None Launch.args true
                Launch.world) as [r w'] eqn:Hrun.
    assert (Hok : exists v, r = Ok v) by (vm_compute in Hrun; inversion Hrun; eauto).
    destruct Hok as [v ->].
    destruct (timed_launch_duration Host.mac Host.CL Launch.program [4] None Launch.args
                Launch.world) as (Hvalue & _ & _ & Hmac & _).
    rewrite Hrun in Hvalue.
    destruct (Hvalue v w' eq_refl) as (d & (Hd & _) & ->).
    assert (d = 300%float) as -> by (apply Prim2SF_inj; rewrite Hd; reflexivity).
    destruct (Hmac eq_refl) as [-> _].
    exists w'. reflexivity.
  - destruct (CLProgram.Kernel_call Host.linux (CLProgram.clprg Launch.program)
                (_CL.cl_queue Host.CL) [4] None (map CLProgram.resolve Launch.args)
                Launch.world) as [r w1] eqn:Hk.
    assert (Hok : r = Ok 0%nat) by (vm_compute in Hk; now inversion Hk).
    subst r.
    destruct (timed_launch_duration Host.linux Host.CL Launch.program [4] None Launch.args
                Launch.world) as (_ & Hreturns & _ & _ & Hlinux).
    destruct (Hreturns 0%nat w1 Hk eq_refl) as [_ Hrange].
    destruct (Hrange ltac:(vm_compute; reflexivity)) as (d & w' & (Hd & _) & Hrun).
    assert (d = 300%float) as -> by (apply Prim2SF_inj; rewrite Hd; reflexivity).
    destruct (Hlinux eq_refl) as [Hone _]. rewrite Hone in Hrun.
    exists w'. exact Hrun.
Defined.

(** ** Argument binding *)

Lemma bind_arg_KMem_inv N ty h b :
  CLProgram.bind_arg N ty (KMem h) = Ok b -> ty = None /\ b = BMem h.
Proof.
  destruct ty; cbn; intros H; inversion H; auto.
Qed.

Lemma bind_arg_KScalar_inv N ty v b :
  CLProgram.bind_arg N ty (KScalar v) = Ok b ->
  match ty with
  | None => b = BRaw v
  | Some t => exists packed, pack N t v = Some packed /\ b = BPacked t packed
  end.
Proof.
  destruct ty as [t|]; cbn.
  - destruct (pack N t v) as [packed|]; intros H; inversion H; eauto.
  - intros H; inversion H; auto.
Qed.

(** Binding is positional: argument [i] is bound under declared type [i]. *)
Lemma bind_args_lookup N tys : forall args bound,
  CLProgram.bind_args N tys args = Ok bound ->
  length bound = length args /\
  forall (i : nat) a, args !! i = Some a ->
    exists ty b, tys !! i = Some ty /\ bound !! i = Some b
                 /\ CLProgram.bind_arg N ty a = Ok b.
Proof.
  induction tys as [|ty tys IH]; intros [|a0 args] bound Hb; cbn in Hb;
    try discriminate.
  - inversion Hb; subst. split; [reflexivity |]. intros i a Hi. discriminate.
  - destruct (CLProgram.bind_arg N ty a0) as [b0|] eqn:Hb0; [| discriminate].
    destruct (CLProgram.bind_args N tys args) as [bs|] eqn:Hbs; [| discriminate].
    inversion Hb; subst bound. destruct (IH args bs Hbs) as [Hlen Hpt].
    split; [cbn; now rewrite Hlen |].
    intros [|i] a Hi; cbn in Hi.
    + inversion Hi; subst a. exists ty, b0. repeat split; assumption.
    + destruct (Hpt i a Hi) as (ty' & b & H1 & H2 & H3).
      exists ty', b. repeat split; assumption.
Qed.

(** ** What a successful construction leaves *)

Lemma try_except_Ok_inv {A} (m : M A) (h : exn -> M A) w a w' :
  try_except m h w = (Ok a, w') ->
  m w = (Ok a, w') \/ exists e w1, m w = (Raise e, w1) /\ h e w1 = (Ok a, w').
Proof.
  unfold try_except. destruct (m w) as [[a0|e] w1]; intros H.
  - now left.
  - right. now exists e, w1.
Qed.

Lemma CLProgram_init_Ok_inv N CL name prg binary argdtypes w p w' :
  CLProgram.__init__ N CL name prg binary argdtypes w = (Ok p, w') ->
  CLProgram.name p = name
  /\ CLProgram.argdtypes p = argdtypes
  /\ heap w' !! CLProgram.clprg p = Some (Kernel (CLProgram._clprg p) name argdtypes).
Proof.
  unfold CLProgram.__init__. intros Hrun.
  apply bind_Ok_inv in Hrun as (h0 & w1 & Hcreate & Hrun).
  apply bind_Ok_inv in Hrun as (h1 & w2 & Hbuild & Hrun).
  apply bind_Ok_inv in Hrun as (k & w3 & Hget & Hrun).
  apply bind_Ok_inv in Hrun as (u & w4 & Hdump & Hrun).
  apply bind_Ok_inv in Hrun as (u' & w5 & Hset & Hret).
  inversion Hret; subst p w'; clear Hret. cbn.
  split; [reflexivity | split; [reflexivity |]].
  apply native_Ok_inv in Hget as [_ Hget]. inversion Hget; subst k w3; clear Hget.
  assert (Hk3 : heap w4 !! next (log (cl_Program_getattr h1 name) w2)
                = Some (Kernel h1 name None)).
  { assert (Hheap : heap w4
                    = <[next (log (cl_Program_getattr h1 name) w2) := Kernel h1 name None]>
                        (heap (log (cl_Program_getattr h1 name) w2))).
    { destruct ((5 <=? DEBUG N) && negb (OSX N)).
      - apply bind_Ok_inv in Hdump as (bins & wa & Hbins & Hdump).
        apply native_Ok_inv in Hbins as [_ Hbins].
        inversion Hbins; subst bins wa; clear Hbins.
        apply bind_Ok_inv in Hdump as (b0 & wa & Hb0 & Hdump).
        apply of_option_Ok_inv in Hb0 as [_ ->].
        apply bind_Ok_inv in Hdump as (d0 & wa & Hd0 & Hdump).
        apply of_option_Ok_inv in Hd0 as [_ ->].
        destruct (str_contains "Adreno" (dev_name d0)).
        + apply native_Ok_inv in Hdump as [_ Hdump].
          inversion Hdump; subst. reflexivity.
        + apply bind_Ok_inv in Hdump as (s & wa & Hs & Hdump).
          apply of_option_Ok_inv in Hs as [_ ->].
          inversion Hdump; subst. reflexivity.
      - inversion Hdump; subst. reflexivity. }
    rewrite Hheap. apply lookup_insert_eq. }
  destruct argdtypes as [tys|].
  - apply native_Ok_inv in Hset as [_ Hset]. inversion Hset; subst. cbn.
    apply lookup_insert_eq.
  - inversion Hset; subst. exact Hk3.
Qed.

Lemma call_Ok_inv N CL p gs ls bufs wait w v w' :
  CLProgram.__call__ N CL p gs ls bufs wait w = (Ok v, w') ->
  exists w1,
    CLProgram.Kernel_call N (CLProgram.clprg p) (_CL.cl_queue CL) gs ls
      (map CLProgram.resolve bufs) w = (Ok (next_event w), w1)
    /\ heap w' = heap w1
    /\ submitted w' = submitted w1
    /\ trace w' = trace w1 ++ (if wait then [finish_call CL] else []).
Proof.
  destruct wait; intros Hrun.
  - apply call_wait_Ok_inv in Hrun as (w1 & d & Hk & _ & _ & _ & Hh & Hp & Hc & Htr).
    exists w1. repeat split; try assumption.
    unfold submitted. now rewrite Hp, Hc, app_nil_r.
  - rewrite call_nowait in Hrun.
    destruct (CLProgram.Kernel_call _ _ _ _ _ _ w) as [[e|e] w1] eqn:Hk;
      inversion Hrun; subst.
    pose proof (Kernel_call_Ok_inv _ _ _ _ _ _ _ _ _ Hk) as (? & ? & ? & ? & _ & _ & -> & _).
    exists w'. repeat split. now rewrite app_nil_r.
Qed.

(** Whatever its outcome, a launch hands the resolved arguments to the
    kernel, and waits for the queue at most once, after the dispatch. *)
Lemma call_trace N CL p gs ls bufs wait w r w' :
  CLProgram.__call__ N CL p gs ls bufs wait w = (r, w') ->
  exists rest,
    trace w' = trace w ++ launch_call CL p gs ls bufs :: rest
    /\ (rest = [] \/ wait = true /\ rest = [finish_call CL]).
Proof.
  unfold CLProgram.__call__, bind. intros Hrun.
  pose proof (Kernel_call_trace N (CLProgram.clprg p) (_CL.cl_queue CL) gs ls
                (map CLProgram.resolve bufs) w) as [Htr _].
  destruct (CLProgram.Kernel_call _ _ _ _ _ _ w) as [[e|e] w1]; cbn [snd] in Htr.
  - destruct wait.
    + exists [finish_call CL]. split; [| right; split; reflexivity].
      unfold native in Hrun.
      destruct (native_raises N _ w1).
      * inversion Hrun; subst. cbn. now rewrite Htr, <- app_assoc.
      * cbn in Hrun.
        destruct (float_of_int _); inversion Hrun; subst; cbn;
          now rewrite Htr, <- app_assoc.
    + inversion Hrun; subst. exists []. split; [exact Htr | now left].
  - inversion Hrun; subst. exists []. split; [exact Htr | now left].
Qed.

(** C8: every launch hands the kernel its arguments resolved one by one, a
    CLBuffer as its native handle and anything else as it is.  A program
    constructed with a scalar-argument signature holds a kernel whose
    declared types are that signature; every later launch on a world where
    the kernel object is as construction left it leaves the objects of the
    context untouched (the declared types are not set again), and the
    dispatch it enqueues has the arguments bound position by position: a
    handle as it is, a scalar as the raw scalar where no type is declared
    and packed as exactly the declared type where one is.  The bound
    arguments depend on the signature and the arguments alone, so repeated
    launches bind them identically. *)
Theorem scalar_types_fixed_at_construction N CL :
  (forall p gs ls bufs wait w r w',
     CLProgram.__call__ N CL p gs ls bufs wait w = (r, w') ->
     exists rest,
       trace w'
         = trace w ++ cl_Kernel_call (CLProgram.clprg p) (_CL.cl_queue CL) gs ls
                        (map CLProgram.resolve bufs) :: rest)
  /\ (forall b, CLProgram.resolve (ArgCLBuffer b) = KMem (CLBuffer._buf b))
  /\ (forall v, CLProgram.resolve (ArgOther v) = KScalar v)
  /\ (forall name prg binary tys w0 p w1,
     CLProgram.__init__ N CL name prg binary (Some tys) w0 = (Ok p, w1) ->
     heap w1 !! CLProgram.clprg p = Some (Kernel (CLProgram._clprg p) name (Some tys))
     /\ (forall gs ls bufs wait w v w',
          heap w !! CLProgram.clprg p = heap w1 !! CLProgram.clprg p ->
          CLProgram.__call__ N CL p gs ls bufs wait w = (Ok v, w') ->
          heap w' = heap w
          /\ trace w' = trace w ++ launch_call CL p gs ls bufs
                                     :: (if wait then [finish_call CL] else [])
          /\ exists bound,
               CLProgram.bind_args N tys (map CLProgram.resolve bufs) = Ok bound
               /\ submitted w' = submitted w ++ [NDRange (CLProgram.clprg p) gs ls bound]
               /\ forall (i : nat) x, bufs !! i = Some x ->
                    exists ty b,
                      tys !! i = Some ty /\ bound !! i = Some b /\
                      match x with
                      | ArgCLBuffer cb => ty = None /\ b = BMem (CLBuffer._buf cb)
                      | ArgOther s =>
                          match ty with
                          | None => b = BRaw s
                          | Some t => exists packed,
                                        pack N t s = Some packed /\ b = BPacked t packed
                          end
                      end)
     /\ (forall gs ls bufs wait wait' wa wb va vb wa' wb',
          heap wa !! CLProgram.clprg p = heap w1 !! CLProgram.clprg p ->
          heap wb !! CLProgram.clprg p = heap w1 !! CLProgram.clprg p ->
          CLProgram.__call__ N CL p gs ls bufs wait wa = (Ok va, wa') ->
          CLProgram.__call__ N CL p gs ls bufs wait' wb = (Ok vb, wb') ->
          last (submitted wa') = last (submitted wb'))).
Proof.
  split; [| split; [reflexivity | split; [reflexivity |]]].
  { intros p gs ls bufs wait w r w' Hrun.
    apply call_trace in Hrun as (rest & Htr & _). now exists rest. }
  intros name prg binary tys w0 p w1 Hinit.
  apply CLProgram_init_Ok_inv in Hinit as (_ & _ & Hkernel).
  assert (Hlaunch : forall gs ls bufs wait w v w',
            heap w !! CLProgram.clprg p = heap w1 !! CLProgram.clprg p ->
            CLProgram.__call__ N CL p gs ls bufs wait w = (Ok v, w') ->
            heap w' = heap w
            /\ trace w' = trace w ++ launch_call CL p gs ls bufs
                                       :: (if wait then [finish_call CL] else [])
            /\ exists bound,
                 CLProgram.bind_args N tys (map CLProgram.resolve bufs) = Ok bound
                 /\ submitted w' = submitted w ++ [NDRange (CLProgram.clprg p) gs ls bound]).
  { intros gs ls bufs wait w v w' Hsame Hrun.
    apply call_Ok_inv in Hrun as (w2 & Hk & Hheap & Hsub & Htr).
    apply Kernel_call_Ok_inv in Hk
      as (prog & nm & sig & bound & Hobj & Hbind & _ & Hh2 & Hp2 & Hc2 & _ & Htr2).
    rewrite Hsame, Hkernel in Hobj. inversion Hobj; subst prog nm sig.
    split; [congruence | split].
    - rewrite Htr, Htr2, <- app_assoc. reflexivity.
    - exists bound. split; [exact Hbind |].
      rewrite Hsub. unfold submitted. now rewrite Hp2, Hc2, app_assoc. }
  split; [exact Hkernel | split].
  - intros gs ls bufs wait w v w' Hsame Hrun.
    destruct (Hlaunch gs ls bufs wait w v w' Hsame Hrun)
      as (Hheap & Htr & bound & Hbind & Hsub).
    split; [exact Hheap | split; [exact Htr |]].
    exists bound. split; [exact Hbind | split; [exact Hsub |]].
    intros i x Hx.
    destruct (bind_args_lookup N tys _ _ Hbind) as [_ Hpt].
    destruct (Hpt i (CLProgram.resolve x)) as (ty & b & Hty & Hb & Harg).
    { rewrite list_lookup_fmap, Hx. reflexivity. }
    exists ty, b. split; [exact Hty | split; [exact Hb |]].
    destruct x as [cb | s]; cbn [CLProgram.resolve] in Harg.
    + now apply bind_arg_KMem_inv in Harg.
    + now apply bind_arg_KScalar_inv in Harg.
  - intros gs ls bufs wait wait' wa wb va vb wa' wb' Ha Hb Hra Hrb.
    destruct (Hlaunch gs ls bufs wait wa va wa' Ha Hra) as (_ & _ & ba & Hba & Hsa).
    destruct (Hlaunch gs ls bufs wait' wb vb wb' Hb Hrb) as (_ & _ & bb & Hbb & Hsb).
    rewrite Hba in Hbb. inversion Hbb; subst bb.
    rewrite Hsa, Hsb, !last_snoc. reflexivity.
Qed.

Lemma scalar_types_fixed_at_construction_witness :
  exists p w1 w2 w3,
    CLProgram.__init__ Host.linux Host.CL "k" Launch.source false (Some Launch.signature)
      empty_world = (Ok p, w1)
    /\ CLProgram.__call__ Host.linux Host.CL p [4] None Launch.args false w1 = (Ok None, w2)
    /\ CLProgram.__call__ Host.linux Host.CL p [4] None Launch.args false w2 = (Ok None, w3)
    /\ pending w3 = [NDRange 1%nat [4] None [BMem 7%nat; BPacked np_int32 "i"];
                     NDRange 1%nat [4] None [BMem 7%nat; BPacked np_int32 "i"]]
    /\ last (submitted w2) = last (submitted w3).
Proof.
  destruct (CLProgram.__init__ Host.linux Host.CL "k" Launch.source false
              (Some Launch.signature) empty_world) as [r w1] eqn:Hinit.
  assert (Hp : r = Ok Launch.program) by (vm_compute in Hinit; inversion Hinit; reflexivity).
  subst r.
  destruct (CLProgram.__call__ Host.linux Host.CL Launch.program [4] None Launch.args false w1)
    as [r2 w2] eqn:Hrun2.
  assert (Hr2 : r2 = Ok None).
  { vm_compute in Hinit. inversion Hinit; subst w1.
    vm_compute in Hrun2. inversion Hrun2; reflexivity. }
  subst r2.
  destruct (CLProgram.__call__ Host.linux Host.CL Launch.program [4] None Launch.args false w2)
    as [r3 w3] eqn:Hrun3.
  assert (Hr3 : r3 = Ok None /\ pending w3
                = [NDRange 1%nat [4] None [BMem 7%nat; BPacked np_int32 "i"];
                   NDRange 1%nat [4] None [BMem 7%nat; BPacked np_int32 "i"]]).
  { vm_compute in Hinit. inversion Hinit; subst w1.
    vm_compute in Hrun2. inversion Hrun2; subst w2.
    vm_compute in Hrun3. inversion Hrun3; split; reflexivity. }
  destruct Hr3 as [-> Hpending].
  destruct (scalar_types_fixed_at_construction Host.linux Host.CL) as (_ & _ & _ & Hfixed).
  destruct (Hfixed "k" Launch.source false Launch.signature empty_world Launch.program w1
              Hinit) as (_ & Hlaunch & Hsame).
  destruct (Hlaunch [4] None Launch.args false w1 None w2 eq_refl Hrun2) as (Hheap2 & _).
  exists Launch.program, w1, w2, w3.
  split; [reflexivity | split; [exact Hrun2 | split; [exact Hrun3 | split]]].
  - exact Hpending.
  - apply (Hsame [4] None Launch.args false false w1 w2 None None w2 w3);
      [reflexivity | now rewrite Hheap2 | exact Hrun2 | exact Hrun3].
Defined.

(** * Further properties of the module *)

(** ** _CL: the notice, the index, the work-group limit *)

Lemma py_index_Some_iff {A} (l : list A) (i : Z) :
  is_Some (py_index l i) <-> index_in_range (Z.of_nat (length l)) i.
Proof.
  unfold py_index, index_in_range.
  destruct (0 <=? i) eqn:Hpos.
  - apply Z.leb_le in Hpos. rewrite lookup_lt_is_Some. lia.
  - apply Z.leb_gt in Hpos.
    destruct (- Z.of_nat (length l) <=? i) eqn:Hneg.
    + apply Z.leb_le in Hneg. rewrite lookup_lt_is_Some. lia.
    + apply Z.leb_gt in Hneg. split; [intros [x Hx]; discriminate | lia].
Qed.

(** A valid index, negative or not, selects position [i mod n]. *)
Lemma py_index_mod {A} (l : list A) (i : Z) :
  index_in_range (Z.of_nat (length l)) i ->
  py_index l i = l !! Z.to_nat (i mod Z.of_nat (length l)).
Proof.
  unfold py_index, index_in_range. intros Hrange.
  destruct (0 <=? i) eqn:Hpos.
  - apply Z.leb_le in Hpos. now rewrite Z.mod_small by lia.
  - apply Z.leb_gt in Hpos.
    destruct (- Z.of_nat (length l) <=? i) eqn:Hneg; [| apply Z.leb_gt in Hneg; lia].
    f_equal. f_equal.
    rewrite <- (Z.mod_add i 1) by lia. rewrite Z.mod_small; lia.
Qed.

Lemma select_device_Ok_stdout N ds w t w' :
  select_device N ds w = (Ok t, w') ->
  exists d,
    py_index ds (getenv N "CL_DEVICE" 0) = Some d
    /\ t = {| _CL.cl_ctx := {| devices := [d] |};
              _CL.cl_queue := {| queue_ctx := {| devices := [d] |};
                                 profiling_enable := true |} |}
    /\ stdout w'
         = stdout w ++ (if (1 <? Z.of_nat (length ds)) || (1 <=? DEBUG N)
                        then ["using " +:+ Device_str N d] else [])
    /\ heap w' = heap w /\ next w' = next w
    /\ pending w' = pending w /\ completed w' = completed w.
Proof.
  unfold select_device. intros Hrun.
  apply bind_Ok_inv in Hrun as (u & w1 & Hnotice & Hrun).
  apply bind_Ok_inv in Hrun as (d & w2 & Hd & Hrun).
  apply of_option_Ok_inv in Hd as [Hd ->].
  apply bind_Ok_inv in Hrun as (ctx & w2 & Hctx & Hrun).
  apply native_Ok_inv in Hctx as [_ Hctx]. inversion Hctx; subst ctx w2; clear Hctx.
  apply bind_Ok_inv in Hrun as (q & w2 & Hq & Hret).
  apply native_Ok_inv in Hq as [_ Hq]. inversion Hq; subst q w2; clear Hq.
  inversion Hret; subst t w'; clear Hret.
  exists d. split; [exact Hd | split; [reflexivity |]]. cbn.
  destruct ((1 <? Z.of_nat (length ds)) || (1 <=? DEBUG N)).
  - rewrite (bind_of_option_Some _ _ _ _ _ Hd) in Hnotice.
    inversion Hnotice; subst. cbn. repeat split.
  - inversion Hnotice; subst. rewrite app_nil_r. repeat split.
Qed.

(** A construction that returns went through both enumerations it needed
    and chose among the candidates. *)
Lemma CL_init_Ok_inv N w t w' :
  _CL.__init__ N w = (Ok t, w') ->
  exists w1, select_device N (candidates N) w1 = (Ok t, w')
    /\ stdout w1 = stdout w /\ heap w1 = heap w /\ next w1 = next w
    /\ pending w1 = pending w /\ completed w1 = completed w.
Proof.
  rewrite CL_init_unfold. intros Hrun.
  apply bind_Ok_inv in Hrun as (gpus & w1 & Hgpu & Hrun).
  apply all_devices_Ok in Hgpu as [-> ->].
  apply bind_Ok_inv in Hrun as (ds & w2 & Hds & Hrun).
  unfold candidates.
  destruct (devices_of N GPU) as [|g gs] eqn:Hgpus; cbn [length Nat.eqb] in Hds.
  - apply all_devices_Ok in Hds as [-> ->]. eexists. split; [exact Hrun |]. repeat split.
  - inversion Hds; subst ds w2; clear Hds. eexists. split; [exact Hrun |]. repeat split.
Qed.

(** X1: a construction that returns has printed exactly one notice,
    "using" and the selected device, when there is more than one candidate
    device or the diagnostics level is at least 1, and nothing otherwise; it
    created no object in the context and enqueued nothing. *)
Theorem context_notice N w t w' :
  _CL.__init__ N w = (Ok t, w') ->
  exists d,
    py_index (candidates N) (getenv N "CL_DEVICE" 0) = Some d
    /\ stdout w'
         = stdout w ++ (if (1 <? Z.of_nat (length (candidates N))) || (1 <=? DEBUG N)
                        then ["using " +:+ Device_str N d] else [])
    /\ heap w' = heap w /\ pending w' = pending w /\ completed w' = completed w.
Proof.
  intros Hrun.
  apply CL_init_Ok_inv in Hrun as (w1 & Hsel & Hout & Hheap & _ & Hp & Hc).
  apply select_device_Ok_stdout in Hsel as (d & Hd & _ & Hout' & Hheap' & _ & Hp' & Hc').
  exists d. split; [exact Hd |].
  rewrite Hout', Hout, Hheap', Hheap, Hp', Hp, Hc', Hc. repeat split.
Qed.

Lemma context_notice_witness :
  (exists t w', _CL.__init__ Host.linux empty_world = (Ok t, w')
                /\ stdout w' = ["using <pyopencl.Device Apple M1>"])
  /\ (exists t w', _CL.__init__ CpuOnly.host empty_world = (Ok t, w') /\ stdout w' = []).
Proof.
  split.
  - destruct (_CL.__init__ Host.linux empty_world) as [r w'] eqn:Hrun.
    assert (Hr : exists t, r = Ok t) by (vm_compute in Hrun; inversion Hrun; eauto).
    destruct Hr as [t ->].
    destruct (context_notice Host.linux empty_world t w' Hrun) as (d & Hd & Hout & _).
    vm_compute in Hd. inversion Hd; subst d.
    exists t, w'. split; [reflexivity | exact Hout].
  - destruct (_CL.__init__ CpuOnly.host empty_world) as [r w'] eqn:Hrun.
    assert (Hr : exists t, r = Ok t) by (vm_compute in Hrun; inversion Hrun; eauto).
    destruct Hr as [t ->].
    destruct (context_notice CpuOnly.host empty_world t w' Hrun) as (d & Hd & Hout & _).
    exists t, w'. split; [reflexivity | exact Hout].
Defined.

(** X2: the index CL_DEVICE is used as Python indexes a list.  Outside
    [-n, n), for [n] candidates, the construction raises whatever the native
    library does; inside, and no native call failing, it returns the context
    of the candidate at position [i mod n], so that -1 selects the last
    one. *)
Theorem context_index_bounds N w :
  let n := Z.of_nat (length (candidates N)) in
  let i := getenv N "CL_DEVICE" 0 in
  (~ index_in_range n i -> exists e w', _CL.__init__ N w = (Raise e, w'))
  /\ ((forall c w0, native_raises N c w0 = None) -> index_in_range n i ->
      exists d w',
        candidates N !! Z.to_nat (i mod n) = Some d
        /\ _CL.__init__ N w
             = (Ok {| _CL.cl_ctx := {| devices := [d] |};
                      _CL.cl_queue := {| queue_ctx := {| devices := [d] |};
                                         profiling_enable := true |} |}, w')).
Proof.
  intros n i. split.
  - intros Hout.
    destruct (_CL.__init__ N w) as [[t|e] w'] eqn:Hrun; [exfalso | eauto].
    apply CL_init_Ok_inv in Hrun as (w1 & Hsel & _).
    apply select_device_Ok_stdout in Hsel as (d & Hd & _).
    apply Hout. apply py_index_Some_iff. eauto.
  - intros Hrel Hin.
    pose proof (CL_init_returns N Hrel w) as Hret.
    pose proof (py_index_mod (candidates N) i Hin) as Hmod.
    fold n in Hmod. fold i in Hret.
    destruct (py_index (candidates N) i) as [d|] eqn:Hd.
    + destruct Hret as [w' Hrun]. exists d, w'. split; [now rewrite <- Hmod | exact Hrun].
    + apply py_index_Some_iff in Hin. rewrite Hd in Hin. destruct Hin as [x Hx]. discriminate.
Qed.

Lemma context_index_bounds_witness :
  (exists w', _CL.__init__ (Indexed.host (-1)) empty_world
     = (Ok {| _CL.cl_ctx := {| devices := [Host.gpu1] |};
              _CL.cl_queue := {| queue_ctx := {| devices := [Host.gpu1] |};
                                 profiling_enable := true |} |}, w'))
  /\ (exists e w', _CL.__init__ (Indexed.host 2) empty_world = (Raise e, w')).
Proof.
  split.
  - destruct (context_index_bounds (Indexed.host (-1)) empty_world) as [_ Hin].
    destruct (Hin (fun _ _ => eq_refl)) as (d & w' & Hd & Hrun).
    + unfold index_in_range. vm_compute. split; [discriminate | reflexivity].
    + vm_compute in Hd. inversion Hd; subst d. now exists w'.
  - destruct (context_index_bounds (Indexed.host 2) empty_world) as [Hout _].
    apply Hout. unfold index_in_range. vm_compute. intros [_ Hlt]. discriminate Hlt.
Defined.

(** X3: the work-group limit reported for a constructed context is that of
    the selected device (the one at the configured index, not the first one
    enumerated); the query does not raise and changes nothing. *)
Theorem max_work_group_size_of_selected N w CL w' :
  _CL.__init__ N w = (Ok CL, w') ->
  exists d,
    py_index (candidates N) (getenv N "CL_DEVICE" 0) = Some d
    /\ forall w0,
         CLProgram.max_work_group_size CL w0 = (Ok (dev_max_work_group_size d), w0).
Proof.
  intros Hrun.
  apply CL_init_Ok_inv in Hrun as (w1 & Hsel & _).
  apply select_device_Ok_stdout in Hsel as (d & Hd & -> & _).
  exists d. split; [exact Hd | reflexivity].
Qed.

Lemma max_work_group_size_of_selected_witness :
  exists CL w',
    _CL.__init__ (Indexed.host 1) empty_world = (Ok CL, w')
    /\ CLProgram.max_work_group_size CL w' = (Ok 1024, w').
Proof.
  destruct (_CL.__init__ (Indexed.host 1) empty_world) as [r w'] eqn:Hrun.
  assert (Hr : exists t, r = Ok t) by (vm_compute in Hrun; inversion Hrun; eauto).
  destruct Hr as [CL ->].
  destruct (max_work_group_size_of_selected (Indexed.host 1) empty_world CL w' Hrun)
    as (d & Hd & Hlimit).
  vm_compute in Hd. inversion Hd; subst d.
  exists CL, w'. split; [reflexivity | apply Hlimit].
Defined.

(** ** CLBuffer: shapes, failures, identity of the backing stores *)

Lemma py_index_short_1 (shape : list Z) : (length shape < 2)%nat -> py_index shape 1 = None.
Proof.
  intros Hlen. destruct shape as [|a [|b rest]]; cbn in Hlen; try lia; reflexivity.
Qed.

(** X4: an image element type of width 2 or 4 whose shape has fewer than
    two dimensions makes the construction raise IndexError before any native
    call: the world is left as it was. *)
Theorem image_shape_too_short N CL size itemsize name shape w :
  itemsize = 2 \/ itemsize = 4 ->
  (length shape < 2)%nat ->
  CLBuffer.__init__ N CL size (DType.ImageDType itemsize name shape) w
    = (Raise IndexError, w).
Proof.
  intros Hwidth Hlen. unfold CLBuffer.__init__.
  assert (Hct : exists ct, CLBuffer.channel_types !! itemsize = Some ct).
  { rewrite channel_types_lookup. destruct Hwidth as [-> | ->]; cbn; eauto. }
  destruct Hct as [ct Hct].
  apply bind_Raise.
  rewrite (bind_of_option_Some _ _ _ _ _ Hct).
  apply bind_of_option_None. now apply py_index_short_1.
Qed.

Lemma image_shape_too_short_witness :
  CLBuffer.__init__ Host.linux Host.CL 4 (DType.ImageDType 4 "imagef" [4]) empty_world
    = (Raise IndexError, empty_world).
Proof.
  apply (image_shape_too_short Host.linux Host.CL 4 4 "imagef" [4] empty_world).
  - now right.
  - cbn. lia.
Defined.

Lemma prod_cons2 rows cols rest : prod (rows :: cols :: rest) = rows * cols * prod rest.
Proof. unfold prod. cbn. lia. Qed.

(** X5: for an image element type of any number of dimensions (at least
    two) the texture has shape (shape[1], shape[0]) and the size check is
    against the product of all the dimensions: the native creation
    succeeding, the construction returns the buffer exactly when
    [size = shape[0] * shape[1] * prod(shape[2:])], and raises the size
    mismatch otherwise, with the image already created. *)
Theorem image_allocation_checks_all_dims N CL size itemsize name rows cols rest ct w :
  (itemsize = 2 /\ ct = HALF_FLOAT \/ itemsize = 4 /\ ct = FLOAT) ->
  let shape := rows :: cols :: rest in
  let o := Image READ_WRITE {| fmt_order := RGBA; fmt_type := ct |} (cols, rows) in
  native_raises N (cl_Image (_CL.cl_ctx CL) READ_WRITE
                     {| fmt_order := RGBA; fmt_type := ct |} (cols, rows)) w = None ->
  exists w',
    heap w' = <[next w := o]> (heap w)
    /\ (size = rows * cols * prod rest ->
        CLBuffer.__init__ N CL size (DType.ImageDType itemsize name shape) w
          = (Ok {| CLBuffer.size := size;
                   CLBuffer.dtype := DType.ImageDType itemsize name shape;
                   CLBuffer._buf := next w |}, w'))
    /\ (size <> rows * cols * prod rest ->
        CLBuffer.__init__ N CL size (DType.ImageDType itemsize name shape) w
          = (Raise (AssertionError (image_size_mismatch size shape)), w')).
Proof.
  intros Hct shape o Hnat.
  assert (Hlook : CLBuffer.channel_types !! itemsize = Some ct).
  { rewrite channel_types_lookup. destruct Hct as [[-> ->] | [-> ->]]; reflexivity. }
  assert (Hrun : forall k : handle -> M CLBuffer.t,
            (buf <- (ct <- of_option (CLBuffer.channel_types !! itemsize) (KeyError itemsize) ;;
                     s1 <- of_option (py_index shape 1) IndexError ;;
                     s0 <- of_option (py_index shape 0) IndexError ;;
                     buf <- native N (cl_Image (_CL.cl_ctx CL) READ_WRITE
                                        {| fmt_order := RGBA; fmt_type := ct |} (s1, s0))
                              (alloc (Image READ_WRITE
                                        {| fmt_order := RGBA; fmt_type := ct |} (s1, s0))) ;;
                     py_assert (size =? prod shape) (image_size_mismatch size shape) ;;
                     ret buf) ;;
             k buf) w
            = if size =? prod shape
              then k (next w) (snd (alloc o (log (cl_Image (_CL.cl_ctx CL) READ_WRITE
                       {| fmt_order := RGBA; fmt_type := ct |} (cols, rows)) w)))
              else (Raise (AssertionError (image_size_mismatch size shape)),
                    snd (alloc o (log (cl_Image (_CL.cl_ctx CL) READ_WRITE
                       {| fmt_order := RGBA; fmt_type := ct |} (cols, rows)) w)))).
  { intros k. unfold bind at 1.
    rewrite (bind_of_option_Some _ _ _ _ _ Hlook).
    rewrite (bind_of_option_Some _ _ _ _ cols eq_refl).
    rewrite (bind_of_option_Some _ _ _ _ rows eq_refl).
    rewrite bind_native_succeeds by exact Hnat.
    erewrite bind_Ok by reflexivity.
    destruct (size =? prod shape); reflexivity. }
  exists (snd (alloc o (log (cl_Image (_CL.cl_ctx CL) READ_WRITE
                              {| fmt_order := RGBA; fmt_type := ct |} (cols, rows)) w))).
  split; [| split].
  - reflexivity.
  - intros Hsize. unfold CLBuffer.__init__. rewrite Hrun.
    replace (size =? prod shape) with true; [reflexivity |].
    symmetry. apply Z.eqb_eq. unfold shape. now rewrite prod_cons2.
  - intros Hsize. unfold CLBuffer.__init__. rewrite Hrun.
    replace (size =? prod shape) with false; [reflexivity |].
    symmetry. apply Z.eqb_neq. unfold shape. now rewrite prod_cons2.
Qed.

Lemma image_allocation_checks_all_dims_witness :
  (exists w',
     CLBuffer.__init__ Host.linux Host.CL 24 (DType.ImageDType 4 "imagef" [2; 3; 4]) empty_world
       = (Ok {| CLBuffer.size := 24; CLBuffer.dtype := DType.ImageDType 4 "imagef" [2; 3; 4];
                CLBuffer._buf := 0%nat |}, w')
     /\ heap w' = <[0%nat := Image READ_WRITE {| fmt_order := RGBA; fmt_type := FLOAT |}
                               (3, 2)]> ∅)
  /\ (exists w',
     CLBuffer.__init__ Host.linux Host.CL 6 (DType.ImageDType 4 "imagef" [2; 3; 4]) empty_world
       = (Raise (AssertionError (image_size_mismatch 6 [2; 3; 4])), w')).
Proof.
  destruct (image_allocation_checks_all_dims Host.linux Host.CL 24 4 "imagef" 2 3 [4] FLOAT
              empty_world (or_intror (conj eq_refl eq_refl)) eq_refl)
    as (w' & Hheap & Hok & _).
  destruct (image_allocation_checks_all_dims Host.linux Host.CL 6 4 "imagef" 2 3 [4] FLOAT
              empty_world (or_intror (conj eq_refl eq_refl)) eq_refl)
    as (w'' & _ & _ & Hbad).
  split.
  - exists w'. split; [apply Hok; reflexivity | exact Hheap].
  - exists w''. apply Hbad. vm_compute. discriminate.
Defined.

(** X6: a buffer construction makes at most one native call, the creation
    of its backing store, and never touches the queue or the output,
    whatever its outcome; when that call fails, the construction raises the
    native error as it is and no object has been added to the context. *)
Theorem allocation_failure_propagates N CL size dtype w :
  (forall r w',
     CLBuffer.__init__ N CL size dtype w = (r, w') ->
     trace w' = trace w ++ match creation_call CL size dtype with
                           | Some c => [c]
                           | None => []
                           end
     /\ pending w' = pending w /\ completed w' = completed w /\ stdout w' = stdout w)
  /\ (forall c err,
     creation_call CL size dtype = Some c ->
     native_raises N c w = Some err ->
     CLBuffer.__init__ N CL size dtype w = (Raise err, log c w)
     /\ heap (log c w) = heap w).
Proof.
  unfold CLBuffer.__init__, CLBuffer.RawBuffer_init, creation_call.
  destruct dtype as [itemsize name | itemsize name shape].
  - split.
    + intros r w'. unfold bind, native.
      destruct (native_raises N _ w); intros Hrun; inversion Hrun; subst; repeat split.
    + intros c err Hc Herr. inversion Hc; subst c.
      split; [now apply bind_native_fails | reflexivity].
  - destruct (CLBuffer.channel_types !! itemsize) as [ct|];
      [| split; [intros r w' Hrun; inversion Hrun; subst; cbn; rewrite app_nil_r;
                 repeat split | discriminate]].
    destruct (py_index shape 1) as [s1|];
      [| split; [intros r w' Hrun; inversion Hrun; subst; cbn; rewrite app_nil_r;
                 repeat split | discriminate]].
    destruct (py_index shape 0) as [s0|];
      [| split; [intros r w' Hrun; inversion Hrun; subst; cbn; rewrite app_nil_r;
                 repeat split | discriminate]].
    split.
    + intros r w'. unfold bind, native, of_option, ret.
      destruct (native_raises N _ w).
      * intros Hrun; inversion Hrun; subst; repeat split.
      * cbn. destruct (size =? prod shape); intros Hrun; inversion Hrun; subst; repeat split.
    + intros c err Hc Herr. inversion Hc; subst c.
      split; [| reflexivity].
      apply bind_Raise. cbn [of_option].
      erewrite bind_Ok by reflexivity. erewrite bind_Ok by reflexivity.
      erewrite bind_Ok by reflexivity. now apply bind_native_fails.
Qed.

Lemma allocation_failure_propagates_witness :
  CLBuffer.__init__ OutOfMemory.host Host.CL 1024 (DType.DType 4 "float") empty_world
    = (Raise (CLError cl_MemoryError OutOfMemory.error),
       log (cl_Buffer Host.ctx0 READ_WRITE 4096) empty_world)
  /\ CLBuffer.__init__ OutOfMemory.host Host.CL 6 (DType.ImageDType 2 "imageh" [2; 3])
       empty_world
    = (Raise (CLError cl_MemoryError OutOfMemory.error),
       log (cl_Image Host.ctx0 READ_WRITE {| fmt_order := RGBA; fmt_type := HALF_FLOAT |}
              (3, 2)) empty_world).
Proof.
  split.
  - destruct (allocation_failure_propagates OutOfMemory.host Host.CL 1024
                (DType.DType 4 "float") empty_world) as [_ Hfail].
    now destruct (Hfail _ _ eq_refl eq_refl) as [-> _].
  - destruct (allocation_failure_propagates OutOfMemory.host Host.CL 6
                (DType.ImageDType 2 "imageh" [2; 3]) empty_world) as [_ Hfail].
    now destruct (Hfail _ _ eq_refl eq_refl) as [-> _].
Defined.

(** A construction that returns has added one object at the next free
    handle, which is the backing store of the buffer. *)
Lemma CLBuffer_init_Ok_inv N CL size dtype w b w' :
  CLBuffer.__init__ N CL size dtype w = (Ok b, w') ->
  b = {| CLBuffer.size := size; CLBuffer.dtype := dtype; CLBuffer._buf := next w |}
  /\ next w' = S (next w)
  /\ exists o, heap w' = <[next w := o]> (heap w)
               /\ is_Image o = DType.is_ImageDType dtype.
Proof.
  unfold CLBuffer.__init__, CLBuffer.RawBuffer_init. intros Hrun.
  apply bind_Ok_inv in Hrun as (buf & w1 & Hbuf & Hret).
  inversion Hret; subst b w1; clear Hret.
  destruct dtype as [itemsize name | itemsize name shape].
  - apply native_Ok_inv in Hbuf as [_ Halloc]. inversion Halloc; subst. cbn.
    split; [reflexivity | split; [reflexivity |]]. eexists. split; reflexivity.
  - apply bind_Ok_inv in Hbuf as (ct & w1 & Hct & Hbuf).
    apply of_option_Ok_inv in Hct as [Hct ->].
    apply bind_Ok_inv in Hbuf as (s1 & w1 & Hs1 & Hbuf).
    apply of_option_Ok_inv in Hs1 as [Hs1 ->].
    apply bind_Ok_inv in Hbuf as (s0 & w1 & Hs0 & Hbuf).
    apply of_option_Ok_inv in Hs0 as [Hs0 ->].
    apply bind_Ok_inv in Hbuf as (h & w1 & Himg & Hbuf).
    apply native_Ok_inv in Himg as [_ Halloc].
    apply bind_Ok_inv in Hbuf as (u & w2 & Hassert & Hret).
    apply py_assert_Ok_inv in Hassert as [_ ->].
    inversion Hret; subst buf w1; clear Hret.
    inversion Halloc; subst. cbn.
    split; [reflexivity | split; [reflexivity |]]. eexists. split; reflexivity.
Qed.

(** X7: two constructions in a row give buffers with different backing
    stores: the second handle differs from the first, the first object is
    still what it was and the second one is in the context too. *)
Theorem allocations_do_not_alias N CL size1 dtype1 size2 dtype2 w b1 w1 b2 w2 :
  CLBuffer.__init__ N CL size1 dtype1 w = (Ok b1, w1) ->
  CLBuffer.__init__ N CL size2 dtype2 w1 = (Ok b2, w2) ->
  CLBuffer._buf b1 <> CLBuffer._buf b2
  /\ is_Some (heap w1 !! CLBuffer._buf b1)
  /\ heap w2 !! CLBuffer._buf b1 = heap w1 !! CLBuffer._buf b1
  /\ is_Some (heap w2 !! CLBuffer._buf b2).
Proof.
  intros H1 H2.
  apply CLBuffer_init_Ok_inv in H1 as (-> & Hnext1 & o1 & Hheap1 & _).
  apply CLBuffer_init_Ok_inv in H2 as (-> & _ & o2 & Hheap2 & _).
  cbn [CLBuffer._buf]. rewrite Hnext1, Hheap2, Hheap1, Hnext1.
  split; [lia | split; [| split]].
  - rewrite lookup_insert_eq. eauto.
  - rewrite lookup_insert_ne by lia. reflexivity.
  - rewrite lookup_insert_eq. eauto.
Qed.

Lemma allocations_do_not_alias_witness :
  exists b1 w1 b2 w2,
    CLBuffer.__init__ Host.linux Host.CL 4 (DType.DType 4 "float") empty_world = (Ok b1, w1)
    /\ CLBuffer.__init__ Host.linux Host.CL 6 (DType.ImageDType 2 "imageh" [2; 3]) w1
         = (Ok b2, w2)
    /\ CLBuffer._buf b1 <> CLBuffer._buf b2
    /\ heap w2 !! CLBuffer._buf b1 = heap w1 !! CLBuffer._buf b1.
Proof.
  destruct (CLBuffer.__init__ Host.linux Host.CL 4 (DType.DType 4 "float") empty_world)
    as [r1 w1] eqn:H1.
  assert (Hr1 : exists b1, r1 = Ok b1) by (vm_compute in H1; inversion H1; eauto).
  destruct Hr1 as [b1 ->].
  destruct (CLBuffer.__init__ Host.linux Host.CL 6 (DType.ImageDType 2 "imageh" [2; 3]) w1)
    as [r2 w2] eqn:H2.
  assert (Hr2 : exists b2, r2 = Ok b2).
  { vm_compute in H1. inversion H1; subst. vm_compute in H2. inversion H2; eauto. }
  destruct Hr2 as [b2 ->].
  destruct (allocations_do_not_alias _ _ _ _ _ _ _ _ _ _ _ H1 H2) as (Hne & _ & Hkeep & _).
  exists b1, w1, b2, w2. repeat split; assumption.
Defined.

(** X8: a buffer allocated for an image element type whose name starts
    with "image" (as those of the image dtypes do) is image-backed and
    rejects every copyIn and copyOut. *)
Theorem image_buffers_reject_transfers N CL size itemsize name shape w b w' :
  startswith name "image" = true ->
  CLBuffer.__init__ N CL size (DType.ImageDType itemsize name shape) w = (Ok b, w') ->
  image_backed b w' = true
  /\ forall x w0,
       CLBuffer._copyin N CL b x w0
         = (Raise (AssertionError (cant_copyin_images (CLBuffer.dtype b))), w0)
       /\ CLBuffer._copyout N CL b x w0
         = (Raise (AssertionError (cant_copyout_images (CLBuffer.dtype b))), w0).
Proof.
  intros Hname Hrun.
  apply CLBuffer_init_Ok_inv in Hrun as (-> & _ & o & Hheap & Himg).
  split.
  - unfold image_backed. cbn [CLBuffer._buf]. rewrite Hheap, lookup_insert_eq. exact Himg.
  - intros x w0. split; [apply copyin_rejected | apply copyout_rejected]; exact Hname.
Qed.

Lemma image_buffers_reject_transfers_witness :
  exists b w',
    CLBuffer.__init__ Host.linux Host.CL 6 (DType.ImageDType 2 "imageh" [2; 3]) empty_world
      = (Ok b, w')
    /\ image_backed b w' = true
    /\ fst (CLBuffer._copyout Host.linux Host.CL b [0; 0] w')
         = Raise (AssertionError (cant_copyout_images (DType.ImageDType 2 "imageh" [2; 3]))).
Proof.
  destruct (CLBuffer.__init__ Host.linux Host.CL 6 (DType.ImageDType 2 "imageh" [2; 3])
              empty_world) as [r w'] eqn:Hrun.
  assert (Hr : exists b, r = Ok b /\ CLBuffer.dtype b = DType.ImageDType 2 "imageh" [2; 3])
    by (vm_compute in Hrun; inversion Hrun; eauto).
  destruct Hr as (b & -> & Hdtype).
  destruct (image_buffers_reject_transfers Host.linux Host.CL 6 2 "imageh" [2; 3]
              empty_world b w' eq_refl Hrun) as [Hback Hcopy].
  exists b, w'. split; [reflexivity | split; [exact Hback |]].
  destruct (Hcopy [0; 0] w') as [_ ->]. cbn [fst]. now rewrite Hdtype.
Defined.

(** ** Transfers and launches on the queue *)

(** X9: a transfer whose native call fails raises that error as it is and
    enqueues nothing: the queue is as it was. *)
Theorem transfer_failure_enqueues_nothing N CL b x w err :
  name_is_image b = false ->
  (native_raises N (copyin_call CL b x) w = Some err ->
   exists w', CLBuffer._copyin N CL b x w = (Raise err, w')
              /\ pending w' = pending w /\ completed w' = completed w)
  /\ (native_raises N (copyout_call CL b x) w = Some err ->
   exists w', CLBuffer._copyout N CL b x w = (Raise err, w')
              /\ pending w' = pending w /\ completed w' = completed w).
Proof.
  unfold name_is_image, CLBuffer._copyin, CLBuffer._copyout, copyin_call, copyout_call.
  intros Hname. rewrite Hname. cbn [negb py_assert].
  split; intros Hnat; eexists;
    (split; [erewrite bind_Ok by reflexivity; now apply native_fails | split; reflexivity]).
Qed.

Lemma transfer_failure_enqueues_nothing_witness :
  exists w',
    CLBuffer._copyin DeviceLost.host Host.CL Transfers.floats [1; 2; 3; 4] empty_world
      = (Raise (CLError cl_RuntimeError DeviceLost.error), w')
    /\ pending w' = [] /\ completed w' = [].
Proof.
  destruct (transfer_failure_enqueues_nothing DeviceLost.host Host.CL Transfers.floats
              [1; 2; 3; 4] empty_world (CLError cl_RuntimeError DeviceLost.error) eq_refl)
    as [Hin _].
  destruct (Hin eq_refl) as (w' & Hrun & Hp & Hc).
  exists w'. split; [exact Hrun | split; [exact Hp | exact Hc]].
Defined.

Lemma copyin_Ok_inv N CL b x w u w' :
  CLBuffer._copyin N CL b x w = (Ok u, w') ->
  name_is_image b = false
  /\ pending w' = pending w ++ [Copy (DeviceMem (CLBuffer._buf b)) (HostArray x) false]
  /\ completed w' = completed w
  /\ heap w' = heap w.
Proof.
  unfold CLBuffer._copyin, name_is_image. intros Hrun.
  apply bind_Ok_inv in Hrun as (u1 & w1 & Hassert & Hrun).
  apply py_assert_Ok_inv in Hassert as [Hname ->].
  apply native_Ok_inv in Hrun as [_ Hrun]. inversion Hrun; subst.
  split; [now apply negb_true_iff in Hname | repeat split].
Qed.

Lemma copyout_Ok_inv N CL b x w u w' :
  CLBuffer._copyout N CL b x w = (Ok u, w') ->
  name_is_image b = false
  /\ pending w' = []
  /\ completed w'
       = completed w ++ pending w ++ [Copy (HostArray x) (DeviceMem (CLBuffer._buf b)) true]
  /\ heap w' = heap w.
Proof.
  unfold CLBuffer._copyout, name_is_image. intros Hrun.
  apply bind_Ok_inv in Hrun as (u1 & w1 & Hassert & Hrun).
  apply py_assert_Ok_inv in Hassert as [Hname ->].
  apply native_Ok_inv in Hrun as [_ Hrun]. inversion Hrun; subst.
  split; [now apply negb_true_iff in Hname | repeat split].
Qed.

(** X10: copy in, launch without waiting, copy out.  Neither the copy-in
    nor the launch observes any completion; when the blocking copy-out
    returns nothing is pending and everything submitted before, then the
    copy-in, the dispatch and the copy-out, is complete in that order; the
    objects of the context are untouched. *)
Theorem copy_in_launch_copy_out N CL p a b gs ls bufs x y w w1 w2 w3 v :
  CLBuffer._copyin N CL a x w = (Ok tt, w1) ->
  CLProgram.__call__ N CL p gs ls bufs false w1 = (Ok v, w2) ->
  CLBuffer._copyout N CL b y w2 = (Ok tt, w3) ->
  completed w1 = completed w /\ completed w2 = completed w
  /\ pending w3 = []
  /\ heap w3 = heap w
  /\ exists bound,
       CLProgram.bind_call N
         (match heap w !! CLProgram.clprg p with
          | Some (Kernel _ _ sig) => sig
          | _ => None
          end) (map CLProgram.resolve bufs) = Ok bound
       /\ completed w3
            = submitted w
                ++ [Copy (DeviceMem (CLBuffer._buf a)) (HostArray x) false;
                    NDRange (CLProgram.clprg p) gs ls bound;
                    Copy (HostArray y) (DeviceMem (CLBuffer._buf b)) true].
Proof.
  intros Hin Hcall Hout.
  apply copyin_Ok_inv in Hin as (_ & Hp1 & Hc1 & Hh1).
  rewrite call_nowait in Hcall.
  destruct (CLProgram.Kernel_call N (CLProgram.clprg p) (_CL.cl_queue CL) gs ls
              (map CLProgram.resolve bufs) w1) as [[e|e] wk] eqn:Hk;
    inversion Hcall; subst v wk; clear Hcall.
  apply Kernel_call_Ok_inv in Hk
    as (prog & nm & sig & bound & Hobj & Hbind & _ & Hh2 & Hp2 & Hc2 & _).
  apply copyout_Ok_inv in Hout as (_ & Hp3 & Hc3 & Hh3).
  split; [exact Hc1 | split; [congruence |]].
  split; [exact Hp3 | split; [congruence |]].
  exists bound. split.
  - rewrite <- Hh1, Hobj. exact Hbind.
  - rewrite Hc3, Hc2, Hp2, Hc1, Hp1. unfold submitted. now rewrite <- !app_assoc.
Qed.

Lemma copy_in_launch_copy_out_witness :
  exists w3,
    pending w3 = []
    /\ completed w3
         = [Copy (DeviceMem 7%nat) (HostArray [1; 2; 3; 4]) false;
            NDRange 1%nat [4] None [BMem 7%nat; BPacked np_int32 "i"];
            Copy (HostArray [0; 0; 0; 0]) (DeviceMem 7%nat) true].
Proof.
  destruct (CLBuffer._copyin Host.linux Host.CL Launch.a [1; 2; 3; 4] Launch.world)
    as [r1 w1] eqn:H1.
  assert (Hr1 : r1 = Ok tt) by (vm_compute in H1; inversion H1; reflexivity). subst r1.
  destruct (CLProgram.__call__ Host.linux Host.CL Launch.program [4] None Launch.args false w1)
    as [r2 w2] eqn:H2.
  assert (Hr2 : r2 = Ok None).
  { vm_compute in H1. inversion H1; subst. vm_compute in H2. inversion H2; reflexivity. }
  subst r2.
  destruct (CLBuffer._copyout Host.linux Host.CL Launch.a [0; 0; 0; 0] w2) as [r3 w3] eqn:H3.
  assert (Hr3 : r3 = Ok tt).
  { vm_compute in H1. inversion H1; subst. vm_compute in H2. inversion H2; subst.
    vm_compute in H3. inversion H3; reflexivity. }
  subst r3.
  destruct (copy_in_launch_copy_out _ _ _ _ _ _ _ _ _ _ _ _ _ _ _ H1 H2 H3)
    as (_ & _ & Hp & _ & bound & Hbind & Hc).
  vm_compute in Hbind. inversion Hbind; subst bound.
  exists w3. split; [exact Hp | exact Hc].
Defined.

(** X11: a launch whose dispatch raises, because the native call fails or
    the arguments do not fit the declared types, raises that error whether
    or not [wait] is set; the queue is not waited for and nothing is
    enqueued: the world only has the dispatch call logged. *)
Theorem launch_dispatch_failure N CL p gs ls bufs wait w e w1 :
  CLProgram.Kernel_call N (CLProgram.clprg p) (_CL.cl_queue CL) gs ls
    (map CLProgram.resolve bufs) w = (Raise e, w1) ->
  CLProgram.__call__ N CL p gs ls bufs wait w
    = (Raise e, log (launch_call CL p gs ls bufs) w).
Proof.
  intros Hk.
  assert (Hw : w1 = log (launch_call CL p gs ls bufs) w).
  { revert Hk. unfold CLProgram.Kernel_call, native, launch_call.
    destruct (native_raises N _ w); [intros Hk; now inversion Hk |].
    unfold bind, CLProgram.kernel_signature, of_result, enqueue. cbn [heap log].
    destruct (heap w !! CLProgram.clprg p) as [[? ? ?|? ?|? ? ?|prog nm s]|];
      try (intros Hk; now inversion Hk).
    destruct (CLProgram.bind_call N s _); intros Hk; now inversion Hk. }
  subst w1. unfold CLProgram.__call__. now apply bind_Raise.
Qed.

Lemma launch_dispatch_failure_witness :
  CLProgram.__call__ DeviceLost.host_dispatch Host.CL Launch.program [4] None Launch.args true
    Launch.world
    = (Raise (CLError cl_LogicError DeviceLost.error),
       log (launch_call Host.CL Launch.program [4] None Launch.args) Launch.world).
Proof.
  eapply (launch_dispatch_failure DeviceLost.host_dispatch Host.CL Launch.program [4] None
            Launch.args true Launch.world).
  vm_compute. reflexivity.
Defined.

(** X12: when the wait of a timed launch fails, the launch raises that
    error and returns no duration, but its dispatch has been enqueued and
    stays pending; the same launch without [wait] would have returned. *)
Theorem timed_launch_wait_failure N CL p gs ls bufs w e w1 err :
  CLProgram.Kernel_call N (CLProgram.clprg p) (_CL.cl_queue CL) gs ls
    (map CLProgram.resolve bufs) w = (Ok e, w1) ->
  native_raises N (finish_call CL) w1 = Some err ->
  exists w' c,
    CLProgram.__call__ N CL p gs ls bufs true w = (Raise err, w')
    /\ pending w' = pending w ++ [c]
    /\ completed w' = completed w
    /\ CLProgram.__call__ N CL p gs ls bufs false w = (Ok None, w1).
Proof.
  intros Hk Hfin.
  pose proof (Kernel_call_Ok_inv _ _ _ _ _ _ _ _ _ Hk)
    as (prog & nm & sig & bound & _ & _ & _ & _ & Hp & Hc & _).
  exists (log (finish_call CL) w1), (NDRange (CLProgram.clprg p) gs ls bound).
  split; [| split; [exact Hp | split; [exact Hc |]]].
  - unfold CLProgram.__call__. erewrite bind_Ok by exact Hk.
    unfold finish_call in *. now apply bind_native_fails.
  - now rewrite call_nowait, Hk.
Qed.

Lemma timed_launch_wait_failure_witness :
  exists w' c,
    CLProgram.__call__ DeviceLost.host Host.CL Launch.program [4] None Launch.args true
      Launch.world = (Raise (CLError cl_RuntimeError DeviceLost.error), w')
    /\ pending w' = [c] /\ completed w' = [].
Proof.
  destruct (CLProgram.Kernel_call DeviceLost.host (CLProgram.clprg Launch.program)
              (_CL.cl_queue Host.CL) [4] None (map CLProgram.resolve Launch.args)
              Launch.world) as [r w1] eqn:Hk.
  assert (Hr : exists e, r = Ok e
               /\ native_raises DeviceLost.host (finish_call Host.CL) w1
                    = Some (CLError cl_RuntimeError DeviceLost.error)).
  { vm_compute in Hk. inversion Hk; subst. eexists. split; reflexivity. }
  destruct Hr as (e & -> & Hfin).
  destruct (timed_launch_wait_failure _ _ _ _ _ _ _ _ _ _ Hk Hfin)
    as (w' & c & Hrun & Hp & Hc & _).
  exists w', c. split; [exact Hrun | split; [exact Hp | exact Hc]].
Defined.

(** ** CLProgram: what a construction leaves, and the diagnostic dump *)

(** The handler of a failed build always raises. *)
Lemma build_handler_raises N prg e w (a : handle) w' :
  match e with
  | CLError cl_RuntimeError _ =>
      (if 3 <=? DEBUG N then print ("FAILED TO BUILD " +:+ prg) else ret tt) ;;
      raise e
  | _ => raise e
  end w <> (Ok a, w').
Proof.
  destruct e as [m|k| |attr| | | | |[] r]; try discriminate.
  destruct (3 <=? DEBUG N); discriminate.
Qed.

(** The dump, as line 51 to 58 have it, for the program at handle [n]. *)
Lemma dump_Ok_inv N CL prg (n : handle) w u w' :
  (if (5 <=? DEBUG N) && negb (OSX N) then
     bins <- native N (cl_Program_get_info_BINARIES n) (ret (program_binaries N prg)) ;;
     binary <- of_option (py_index bins 0) IndexError ;;
     d0 <- of_option (py_index (devices (_CL.cl_ctx CL)) 0) IndexError ;;
     if str_contains "Adreno" (dev_name d0)
     then adreno_disasm N binary
     else s <- of_option (decode_utf8 N binary) UnicodeDecodeError ;; print s
   else ret tt) w = (Ok u, w') ->
  heap w' = heap w /\ next w' = next w
  /\ pending w' = pending w /\ completed w' = completed w
  /\ exists out calls,
       stdout w' = stdout w ++ out /\ trace w' = trace w ++ calls
       /\ if dump_enabled N
          then exists bin d0,
                 py_index (program_binaries N prg) 0 = Some bin
                 /\ py_index (devices (_CL.cl_ctx CL)) 0 = Some d0
                 /\ if str_contains "Adreno" (dev_name d0)
                    then out = []
                         /\ calls = [cl_Program_get_info_BINARIES n; disasm bin]
                    else exists s, decode_utf8 N bin = Some s /\ out = [s]
                                   /\ calls = [cl_Program_get_info_BINARIES n]
          else out = [] /\ calls = [].
Proof.
  unfold dump_enabled. destruct ((5 <=? DEBUG N) && negb (OSX N)); intros Hdump.
  - apply bind_Ok_inv in Hdump as (bins & wa & Hbins & Hdump).
    apply native_Ok_inv in Hbins as [_ Hbins].
    inversion Hbins; subst bins wa; clear Hbins.
    apply bind_Ok_inv in Hdump as (b0 & wa & Hb0 & Hdump).
    apply of_option_Ok_inv in Hb0 as [Hb0 ->].
    apply bind_Ok_inv in Hdump as (d0 & wa & Hd0 & Hdump).
    apply of_option_Ok_inv in Hd0 as [Hd0 ->].
    destruct (str_contains "Adreno" (dev_name d0)) eqn:Hadreno.
    + unfold adreno_disasm in Hdump.
      apply native_Ok_inv in Hdump as [_ Hdump]. inversion Hdump; subst. cbn.
      repeat split. exists []. eexists. split; [now rewrite app_nil_r |].
      split; [now rewrite <- app_assoc |].
      exists b0, d0. rewrite Hadreno. repeat split; assumption.
    + apply bind_Ok_inv in Hdump as (s & wa & Hs & Hdump).
      apply of_option_Ok_inv in Hs as [Hs ->].
      inversion Hdump; subst. cbn.
      repeat split. exists [s]. eexists. split; [reflexivity |].
      split; [reflexivity |].
      exists b0, d0. rewrite Hadreno. split; [exact Hb0 | split; [exact Hd0 |]].
      exists s. repeat split. exact Hs.
  - inversion Hdump; subst. repeat split.
    exists [], []. rewrite !app_nil_r. repeat split.
Qed.

(** A construction that returns, in full. *)
Lemma CLProgram_init_Ok_full N CL name prg binary argdtypes w p w' :
  CLProgram.__init__ N CL name prg binary argdtypes w = (Ok p, w') ->
  p = {| CLProgram.name := name; CLProgram.argdtypes := argdtypes;
         CLProgram.clprogram := next w; CLProgram._clprg := next w;
         CLProgram.clprg := S (next w) |}
  /\ heap w' = <[S (next w) := Kernel (next w) name argdtypes]>
                 (<[next w := Program prg binary true]> (heap w))
  /\ next w' = S (S (next w))
  /\ pending w' = pending w /\ completed w' = completed w
  /\ exists out calls,
       stdout w' = stdout w ++ out
       /\ trace w' = trace w ++ construction_calls CL name prg binary w ++ calls
                       ++ signature_calls argdtypes w
       /\ if dump_enabled N
          then exists bin d0,
                 py_index (program_binaries N prg) 0 = Some bin
                 /\ py_index (devices (_CL.cl_ctx CL)) 0 = Some d0
                 /\ if str_contains "Adreno" (dev_name d0)
                    then out = []
                         /\ calls = [cl_Program_get_info_BINARIES (next w); disasm bin]
                    else exists s, decode_utf8 N bin = Some s /\ out = [s]
                                   /\ calls = [cl_Program_get_info_BINARIES (next w)]
          else out = [] /\ calls = [].
Proof.
  unfold CLProgram.__init__. intros Hrun.
  apply bind_Ok_inv in Hrun as (h0 & w1 & Hcreate & Hrun).
  apply native_Ok_inv in Hcreate as [_ Hcreate].
  inversion Hcreate; subst h0 w1; clear Hcreate.
  apply bind_Ok_inv in Hrun as (h1 & w2 & Hbuild & Hrun).
  apply try_except_Ok_inv in Hbuild as [Hbuild | (e & wx & _ & Hhandler)];
    [| exfalso; exact (build_handler_raises N prg e wx h1 w2 Hhandler)].
  apply native_Ok_inv in Hbuild as [_ Hbuild].
  inversion Hbuild; subst h1 w2; clear Hbuild.
  apply bind_Ok_inv in Hrun as (k & w3 & Hget & Hrun).
  apply native_Ok_inv in Hget as [_ Hget]. inversion Hget; subst k w3; clear Hget.
  apply bind_Ok_inv in Hrun as (u & w4 & Hdump & Hrun).
  apply dump_Ok_inv in Hdump
    as (Hheap & Hnext & Hpend & Hcompl & out & calls & Hout & Htrace & Hdump).
  apply bind_Ok_inv in Hrun as (u' & w5 & Hset & Hret).
  inversion Hret; subst p w'; clear Hret.
  cbn [next log alloc snd heap pending completed stdout trace] in *.
  split; [reflexivity |].
  destruct argdtypes as [tys|].
  - apply native_Ok_inv in Hset as [_ Hset]. inversion Hset; subst w5; clear Hset.
    cbn [next log heap pending completed stdout trace].
    rewrite Hheap, Hnext, Hpend, Hcompl, Hout, Htrace.
    rewrite insert_insert_eq, insert_insert_eq.
    repeat split. exists out, calls. split; [reflexivity |].
    split; [| exact Hdump].
    unfold construction_calls, signature_calls. cbn. now rewrite <- !app_assoc.
  - inversion Hset; subst w5; clear Hset.
    rewrite Hheap, Hnext, Hpend, Hcompl, Hout, Htrace.
    rewrite insert_insert_eq.
    repeat split. exists out, calls. split; [reflexivity |].
    split; [| exact Hdump].
    unfold construction_calls, signature_calls. cbn. now rewrite app_nil_r, <- !app_assoc.
Qed.

(** X13: a construction that returns leaves exactly two new objects, the
    built program and, at the next handle, the kernel of the requested name
    holding the signature given (none when [argdtypes] is None); the program
    object returned refers to them; nothing is enqueued.  None of this
    depends on the diagnostics level or on the platform. *)
Theorem program_construction_result N CL name prg binary argdtypes w p w' :
  CLProgram.__init__ N CL name prg binary argdtypes w = (Ok p, w') ->
  p = {| CLProgram.name := name; CLProgram.argdtypes := argdtypes;
         CLProgram.clprogram := next w; CLProgram._clprg := next w;
         CLProgram.clprg := S (next w) |}
  /\ heap w' = <[S (next w) := Kernel (next w) name argdtypes]>
                 (<[next w := Program prg binary true]> (heap w))
  /\ next w' = S (S (next w))
  /\ pending w' = pending w /\ completed w' = completed w.
Proof.
  intros Hrun.
  apply CLProgram_init_Ok_full in Hrun as (Hp & Hheap & Hnext & Hpend & Hcompl & _).
  repeat split; assumption.
Qed.

Lemma program_construction_result_witness :
  exists w',
    CLProgram.__init__ Dump.linux Host.CL "k" Launch.source false None empty_world
      = (Ok {| CLProgram.name := "k"; CLProgram.argdtypes := None;
               CLProgram.clprogram := 0%nat; CLProgram._clprg := 0%nat;
               CLProgram.clprg := 1%nat |}, w')
    /\ heap w' = <[1%nat := Kernel 0%nat "k" None]>
                   (<[0%nat := Program Launch.source false true]> ∅).
Proof.
  destruct (CLProgram.__init__ Dump.linux Host.CL "k" Launch.source false None empty_world)
    as [r w'] eqn:Hrun.
  assert (Hr : exists p, r = Ok p) by (vm_compute in Hrun; inversion Hrun; eauto).
  destruct Hr as [p ->].
  destruct (program_construction_result _ _ _ _ _ _ _ _ _ Hrun) as (-> & Hheap & _).
  exists w'. split; [reflexivity | exact Hheap].
Defined.

(** X14: the diagnostic dump of a construction that returns.  It is on
    exactly at diagnostics level 5 and above off macOS.  When it is off, the
    construction prints nothing and makes no native call beyond creating,
    building, looking up the entry point and declaring the scalar types (the
    latter only when a signature is given).  When it is on, the first binary
    of the program is fetched; when the name of the context's first device
    contains "Adreno" the binary is handed to the disassembler and the
    module makes no print of its own, otherwise exactly one print is made,
    of the binary decoded as UTF-8, and the disassembler is not called. *)
Theorem diagnostic_dump N CL name prg binary argdtypes w p w' :
  CLProgram.__init__ N CL name prg binary argdtypes w = (Ok p, w') ->
  (dump_enabled N = true <-> 5 <= DEBUG N /\ OSX N = false)
  /\ (dump_enabled N = false ->
      stdout w' = stdout w
      /\ trace w' = trace w ++ construction_calls CL name prg binary w
                      ++ signature_calls argdtypes w)
  /\ (dump_enabled N = true ->
      exists bin d0,
        py_index (program_binaries N prg) 0 = Some bin
        /\ py_index (devices (_CL.cl_ctx CL)) 0 = Some d0
        /\ (str_contains "Adreno" (dev_name d0) = true ->
            stdout w' = stdout w
            /\ trace w' = trace w ++ construction_calls CL name prg binary w
                            ++ [cl_Program_get_info_BINARIES (next w); disasm bin]
                            ++ signature_calls argdtypes w)
        /\ (str_contains "Adreno" (dev_name d0) = false ->
            exists s, decode_utf8 N bin = Some s
                      /\ stdout w' = stdout w ++ [s]
                      /\ trace w' = trace w ++ construction_calls CL name prg binary w
                                      ++ [cl_Program_get_info_BINARIES (next w)]
                                      ++ signature_calls argdtypes w)).
Proof.
  intros Hrun.
  apply CLProgram_init_Ok_full in Hrun
    as (_ & _ & _ & _ & _ & out & calls & Hout & Htrace & Hdump).
  split; [| split].
  - unfold dump_enabled. rewrite andb_true_iff, negb_true_iff, Z.leb_le. reflexivity.
  - intros Hoff. rewrite Hoff in Hdump. destruct Hdump as [-> ->].
    split; [now rewrite Hout, app_nil_r | exact Htrace].
  - intros Hon. rewrite Hon in Hdump. destruct Hdump as (bin & d0 & Hbin & Hd0 & Hdump).
    exists bin, d0. split; [exact Hbin | split; [exact Hd0 | split]].
    + intros Hadreno. rewrite Hadreno in Hdump. destruct Hdump as [-> ->].
      split; [now rewrite Hout, app_nil_r | exact Htrace].
    + intros Hother. rewrite Hother in Hdump. destruct Hdump as (s & Hs & -> & ->).
      exists s. split; [exact Hs | split; [exact Hout | exact Htrace]].
Qed.

Lemma diagnostic_dump_witness :
  (exists p w',
     CLProgram.__init__ Dump.linux Host.CL "k" Launch.source false None empty_world
       = (Ok p, w') /\ stdout w' = [Launch.source])
  /\ (exists p w',
     CLProgram.__init__ Dump.linux Dump.adreno "k" Launch.source false None empty_world
       = (Ok p, w') /\ stdout w' = []
     /\ last (trace w') = Some (disasm Launch.source))
  /\ (exists p w',
     CLProgram.__init__ Dump.mac Host.CL "k" Launch.source false None empty_world
       = (Ok p, w') /\ stdout w' = []).
Proof.
  split; [| split].
  - destruct (CLProgram.__init__ Dump.linux Host.CL "k" Launch.source false None empty_world)
      as [r w'] eqn:Hrun.
    assert (Hr : exists p, r = Ok p) by (vm_compute in Hrun; inversion Hrun; eauto).
    destruct Hr as [p ->].
    destruct (diagnostic_dump _ _ _ _ _ _ _ _ _ Hrun) as (_ & _ & Hon).
    destruct (Hon eq_refl) as (bin & d0 & Hbin & Hd0 & _ & Hplain).
    vm_compute in Hbin, Hd0. inversion Hbin; inversion Hd0; subst bin d0.
    destruct (Hplain eq_refl) as (s & Hs & Hout & _).
    vm_compute in Hs. inversion Hs; subst s.
    exists p, w'. split; [reflexivity | exact Hout].
  - destruct (CLProgram.__init__ Dump.linux Dump.adreno "k" Launch.source false None
                empty_world) as [r w'] eqn:Hrun.
    assert (Hr : exists p, r = Ok p) by (vm_compute in Hrun; inversion Hrun; eauto).
    destruct Hr as [p ->].
    destruct (diagnostic_dump _ _ _ _ _ _ _ _ _ Hrun) as (_ & _ & Hon).
    destruct (Hon eq_refl) as (bin & d0 & Hbin & Hd0 & Hadreno & _).
    vm_compute in Hbin, Hd0. inversion Hbin; inversion Hd0; subst bin d0.
    destruct (Hadreno eq_refl) as (Hout & Htrace).
    exists p, w'. split; [reflexivity | split; [exact Hout |]].
    rewrite Htrace. reflexivity.
  - destruct (CLProgram.__init__ Dump.mac Host.CL "k" Launch.source false None empty_world)
      as [r w'] eqn:Hrun.
    assert (Hr : exists p, r = Ok p) by (vm_compute in Hrun; inversion Hrun; eauto).
    destruct Hr as [p ->].
    destruct (diagnostic_dump _ _ _ _ _ _ _ _ _ Hrun) as (_ & Hoff & _).
    destruct (Hoff eq_refl) as (Hout & _).
    exists p, w'. split; [reflexivity | exact Hout].
Defined.

Lemma try_except_Ok {A} (m : M A) (h : exn -> M A) w a w' :
  m w = (Ok a, w') -> try_except m h w = (Ok a, w').
Proof. intros Hm. unfold try_except. now rewrite Hm. Qed.

(** X15: when the entry point cannot be resolved (the built program has no
    kernel of that name), the construction raises the lookup's error; the
    program has been created and built, but no kernel object exists, the
    scalar types were not declared and nothing was printed. *)
Theorem entry_point_lookup_failure N CL name prg binary argdtypes w e :
  native_raises N (cl_Program (_CL.cl_ctx CL) prg binary) w = None ->
  native_raises N (cl_Program_build (next w)) (program_created CL prg binary w) = None ->
  native_raises N (cl_Program_getattr (next w) name) (program_built CL prg binary w)
    = Some e ->
  exists w',
    CLProgram.__init__ N CL name prg binary argdtypes w = (Raise e, w')
    /\ heap w' = <[next w := Program prg binary true]> (heap w)
    /\ stdout w' = stdout w
    /\ trace w' = trace w ++ construction_calls CL name prg binary w.
Proof.
  intros Hcreate Hbuild Hget.
  exists (log (cl_Program_getattr (next w) name) (program_built CL prg binary w)).
  split; [| split; [| split]].
  - unfold CLProgram.__init__.
    rewrite bind_native_succeeds by exact Hcreate.
    rewrite (bind_Ok _ _ _ (next w) (program_created CL prg binary w)) by reflexivity.
    rewrite (bind_Ok _ _ _ (next w) (program_built CL prg binary w)).
    + now apply bind_native_fails.
    + apply try_except_Ok.
      change (next (log (cl_Program (_CL.cl_ctx CL) prg binary) w)) with (next w).
      rewrite native_succeeds by exact Hbuild. reflexivity.
  - cbn. apply insert_insert_eq.
  - reflexivity.
  - unfold construction_calls. cbn. now rewrite <- !app_assoc.
Qed.

Lemma entry_point_lookup_failure_witness :
  exists w',
    CLProgram.__init__ MissingKernel.host Host.CL "k" Launch.source false
      (Some Launch.signature) empty_world = (Raise (AttributeError "k"), w')
    /\ heap w' = <[0%nat := Program Launch.source false true]> ∅.
Proof.
  destruct (entry_point_lookup_failure MissingKernel.host Host.CL "k" Launch.source false
              (Some Launch.signature) empty_world (AttributeError "k")
              eq_refl eq_refl eq_refl) as (w' & Hrun & Hheap & _).
  exists w'. split; [exact Hrun | exact Hheap].
Defined.

(** X16: the diagnostic dump can abort a construction whose build and
    entry-point lookup succeeded.  With the dump on and no native call
    failing, the construction raises IndexError when the program reports no
    binary, and UnicodeDecodeError when the device is not an Adreno and the
    first binary is not valid UTF-8; in both cases the kernel object has
    been created, without declared scalar types, and no program object is
    returned. *)
Theorem diagnostic_dump_failure N CL name prg binary argdtypes w :
  (forall c w0, native_raises N c w0 = None) ->
  dump_enabled N = true ->
  (py_index (program_binaries N prg) 0 = None ->
   exists w',
     CLProgram.__init__ N CL name prg binary argdtypes w = (Raise IndexError, w')
     /\ heap w' !! S (next w) = Some (Kernel (next w) name None))
  /\ (forall bin d0,
      py_index (program_binaries N prg) 0 = Some bin ->
      py_index (devices (_CL.cl_ctx CL)) 0 = Some d0 ->
      str_contains "Adreno" (dev_name d0) = false ->
      decode_utf8 N bin = None ->
      exists w',
        CLProgram.__init__ N CL name prg binary argdtypes w = (Raise UnicodeDecodeError, w')
        /\ heap w' !! S (next w) = Some (Kernel (next w) name None)).
Proof.
  intros Hrel Hon. unfold dump_enabled in Hon.
  assert (Hprefix : forall e w',
            (bins <- native N (cl_Program_get_info_BINARIES (next w))
                       (ret (program_binaries N prg)) ;;
             binary <- of_option (py_index bins 0) IndexError ;;
             d0 <- of_option (py_index (devices (_CL.cl_ctx CL)) 0) IndexError ;;
             if str_contains "Adreno" (dev_name d0)
             then adreno_disasm N binary
             else s <- of_option (decode_utf8 N binary) UnicodeDecodeError ;; print s)
              (snd (alloc (Kernel (next w) name None)
                      (log (cl_Program_getattr (next w) name)
                         (program_built CL prg binary w))))
            = (Raise e, w') ->
            CLProgram.__init__ N CL name prg binary argdtypes w = (Raise e, w')).
  { intros e w' Hdump. unfold CLProgram.__init__.
    rewrite bind_native_succeeds by apply Hrel.
    rewrite (bind_Ok _ _ _ (next w) (program_created CL prg binary w)) by reflexivity.
    rewrite (bind_Ok _ _ _ (next w) (program_built CL prg binary w)).
    2: { apply try_except_Ok.
         change (next (log (cl_Program (_CL.cl_ctx CL) prg binary) w)) with (next w).
         rewrite native_succeeds by apply Hrel. reflexivity. }
    rewrite bind_native_succeeds by apply Hrel.
    erewrite bind_Ok by reflexivity.
    apply bind_Raise. rewrite Hon. exact Hdump. }
  split.
  - intros Hnone. eexists. split.
    + apply Hprefix.
      rewrite bind_native_succeeds by apply Hrel.
      erewrite bind_Ok by reflexivity.
      now apply bind_of_option_None.
    + cbn. apply lookup_insert_eq.
  - intros bin d0 Hbin Hd0 Hother Hdec. eexists. split.
    + apply Hprefix.
      rewrite bind_native_succeeds by apply Hrel.
      erewrite bind_Ok by reflexivity.
      rewrite (bind_of_option_Some _ _ _ _ _ Hbin).
      rewrite (bind_of_option_Some _ _ _ _ _ Hd0).
      rewrite Hother. now apply bind_of_option_None.
    + cbn. apply lookup_insert_eq.
Qed.

Lemma diagnostic_dump_failure_witness :
  exists w',
    CLProgram.__init__ Dump.undecodable Host.CL "k" Launch.source false None empty_world
      = (Raise UnicodeDecodeError, w')
    /\ heap w' !! 1%nat = Some (Kernel 0%nat "k" None).
Proof.
  destruct (diagnostic_dump_failure Dump.undecodable Host.CL "k" Launch.source false None
              empty_world (fun _ _ => eq_refl) eq_refl) as [_ Hdecode].
  exact (Hdecode "ELF" Host.gpu0 eq_refl eq_refl eq_refl eq_refl).
Defined.

(** ** What the operations do to the objects of the context *)

Lemma inert_ret {A} (a : A) : inert (ret a).
Proof. intros w r w' H. inversion H; subst. split; reflexivity. Qed.

Lemma inert_raise {A} (e : exn) : inert (@raise A e).
Proof. intros w r w' H. inversion H; subst. split; reflexivity. Qed.

Lemma inert_bind {A B} (m : M A) (k : A -> M B) :
  inert m -> (forall a, inert (k a)) -> inert (bind m k).
Proof.
  intros Hm Hk w r w' Hrun. unfold bind in Hrun.
  destruct (m w) as [[a|e] w1] eqn:Hmw.
  - destruct (Hm _ _ _ Hmw) as [Hh Hn]. destruct (Hk a _ _ _ Hrun) as [Hh' Hn'].
    split; congruence.
  - inversion Hrun; subst. exact (Hm _ _ _ Hmw).
Qed.

Lemma inert_native {A} N c (effect : M A) : inert effect -> inert (native N c effect).
Proof.
  intros Heff w r w' Hrun. unfold native in Hrun.
  destruct (native_raises N c w).
  - inversion Hrun; subst. split; reflexivity.
  - exact (Heff _ _ _ Hrun).
Qed.

Lemma inert_try_except {A} (m : M A) (h : exn -> M A) :
  inert m -> (forall e, inert (h e)) -> inert (try_except m h).
Proof.
  intros Hm Hh w r w' Hrun. unfold try_except in Hrun.
  destruct (m w) as [[a|e] w1] eqn:Hmw.
  - inversion Hrun; subst. exact (Hm _ _ _ Hmw).
  - destruct (Hm _ _ _ Hmw) as [Hh1 Hn1]. destruct (Hh e _ _ _ Hrun) as [Hh2 Hn2].
    split; congruence.
Qed.

Lemma inert_of_option {A} (o : option A) e : inert (of_option o e).
Proof. destruct o; [apply inert_ret | apply inert_raise]. Qed.

Lemma inert_of_result {A} (r : result A) : inert (of_result r).
Proof. intros w r' w' H. inversion H; subst. split; reflexivity. Qed.

Lemma inert_mapM {A B} (f : A -> M B) (l : list A) :
  (forall a, inert (f a)) -> inert (mapM f l).
Proof.
  intros Hf. induction l as [|a l IH]; cbn [mapM].
  - apply inert_ret.
  - apply inert_bind; [apply Hf | intros b].
    apply inert_bind; [exact IH | intros bs]. apply inert_ret.
Qed.
Lemma inert_print s : inert (print s).
Proof. intros w r w' H. inversion H; subst. split; reflexivity. Qed.

Lemma inert_py_assert c m : inert (py_assert c m).
Proof. destruct c; [apply inert_ret | apply inert_raise]. Qed.

Lemma inert_enqueue c blocking : inert (enqueue c blocking).
Proof.
  intros w r w' H. unfold enqueue in H.
  destruct blocking; inversion H; subst; split; reflexivity.
Qed.

Lemma inert_drain : inert drain.
Proof. intros w r w' H. inversion H; subst. split; reflexivity. Qed.

Lemma inert_kernel_signature k : inert (CLProgram.kernel_signature k).
Proof.
  intros w r w' H. unfold CLProgram.kernel_signature in H.
  destruct (heap w !! k) as [[? ? ?|? ?|? ? ?|? ? ?]|]; inversion H; subst; split; reflexivity.
Qed.

Create HintDb inert.
#[local] Hint Resolve inert_ret inert_raise inert_of_option inert_of_result inert_print
  inert_py_assert inert_enqueue inert_drain inert_kernel_signature : inert.

Ltac inert_step :=
  match goal with
  | |- inert (bind _ _) => apply inert_bind; [| intros ?]
  | |- inert (native _ _ _) => apply inert_native
  | |- inert (mapM _ _) => apply inert_mapM; intros ?
  | |- inert (if ?c then _ else _) => destruct c
  | |- inert _ => solve [auto with inert]
  end.

Lemma inert_all_devices N ty : inert (_CL.all_devices N ty).
Proof. unfold _CL.all_devices, _CL.get_platforms, _CL.get_devices. repeat inert_step. Qed.

(** X17: constructing the device context, the two transfers, a launch and
    the work-group query never create, replace or remove a memory, program
    or kernel object of the context, whatever their outcome. *)
Theorem operations_leave_objects N CL :
  inert (_CL.__init__ N)
  /\ (forall b x, inert (CLBuffer._copyin N CL b x))
  /\ (forall b x, inert (CLBuffer._copyout N CL b x))
  /\ (forall p gs ls bufs wait, inert (CLProgram.__call__ N CL p gs ls bufs wait))
  /\ inert (CLProgram.max_work_group_size CL).
Proof.
  split; [| split; [| split; [| split]]].
  - unfold _CL.__init__.
    apply inert_bind; [apply inert_all_devices | intros gpus].
    apply inert_bind; [destruct (length gpus =? 0)%nat;
                       [apply inert_all_devices | apply inert_ret] | intros ds].
    repeat inert_step.
  - intros b x. unfold CLBuffer._copyin. repeat inert_step.
  - intros b x. unfold CLBuffer._copyout. repeat inert_step.
  - intros p gs ls bufs wait. unfold CLProgram.__call__, CLProgram.Kernel_call.
    repeat inert_step.
  - unfold CLProgram.max_work_group_size. repeat inert_step.
Qed.

Lemma framed_inert {A} n (m : M A) : inert m -> framed n m (fun _ => True).
Proof.
  intros Hm w r w' Hn Hrun. destruct (Hm _ _ _ Hrun) as [Hh Hnext].
  rewrite Hh, Hnext. repeat split; auto.
Qed.

Lemma framed_weaken {A} n (m : M A) (Q R : A -> Prop) :
  framed n m Q -> (forall a, Q a -> R a) -> framed n m R.
Proof.
  intros Hm HQR w r w' Hn Hrun. destruct (Hm _ _ _ Hn Hrun) as (H1 & H2 & H3).
  repeat split; auto.
Qed.

Lemma framed_ret {A} n (a : A) (Q : A -> Prop) : Q a -> framed n (ret a) Q.
Proof.
  intros HQ w r w' Hn Hrun. inversion Hrun; subst.
  repeat split; auto. intros a' Ha'. now inversion Ha'; subst.
Qed.

Lemma framed_bind {A B} n (m : M A) (k : A -> M B) (Q : A -> Prop) (R : B -> Prop) :
  framed n m Q -> (forall a, Q a -> framed n (k a) R) -> framed n (bind m k) R.
Proof.
  intros Hm Hk w r w' Hn Hrun. unfold bind in Hrun.
  destruct (m w) as [[a|e] w1] eqn:Hmw.
  - destruct (Hm _ _ _ Hn Hmw) as (Hle & Hkeep & HQ).
    destruct (Hk a (HQ a eq_refl) w1 r w' ltac:(lia) Hrun) as (Hle' & Hkeep' & HR).
    split; [lia | split; [| exact HR]].
    intros h Hh. rewrite Hkeep' by exact Hh. now apply Hkeep.
  - inversion Hrun; subst. destruct (Hm _ _ _ Hn Hmw) as (Hle & Hkeep & _).
    repeat split; auto. discriminate.
Qed.

Lemma framed_native {A} n N c (effect : M A) (Q : A -> Prop) :
  framed n effect Q -> framed n (native N c effect) Q.
Proof.
  intros Heff w r w' Hn Hrun. unfold native in Hrun.
  destruct (native_raises N c w).
  - inversion Hrun; subst. repeat split; auto. discriminate.
  - exact (Heff (log c w) r w' Hn Hrun).
Qed.

Lemma framed_try_except {A} n (m : M A) (h : exn -> M A) (Q : A -> Prop) :
  framed n m Q -> (forall e, framed n (h e) Q) -> framed n (try_except m h) Q.
Proof.
  intros Hm Hh w r w' Hn Hrun. unfold try_except in Hrun.
  destruct (m w) as [[a|e] w1] eqn:Hmw.
  - inversion Hrun; subst. exact (Hm _ _ _ Hn Hmw).
  - destruct (Hm _ _ _ Hn Hmw) as (Hle & Hkeep & _).
    destruct (Hh e w1 r w' ltac:(lia) Hrun) as (Hle' & Hkeep' & HQ).
    split; [lia | split; [| exact HQ]].
    intros x Hx. rewrite Hkeep' by exact Hx. now apply Hkeep.
Qed.

(** A new object gets a handle nobody holds. *)
Lemma framed_alloc n o : framed n (alloc o) (fun h => (n <= h)%nat).
Proof.
  intros w r w' Hn Hrun. inversion Hrun; subst. cbn.
  split; [lia | split].
  - intros h Hh. apply lookup_insert_ne. lia.
  - intros a Ha. inversion Ha; subst. exact Hn.
Qed.

(** Replacing the object at a handle given out since leaves the older ones. *)
Lemma framed_set_object n h o : (n <= h)%nat -> framed n (set_object h o) (fun _ => True).
Proof.
  intros Hh w r w' Hn Hrun. inversion Hrun; subst. cbn.
  split; [lia | split; [| auto]].
  intros x Hx. apply lookup_insert_ne. lia.
Qed.

Lemma framed_CLBuffer_init N CL size dtype n :
  framed n (CLBuffer.__init__ N CL size dtype) (fun _ => True).
Proof.
  unfold CLBuffer.__init__, CLBuffer.RawBuffer_init.
  apply (framed_bind n _ _ (fun h => (n <= h)%nat)).
  - destruct dtype as [itemsize name | itemsize name shape].
    + apply framed_native, framed_alloc.
    + apply (framed_bind n _ _ (fun _ => True));
        [apply framed_inert, inert_of_option | intros ct _].
      apply (framed_bind n _ _ (fun _ => True));
        [apply framed_inert, inert_of_option | intros s1 _].
      apply (framed_bind n _ _ (fun _ => True));
        [apply framed_inert, inert_of_option | intros s0 _].
      apply (framed_bind n _ _ (fun h => (n <= h)%nat));
        [apply framed_native, framed_alloc | intros buf Hbuf].
      apply (framed_bind n _ _ (fun _ => True));
        [apply framed_inert, inert_py_assert | intros u _].
      now apply framed_ret.
  - intros buf _. now apply framed_ret.
Qed.

Lemma framed_CLProgram_init N CL name prg binary argdtypes n :
  framed n (CLProgram.__init__ N CL name prg binary argdtypes) (fun _ => True).
Proof.
  unfold CLProgram.__init__.
  apply (framed_bind n _ _ (fun h => (n <= h)%nat));
    [apply framed_native, framed_alloc | intros clprogram Hprogram].
  apply (framed_bind n _ _ (fun _ => True)).
  { apply framed_try_except.
    - apply framed_native.
      apply (framed_bind n _ _ (fun _ => True));
        [now apply framed_set_object | intros u _; now apply framed_ret].
    - intros e. apply framed_inert.
      destruct e as [m|k| |attr| | | | |[] r]; repeat inert_step. }
  intros _clprg _.
  apply (framed_bind n _ _ (fun h => (n <= h)%nat));
    [apply framed_native, framed_alloc | intros clprg Hkernel].
  apply (framed_bind n _ _ (fun _ => True)).
  { apply framed_inert. unfold adreno_disasm.
    destruct ((5 <=? DEBUG N) && negb (OSX N)); repeat inert_step. }
  intros u _.
  apply (framed_bind n _ _ (fun _ => True)).
  { destruct argdtypes as [tys|].
    - apply framed_native. now apply framed_set_object.
    - now apply framed_ret. }
  intros u' _. now apply framed_ret.
Qed.

(** X18: the two constructions only add to the context.  Whatever their
    outcome, every object that had a handle before the construction is
    still at that handle, unchanged, and the next free handle never goes
    back: no construction overwrites or frees the backing store, program or
    kernel of another object. *)
Theorem constructions_only_add N CL w :
  (forall size dtype r w',
     CLBuffer.__init__ N CL size dtype w = (r, w') ->
     (next w <= next w')%nat
     /\ forall h, (h < next w)%nat -> heap w' !! h = heap w !! h)
  /\ (forall name prg binary argdtypes r w',
     CLProgram.__init__ N CL name prg binary argdtypes w = (r, w') ->
     (next w <= next w')%nat
     /\ forall h, (h < next w)%nat -> heap w' !! h = heap w !! h).
Proof.
  split.
  - intros size dtype r w' Hrun.
    destruct (framed_CLBuffer_init N CL size dtype (next w) w r w' (le_n _) Hrun)
      as (Hle & Hkeep & _).
    split; assumption.
  - intros name prg binary argdtypes r w' Hrun.
    destruct (framed_CLProgram_init N CL name prg binary argdtypes (next w) w r w'
                (le_n _) Hrun) as (Hle & Hkeep & _).
    split; assumption.
Qed.

Lemma operations_leave_objects_witness :
  heap (snd (CLBuffer._copyin Host.linux Host.CL Launch.a [1; 2; 3; 4] Launch.world))
    = heap Launch.world
  /\ heap (snd (CLProgram.__call__ Host.linux Host.CL Launch.program [4] None Launch.args true
                  Launch.world)) = heap Launch.world.
Proof.
  destruct (operations_leave_objects Host.linux Host.CL) as (_ & Hin & _ & Hcall & _).
  split.
  - destruct (CLBuffer._copyin Host.linux Host.CL Launch.a [1; 2; 3; 4] Launch.world)
      as [r w'] eqn:Hrun.
    exact (proj1 (Hin Launch.a [1; 2; 3; 4] Launch.world r w' Hrun)).
  - destruct (CLProgram.__call__ Host.linux Host.CL Launch.program [4] None Launch.args true
                Launch.world) as [r w'] eqn:Hrun.
    exact (proj1 (Hcall Launch.program [4] None Launch.args true Launch.world r w' Hrun)).
Defined.

Lemma constructions_only_add_witness :
  exists b w',
    CLBuffer.__init__ Host.linux Host.CL 4 (DType.DType 4 "float") Launch.world = (Ok b, w')
    /\ heap w' !! 1%nat = Some (Kernel 0%nat "k" (Some Launch.signature))
    /\ CLBuffer._buf b = 2%nat.
Proof.
  destruct (CLBuffer.__init__ Host.linux Host.CL 4 (DType.DType 4 "float") Launch.world)
    as [r w'] eqn:Hrun.
  assert (Hr : exists b, r = Ok b /\ CLBuffer._buf b = 2%nat)
    by (vm_compute in Hrun; inversion Hrun; eauto).
  destruct Hr as (b & -> & Hbuf).
  destruct (constructions_only_add Host.linux Host.CL Launch.world) as [Hbuffer _].
  destruct (Hbuffer _ _ _ _ Hrun) as [_ Hkeep].
  exists b, w'. split; [reflexivity | split; [| exact Hbuf]].
  rewrite (Hkeep 1%nat) by (vm_compute; lia). vm_compute. reflexivity.
Defined.

(** X19: when the query for the platforms fails, the construction of the
    device context raises that error at once: no device is enumerated, the
    CPU fallback is not tried and nothing is printed. *)
Theorem platform_query_failure N w e :
  native_raises N cl_get_platforms w = Some e ->
  _CL.__init__ N w = (Raise e, log cl_get_platforms w).
Proof.
  intros Hfail. rewrite CL_init_unfold.
  apply bind_Raise. unfold _CL.all_devices, _CL.get_platforms.
  now apply bind_native_fails.
Qed.

Lemma platform_query_failure_witness :
  _CL.__init__ NoPlatform.host empty_world
    = (Raise (CLError cl_LogicError NoPlatform.error), log cl_get_platforms empty_world).
Proof.
  apply (platform_query_failure NoPlatform.host empty_world). reflexivity.
Defined.

(** ** Launching with buffers only *)

Lemma bind_args_buffers N (bs : list CLBuffer.t) :
  CLProgram.bind_call N None (map CLProgram.resolve (map ArgCLBuffer bs))
    = Ok (map (fun b => BMem (CLBuffer._buf b)) bs).
Proof.
  unfold CLProgram.bind_call.
  induction bs as [|b bs IH]; cbn; [reflexivity |]. now rewrite IH.
Qed.

(** X20: a program constructed without a scalar-argument signature can be
    launched on buffers alone: on a world where its kernel object is as
    construction left it, and the native dispatch succeeding, the launch
    returns and enqueues one dispatch whose arguments are the native handles
    of the buffers, in order. *)
Theorem buffer_launch_without_signature N CL name prg binary w0 p w1 gs ls bs w :
  CLProgram.__init__ N CL name prg binary None w0 = (Ok p, w1) ->
  heap w !! CLProgram.clprg p = heap w1 !! CLProgram.clprg p ->
  native_raises N (launch_call CL p gs ls (map ArgCLBuffer bs)) w = None ->
  exists w',
    CLProgram.__call__ N CL p gs ls (map ArgCLBuffer bs) false w = (Ok None, w')
    /\ pending w'
         = pending w ++ [NDRange (CLProgram.clprg p) gs ls
                           (map (fun b => BMem (CLBuffer._buf b)) bs)]
    /\ completed w' = completed w.
Proof.
  intros Hinit Hsame Hnat.
  apply CLProgram_init_Ok_inv in Hinit as (_ & _ & Hkernel).
  rewrite Hkernel in Hsame.
  eexists. split.
  - rewrite call_nowait. unfold CLProgram.Kernel_call. unfold launch_call in Hnat.
    rewrite native_succeeds by exact Hnat.
    unfold bind at 1. unfold CLProgram.kernel_signature. cbn [heap log]. rewrite Hsame.
    unfold bind, of_result. rewrite bind_args_buffers. reflexivity.
  - split; reflexivity.
Qed.

Lemma buffer_launch_without_signature_witness :
  exists p w1 w',
    CLProgram.__init__ Host.linux Host.CL "k" Launch.source false None empty_world = (Ok p, w1)
    /\ CLProgram.__call__ Host.linux Host.CL p [4] None (map ArgCLBuffer [Launch.a; Launch.a])
         false w1 = (Ok None, w')
    /\ pending w' = [NDRange (CLProgram.clprg p) [4] None [BMem 7%nat; BMem 7%nat]].
Proof.
  destruct (CLProgram.__init__ Host.linux Host.CL "k" Launch.source false None empty_world)
    as [r w1] eqn:Hinit.
  assert (Hr : exists p, r = Ok p /\ pending w1 = [])
    by (vm_compute in Hinit; inversion Hinit; eauto).
  destruct Hr as (p & -> & Hpending).
  destruct (buffer_launch_without_signature Host.linux Host.CL "k" Launch.source false
              empty_world p w1 [4] None [Launch.a; Launch.a] w1 Hinit eq_refl eq_refl)
    as (w' & Hrun & Hp & _).
  exists p, w1, w'. split; [reflexivity | split; [exact Hrun |]].
  rewrite Hp, Hpending. reflexivity.
Defined.
